(** * vso-extension-tools: the manifest merge engine, the archive assembler's
      bookkeeping and the remote-error translator, embedded in Rocq.

    The program is untyped JavaScript/TypeScript working on parsed JSON
    documents, so the embedding is a small first-order model of JavaScript
    values ([jsval]), of property reads and writes, and of the outcome of
    running a statement ([res]: normal completion, a thrown exception, or a
    behaviour that is left outside the embedding).

    Conventions of the embedding.
    - A string is a sequence of UTF-16 code units below 256, one [ascii]
      per code unit.
    - A number is an integer that a double holds exactly and that
      [Number.prototype.toString] prints in plain decimal notation; other
      numbers are outside the embedding.
    - An object is the ordered list of its own enumerable properties, in
      insertion order; an array is the list of its elements.  An engine
      enumerates the properties whose names are array indices (["0"],
      ["1"], ...) before the others, in numeric order; here they stand
      where they were inserted, so that for an object with such names
      the list tells the properties and their values, not the order of
      enumeration.
    - Objects carry no prototype.  A property read with a name that
      [Object.prototype] defines is therefore only faithful for the names
      the program itself spells out ([statusCode], [body], [message],
      [assets], ...); where the program reads a property whose name comes
      from the data (inside lodash's [merge]), the embedding stops with
      [Unmodelled] on the names listed in [inherited_names]. *)

From Stdlib Require Import ZArith List String Ascii Bool Lia Arith.
From Stdlib Require Import DecimalString DecimalNat DecimalFacts.
Import ListNotations.
Open Scope string_scope.
Open Scope list_scope.


(* ------------------------------------------------------------------ *)
(** ** JavaScript values *)

Unset Elimination Schemes.
Inductive jsval : Type :=
| VUndef
| VNull
| VBool (b : bool)
| VNum (n : Z)
| VStr (s : string)
| VArr (elems : list jsval)
| VObj (props : list (string * jsval)).
Set Elimination Schemes.

Definition props_t := list (string * jsval).

Section ValueInduction.
Variable P : jsval -> Prop.
Hypothesis Hundef : P VUndef.
Hypothesis Hnull : P VNull.
Hypothesis Hbool : forall b, P (VBool b).
Hypothesis Hnum : forall n, P (VNum n).
Hypothesis Hstr : forall s, P (VStr s).
Hypothesis Harr : forall l, Forall P l -> P (VArr l).
Hypothesis Hobj : forall o, Forall (fun kv => P (snd kv)) o -> P (VObj o).

Fixpoint jsval_ind (v : jsval) : P v :=
  match v with
  | VUndef => Hundef
  | VNull => Hnull
  | VBool b => Hbool b
  | VNum n => Hnum n
  | VStr s => Hstr s
  | VArr l =>
      Harr l ((fix go (l : list jsval) : Forall P l :=
               match l with
               | [] => Forall_nil P
               | x :: r => Forall_cons x (jsval_ind x) (go r)
               end) l)
  | VObj o =>
      Hobj o ((fix go (o : props_t) : Forall (fun kv => P (snd kv)) o :=
               match o with
               | [] => Forall_nil _
               | kv :: r => Forall_cons kv (jsval_ind (snd kv)) (go r)
               end) o)
  end.
End ValueInduction.

(** Exceptions: the engine's own errors, a failed file-system call, and
    [throw v] of a program value. *)
Inductive exn : Type :=
| TypeError
| SyntaxError
| SystemError
| Thrown (v : jsval).

(** Outcome of running a piece of the program. *)
Inductive res (A : Type) : Type :=
| Ret (a : A)
| Throw (e : exn)
| Unmodelled.
Arguments Ret {A} a.
Arguments Throw {A} e.
Arguments Unmodelled {A}.

Definition bind {A B} (m : res A) (k : A -> res B) : res B :=
  match m with
  | Ret a => k a
  | Throw e => Throw e
  | Unmodelled => Unmodelled
  end.

Declare Scope js_scope.
Delimit Scope js_scope with js.
Notation "x <- m ;; k" := (bind m (fun x => k))
  (at level 61, m at next level, right associativity) : js_scope.
Notation "' p <- m ;; k" := (bind m (fun p => k))
  (at level 61, p pattern, m at next level, right associativity) : js_scope.
Open Scope js_scope.

(** [xs.forEach(body)] threading the state the body mutates; a throw in
    the body ends the loop. *)
Fixpoint forEach {A S} (xs : list A) (body : A -> S -> res S) (s : S) : res S :=
  match xs with
  | [] => Ret s
  | x :: r => s' <- body x s ;; forEach r body s'
  end.

(* ------------------------------------------------------------------ *)
(** ** Strings *)

Definition dquote : string := String "034"%char EmptyString.
Definition backslash : ascii := "092"%char.

Definition string_of_nat (n : nat) : string :=
  NilZero.string_of_uint (Nat.to_uint n).

Definition string_of_Z (z : Z) : string :=
  NilZero.string_of_int (Z.to_int z).

(** A canonical array index: the decimal numeral of a natural number,
    without sign or leading zeros. *)
Definition index_of_string (s : string) : option nat :=
  match NilZero.uint_of_string s with
  | Some u =>
      let n := Nat.of_uint u in
      if string_dec (string_of_nat n) s then Some n else None
  | None => None
  end.

(** [String.prototype.toLowerCase] on code units below 256: the ASCII
    capitals and the Latin-1 capitals (U+00C0..U+00DE but U+00D7). *)
Definition lower_char (c : ascii) : ascii :=
  let n := nat_of_ascii c in
  if (((65 <=? n) && (n <=? 90))
      || ((192 <=? n) && (n <=? 222) && negb (n =? 215)))%nat
  then ascii_of_nat (n + 32) else c.

Fixpoint map_string (f : ascii -> ascii) (s : string) : string :=
  match s with
  | EmptyString => EmptyString
  | String c r => String (f c) (map_string f r)
  end.

Definition toLowerCase (s : string) : string := map_string lower_char s.

(** [s.replace(/\\/g, "/")]. *)
Definition slashes (s : string) : string :=
  map_string (fun c => if Ascii.eqb c backslash then "/"%char else c) s.

Fixpoint chars (s : string) : list string :=
  match s with
  | EmptyString => []
  | String c r => String c EmptyString :: chars r
  end.

(* ------------------------------------------------------------------ *)
(** ** Property reads and writes *)

Fixpoint lookup (k : string) (o : props_t) : option jsval :=
  match o with
  | [] => None
  | (k', v) :: r => if String.eqb k k' then Some v else lookup k r
  end.

(** [o[k] = v] on an object: an existing property keeps its place, a
    new one is listed last (see the convention on names that are array
    indices). *)
Fixpoint upsert (k : string) (v : jsval) (o : props_t) : props_t :=
  match o with
  | [] => [(k, v)]
  | (k', v') :: r =>
      if String.eqb k k' then (k', v) :: r else (k', v') :: upsert k v r
  end.

(** [a[i] = v] on an array: writing past the end pads with [undefined]. *)
Fixpoint set_nth (i : nat) (v : jsval) (l : list jsval) : list jsval :=
  match i, l with
  | O, [] => [v]
  | O, _ :: r => v :: r
  | S j, [] => VUndef :: set_nth j v []
  | S j, x :: r => x :: set_nth j v r
  end.

Definition opt_value (o : option jsval) : jsval :=
  match o with Some v => v | None => VUndef end.

(** [v[k]]: reading from [undefined] or [null] is a TypeError; a
    primitive other than a string has no own property. *)
Definition get (v : jsval) (k : string) : res jsval :=
  match v with
  | VUndef | VNull => Throw TypeError
  | VObj o => Ret (opt_value (lookup k o))
  | VArr l =>
      if String.eqb k "length" then Ret (VNum (Z.of_nat (List.length l)))
      else match index_of_string k with
           | Some i => Ret (opt_value (nth_error l i))
           | None => Ret VUndef
           end
  | VStr s =>
      if String.eqb k "length" then Ret (VNum (Z.of_nat (String.length s)))
      else match index_of_string k with
           | Some i => Ret (opt_value (option_map VStr (nth_error (chars s) i)))
           | None => Ret VUndef
           end
  | VBool _ | VNum _ => Ret VUndef
  end.

(** [v[k] = x] in non-strict code: a TypeError on [undefined] and [null],
    ignored on a primitive.  A named (non-index) property on an array has
    no place in [VArr]. *)
Definition set (v : jsval) (k : string) (x : jsval) : res jsval :=
  match v with
  | VUndef | VNull => Throw TypeError
  | VObj o => Ret (VObj (upsert k x o))
  | VArr l =>
      match index_of_string k with
      | Some i => Ret (VArr (set_nth i x l))
      | None => Unmodelled
      end
  | VBool _ | VNum _ | VStr _ => Ret v
  end.

(** Chains [v.a.b.c] and [v.a.b.c = x]. *)
Fixpoint get_path (v : jsval) (p : list string) : res jsval :=
  match p with
  | [] => Ret v
  | k :: r => w <- get v k ;; get_path w r
  end.

Fixpoint set_path (v : jsval) (p : list string) (x : jsval) : res jsval :=
  match p with
  | [] => Ret x
  | [k] => set v k x
  | k :: r =>
      w <- get v k ;;
      w' <- set_path w r x ;;
      set v k w'
  end.

Definition truthy (v : jsval) : bool :=
  match v with
  | VUndef | VNull => false
  | VBool b => b
  | VNum n => negb (n =? 0)%Z
  | VStr s => negb (String.eqb s "")
  | VArr _ | VObj _ => true
  end.

Definition isArray (v : jsval) : bool :=
  match v with VArr _ => true | _ => false end.

(* ------------------------------------------------------------------ *)
(** ** errorHandler: [err] *)

Definition msg401 : string :=
  "Received response 401 (Not Authorized). Check that your personal access token is correct and hasn't expired.".

Section ErrorHandler.
(** [JSON.parse]: [None] stands for the SyntaxError it raises. *)
Variable JSON_parse : string -> option jsval.

(** [err] has no normal completion: every path ends in a [throw]. *)
Definition err (obj : jsval) : res Empty_set :=
  errorAsObj <-
    match obj with
    | VStr s =>
        match JSON_parse s with
        | Some parsed => Ret parsed
        | None => Throw (Thrown obj)
        end
    | _ => Ret obj
    end ;;
  statusCode <- get errorAsObj "statusCode" ;;
  match statusCode with
  | VNum 401 => Throw (Thrown (VStr msg401))
  | _ =>
      errorBodyObj <- get errorAsObj "body" ;;
      errorBodyObj <-
        (if truthy errorBodyObj then
           match errorBodyObj with
           | VStr s =>
               match JSON_parse s with
               | Some parsed => Ret parsed
               | None => Throw (Thrown errorBodyObj)
               end
           | _ => Ret errorBodyObj
           end
         else Ret errorBodyObj) ;;
      message <- get errorBodyObj "message" ;;
      if truthy message then Throw (Thrown message)
      else Throw (Thrown errorBodyObj)
  end.
End ErrorHandler.

(* ------------------------------------------------------------------ *)
(** ** lodash 3: [_.merge]

    [_.merge(object, source, customizer)] as lodash 3 implements it
    ([createAssigner(baseMerge)], [baseMerge], [baseMergeDeep]), for
    sources that come out of [JSON.parse]: such a source is a tree without
    shared nodes, so the stacks lodash keeps against cyclic sources never
    match and are left out.  The destination is updated in place by
    lodash; here the updated destination is returned. *)

Definition inherited_names : list string :=
  ["__proto__"; "constructor"; "hasOwnProperty"; "isPrototypeOf";
   "propertyIsEnumerable"; "toLocaleString"; "toString"; "valueOf";
   "__defineGetter__"; "__defineSetter__"; "__lookupGetter__";
   "__lookupSetter__"].

Definition mem (k : string) (l : list string) : bool :=
  existsb (String.eqb k) l.

Definition isObjectLike (v : jsval) : bool :=
  match v with VArr _ | VObj _ => true | _ => false end.

(** [key in Object(object)]. *)
Definition has_key (object : jsval) (key : string) : bool :=
  match object with
  | VObj o => match lookup key o with Some _ => true | None => false end
  | VArr l =>
      match index_of_string key with
      | Some i => (i <? List.length l)%nat
      | None => String.eqb key "length"
      end
  | VStr s =>
      match index_of_string key with
      | Some i => (i <? String.length s)%nat
      | None => String.eqb key "length"
      end
  | _ => false
  end.

(** [isArrayLike] on a plain object: an own [length] that is a valid
    array length. *)
Definition array_like (o : props_t) : bool :=
  match lookup "length" o with
  | Some (VNum n) => (0 <=? n)%Z
  | _ => false
  end.

(** The customizer receives [(objectValue, sourceValue)]; [VUndef] is
    "no opinion". *)
Definition customizer := jsval -> jsval -> jsval.

Definition apply_customizer (c : option customizer) (objectValue sourceValue : jsval) : jsval :=
  match c with
  | Some f => f objectValue sourceValue
  | None => VUndef
  end.

(** One iteration of the loop of [baseMerge] for the property [key] of
    the source, whose value is [srcValue]; [mergeFunc] is the recursive
    call [baseMerge(_, srcValue, customizer)] on a destination.  The
    first branch is [baseMergeDeep]. *)
Definition mergeEntry (c : option customizer) (mergeFunc : jsval -> res jsval)
    (isSrcArr : bool) (key : string) (srcValue : jsval) (object : jsval) : res jsval :=
  value <- get object key ;;
  let result := apply_customizer c value srcValue in
  if isObjectLike srcValue then
    match result with
    | VUndef =>
        dest <-
          match srcValue with
          | VArr _ =>
              match value with
              | VArr _ => Ret value
              | VStr s => Ret (VArr (map VStr (chars s)))
              | VObj o => if array_like o then Unmodelled else Ret (VArr [])
              | _ => Ret (VArr [])
              end
          | _ =>
              match value with
              | VObj _ => Ret value
              | _ => Ret (VObj [])
              end
          end ;;
        merged <- mergeFunc dest ;;
        set object key merged
    | _ => set object key result
    end
  else
    match result with
    | VUndef =>
        match srcValue with
        | VUndef =>
            if isSrcArr && negb (has_key object key)
            then set object key VUndef else Ret object
        | _ => set object key srcValue
        end
    | _ => set object key result
    end.

(** lodash's [arrayEach]: the body is run on every element with its
    index, and here also with the destination it updates. *)
Section ArrayEach.
Context {A : Type}.
Variable body : A -> nat -> jsval -> res jsval.

Fixpoint arrayEach (l : list A) (index : nat) (object : jsval) : res jsval :=
  match l with
  | [] => Ret object
  | x :: r =>
      object' <- body x index object ;;
      arrayEach r (S index) object'
  end.
End ArrayEach.

(** [baseMerge(object, source, customizer)].  An array source is walked
    by index, any other source by its keys: the own properties of an
    object, the indices of a string; a number or a boolean has none. *)
Fixpoint baseMerge (c : option customizer) (source : jsval) (object : jsval)
    {struct source} : res jsval :=
  match object with
  | VArr _ | VObj _ =>
      match source with
      | VArr l =>
          arrayEach
            (fun srcValue index object =>
               mergeEntry c (baseMerge c srcValue) true
                 (string_of_nat index) srcValue object)
            l O object
      | VObj o =>
          arrayEach
            (fun (prop : string * jsval) _ object =>
               let (key, srcValue) := prop in
               if mem key inherited_names then Unmodelled
               else mergeEntry c (baseMerge c srcValue) false key srcValue object)
            o O object
      | VStr s =>
          arrayEach
            (fun ch index object =>
               mergeEntry c (fun dest => Ret dest) false
                 (string_of_nat index) (VStr ch) object)
            (chars s) O object
      | _ => Ret object
      end
  | _ => Ret object
  end.

(** [_.merge(object, source)] and [_.merge(object, source, customizer)]:
    a falsy source is skipped, a nullish destination is returned as is. *)
Definition lodash_merge (c : option customizer) (object source : jsval) : res jsval :=
  match object with
  | VUndef | VNull => Ret object
  | _ => if truthy source then baseMerge c source object else Ret object
  end.

(** [objectValue.concat(sourceValue)]: an array argument is spread. *)
Definition concat (objectValue : list jsval) (sourceValue : jsval) : jsval :=
  match sourceValue with
  | VArr l => VArr (objectValue ++ l)
  | _ => VArr (objectValue ++ [sourceValue])
  end.

(* ------------------------------------------------------------------ *)
(** ** [ToString] and [Array.prototype.join] *)

(** Numbers are printed in plain decimal notation, which is what the
    engine does for the numbers of the embedding (from 10^21 on it
    prints an exponent). *)
Fixpoint toString (v : jsval) : res string :=
  match v with
  | VUndef => Ret "undefined"
  | VNull => Ret "null"
  | VBool true => Ret "true"
  | VBool false => Ret "false"
  | VNum n => Ret (string_of_Z n)
  | VStr s => Ret s
  | VArr l =>
      (fix join (l : list jsval) : res string :=
         match l with
         | [] => Ret ""
         | x :: r =>
             a <- match x with
                  | VUndef | VNull => Ret ""
                  | _ => toString x
                  end ;;
             match r with
             | [] => Ret a
             | _ => b <- join r ;; Ret (a ++ "," ++ b)%string
             end
         end) l
  | VObj o =>
      match lookup "toString" o with
      | None => Ret "[object Object]"
      | Some _ => Throw TypeError
      end
  end.

(** [value.join(",")] on an array. *)
Definition join_commas (l : list jsval) : res string := toString (VArr l).

(* ------------------------------------------------------------------ *)
(** ** package.ts: [Merger] *)

Definition Identity_attrs : list string :=
  ["PackageManifest"; "Metadata"; "0"; "Identity"; "0"; "$"].
Definition Metadata_0 : list string :=
  ["PackageManifest"; "Metadata"; "0"].
Definition Assets_0_Asset : list string :=
  ["PackageManifest"; "Assets"; "0"; "Asset"].

(** The customizer of the [contributions] rule. *)
Definition concatArrays : customizer :=
  fun objectValue sourceValue =>
    match objectValue with
    | VArr l => concat l sourceValue
    | _ => VUndef
    end.

(** [if (_.isArray(value)) { value = value.join(",") }]. *)
Definition joinIfArray (value : jsval) : res jsval :=
  match value with
  | VArr l => s <- join_commas l ;; Ret (VStr s)
  | _ => Ret value
  end.

(** [if (!vsoManifest[field]) vsoManifest[field] = {}; _.merge(vsoManifest[field], value, customizer)]. *)
Definition mergeInto (field : string) (c : option customizer)
    (value vsoManifest : jsval) : res jsval :=
  current <- get vsoManifest field ;;
  '(vsoManifest, current) <-
    (if truthy current then Ret (vsoManifest, current)
     else vso' <- set vsoManifest field (VObj []) ;; Ret (vso', VObj [])) ;;
  merged <- lodash_merge c current value ;;
  set vsoManifest field merged.

(** [asset.path.replace(/\\/g, "/")]: only a string has [replace]. *)
Definition normalizedPath (asset : jsval) : res jsval :=
  p <- get asset "path" ;;
  match p with
  | VStr s => Ret (VStr (slashes s))
  | _ => Throw TypeError
  end.

(** The object pushed for one declared asset. *)
Definition assetEntry (asset : jsval) : res jsval :=
  ty <- get asset "type" ;;
  p <- normalizedPath asset ;;
  Ret (VObj [("$", VObj [("Type", ty); ("d:Source", VStr "File"); ("Path", p)])]).

(** [vsixManifest.PackageManifest.Assets[0].Asset.push(entry)]. *)
Definition pushAsset (entry vsixManifest : jsval) : res jsval :=
  list <- get_path vsixManifest Assets_0_Asset ;;
  match list with
  | VArr l => set_path vsixManifest Assets_0_Asset (VArr (l ++ [entry]))
  | VUndef | VNull => Throw TypeError
  | _ => Throw TypeError
  end.

Definition mergeKey (key : string) (value vsoManifest vsixManifest : jsval)
    : res (jsval * jsval) :=
  let k := toLowerCase key in
  if String.eqb k "namespace" then
    vso <- set vsoManifest "namespace" value ;;
    vsix <- set_path vsixManifest (Identity_attrs ++ ["Id"]) value ;;
    Ret (vso, vsix)
  else if String.eqb k "version" then
    vso <- set vsoManifest "version" value ;;
    vsix <- set_path vsixManifest (Identity_attrs ++ ["Version"]) value ;;
    Ret (vso, vsix)
  else if String.eqb k "name" then
    vso <- set vsoManifest "name" value ;;
    vsix <- set_path vsixManifest (Metadata_0 ++ ["DisplayName"; "0"]) value ;;
    Ret (vso, vsix)
  else if String.eqb k "description" then
    vso <- set vsoManifest "description" value ;;
    vsix <- set_path vsixManifest (Metadata_0 ++ ["Description"; "0"; "_"]) value ;;
    Ret (vso, vsix)
  else if String.eqb k "publisher" then
    vsix <- set_path vsixManifest (Identity_attrs ++ ["Publisher"]) value ;;
    Ret (vsoManifest, vsix)
  else if String.eqb k "releasenotes" then
    vsix <- set_path vsixManifest (Metadata_0 ++ ["ReleaseNotes"]) (VArr [value]) ;;
    Ret (vsoManifest, vsix)
  else if String.eqb k "tags" then
    value <- joinIfArray value ;;
    vsix <- set_path vsixManifest (Metadata_0 ++ ["Tags"]) (VArr [value]) ;;
    Ret (vsoManifest, vsix)
  else if String.eqb k "vsoflags" then
    value <- joinIfArray value ;;
    vsix <- set_path vsixManifest (Metadata_0 ++ ["VSOFlags"]) (VArr [value]) ;;
    Ret (vsoManifest, vsix)
  else if String.eqb k "categories" then
    value <- joinIfArray value ;;
    vsix <- set_path vsixManifest (Metadata_0 ++ ["Categories"]) (VArr [value]) ;;
    Ret (vsoManifest, vsix)
  else if String.eqb k "baseuri" then
    vso <- set vsoManifest "baseUri" value ;;
    Ret (vso, vsixManifest)
  else if String.eqb k "contributions" then
    vso <- mergeInto "contributions" (Some concatArrays) value vsoManifest ;;
    Ret (vso, vsixManifest)
  else if String.eqb k "contributionpoints" then
    vso <- mergeInto "contributionPoints" None value vsoManifest ;;
    Ret (vso, vsixManifest)
  else if String.eqb k "contributiontypes" then
    vso <- mergeInto "contributionTypes" None value vsoManifest ;;
    Ret (vso, vsixManifest)
  else if String.eqb k "assets" then
    match value with
    | VArr assets =>
        vsix <- set_path vsixManifest ["PackageManifest"; "Assets"]
                  (VArr [VObj [("Asset", VArr [])]]) ;;
        vsix <- forEach assets
                  (fun asset vsix => entry <- assetEntry asset ;; pushAsset entry vsix)
                  vsix ;;
        Ret (vsoManifest, vsix)
    | _ => Ret (vsoManifest, vsixManifest)
    end
  else Ret (vsoManifest, vsixManifest).

(** What the program writes on the console. *)
Inductive console_line : Type :=
| Log (text : string)
| Error (e : exn).

(** [Object.keys]: own enumerable property names.  On a primitive the
    answer depends on the edition of the language the engine implements
    (a TypeError before ES2015, the keys of the wrapper after). *)
Definition Object_keys (v : jsval) : res (list string) :=
  match v with
  | VObj o => Ret (map fst o)
  | VArr l => Ret (map string_of_nat (seq 0 (List.length l)))
  | VUndef | VNull => Throw TypeError
  | _ => Unmodelled
  end.

(** [Q.all]: fulfilled with all the values, or rejected with the first
    rejection.  The order of the list stands for the order in which the
    promises settle. *)
Fixpoint Q_all {A} (ps : list (res A)) : res (list A) :=
  match ps with
  | [] => Ret []
  | p :: r => a <- p ;; l <- Q_all r ;; Ret (a :: l)
  end.

Fixpoint mapM {A B} (f : A -> res B) (l : list A) : res (list B) :=
  match l with
  | [] => Ret []
  | x :: r => y <- f x ;; ys <- mapM f r ;; Ret (y :: ys)
  end.

Definition msg_asset_keys : string := "Assets must have a type and a path.".
Definition msg_asset_relative : string := "Paths in manifests must be relative.".

Section Merger.
(** The environment of [Merger.merge]: [JSON.parse] ([None] for its
    SyntaxError), [fs.readFile] ([None] for a failed read), node's
    [path] module, the merger's root, and the parsed template
    [src/tmpl/default_vsixmanifest.json], which is read from a file that
    is not among the sources at hand. *)
Variable JSON_parse : string -> option jsval.
Variable readFile : string -> option string.
Variable path_isAbsolute : string -> bool.
Variable path_dirname : string -> string.
Variable path_join : string -> string -> string.
Variable path_relative : string -> string -> string.
Variable root : string.
Variable default_vsixmanifest : jsval.

(** The promise pushed for one file: read, parse, tag with the origin;
    whatever is thrown inside the [try] is reported and thrown again. *)
Definition loadManifest (file : string) : list console_line * res jsval :=
  match readFile file with
  | None => ([], Throw SystemError)
  | Some data =>
      let attempt :=
        match JSON_parse data with
        | Some result => set result "__origin" (VStr file)
        | None => Throw SyntaxError
        end in
      match attempt with
      | Throw e =>
          ([Log ("Error parsing the JSON in " ++ file ++ ": "); Log data],
           Throw e)
      | _ => ([], attempt)
      end
  end.

(** The body of the loop over [partial["assets"]]; the asset is updated
    in place, here the updated asset is returned. *)
Definition resolveAsset (partial asset : jsval) : res jsval :=
  keys <- Object_keys asset ;;
  if negb (List.length keys =? 2)%nat || negb (mem "type" keys)
     || negb (mem "path" keys)
  then Throw (Thrown (VStr msg_asset_keys))
  else
    p <- get asset "path" ;;
    match p with
    | VStr p =>
        if path_isAbsolute p then Throw (Thrown (VStr msg_asset_relative))
        else
          origin <- get partial "__origin" ;;
          match origin with
          | VStr origin =>
              let absolutePath := path_join (path_dirname origin) p in
              set asset "path" (VStr (path_relative root absolutePath))
          | _ => Unmodelled
          end
    | _ => Unmodelled
    end.

Definition resolveAssets (partial : jsval) : res jsval :=
  assets <- get partial "assets" ;;
  match assets with
  | VArr l =>
      l' <- mapM (resolveAsset partial) l ;;
      set partial "assets" (VArr l')
  | _ => Ret partial
  end.

(** The body of [partials.forEach]. *)
Definition mergePartial (partial : jsval) (acc : jsval * jsval) : res (jsval * jsval) :=
  partial <- resolveAssets partial ;;
  keys <- Object_keys partial ;;
  forEach keys
    (fun key '(vsoManifest, vsixManifest) =>
       value <- get partial key ;;
       mergeKey key value vsoManifest vsixManifest)
    acc.

(** [merge()] once the glob search has produced [files].  The result is
    the console output and the settlement of the returned promise:
    [Ret v] for fulfilled with [v].  The final
    [.catch(console.error.bind(console))] turns every rejection into a
    line on the console and a promise fulfilled with [undefined].
    The lines of the console are gathered loader by loader, the error
    line after them.  The program writes the lines of a loader when the
    read of its file completes, and the error line once the first
    rejection has travelled down the chain, which may be before a later
    file has been read: the list tells which lines are written, not in
    which order lines of different origin appear. *)
Definition merge (files : list string) : list console_line * res jsval :=
  let loads := map loadManifest files in
  let outcome :=
    vsixManifest <- set default_vsixmanifest "__meta_root" (VStr root) ;;
    let vsoManifest := VObj [("__meta_root", VStr root)] in
    partials <- Q_all (map snd loads) ;;
    '(vso, vsix) <- forEach partials mergePartial (vsoManifest, vsixManifest) ;;
    Ret (VObj [("vsoManifest", vso); ("vsixManifest", vsix)]) in
  match outcome with
  | Throw e => (flat_map fst loads ++ [Error e], Ret VUndef)
  | _ => (flat_map fst loads, outcome)
  end.
End Merger.

(* ------------------------------------------------------------------ *)
(** ** lodash 3: [_.get], [_.set], [_.remove], [_.unique], [_.trimLeft],
       [_.omit]

    A path is given twice: as the string the program writes ([pathKey])
    and as the list of names lodash's [toPath] splits it into. *)

Fixpoint baseGet (object : jsval) (path : list string) : jsval :=
  match path with
  | [] => object
  | key :: rest =>
      match object with
      | VUndef | VNull => VUndef
      | _ =>
          match get object key with
          | Ret next => baseGet next rest
          | _ => VUndef
          end
      end
  end.

(** The path [_.get] and [_.set] follow: a property named like the whole
    path string takes precedence. *)
Definition resolved_path (object : jsval) (pathKey : string) (path : list string)
    : list string :=
  if has_key object pathKey then [pathKey] else path.

Definition lodash_get (object : jsval) (pathKey : string) (path : list string)
    (defaultValue : jsval) : jsval :=
  match object with
  | VUndef | VNull => defaultValue
  | _ =>
      match resolved_path object pathKey path with
      | [] => defaultValue
      | p =>
          match baseGet object p with
          | VUndef => defaultValue
          | result => result
          end
      end
  end.

Fixpoint all_digits (s : string) : bool :=
  match s with
  | EmptyString => true
  | String c r =>
      let n := nat_of_ascii c in
      ((48 <=? n) && (n <=? 57))%nat && all_digits r
  end.

(** lodash's [isIndex] on a path component. *)
Definition isIndex (s : string) : bool :=
  negb (String.eqb s "") && all_digits s.

(** The loop of [_.set]: missing containers are created on the way,
    nothing is written below a primitive. *)
Fixpoint set_walk (nested : jsval) (path : list string) (x : jsval) : res jsval :=
  match path with
  | [] => Ret nested
  | key :: rest =>
      match nested with
      | VObj _ | VArr _ =>
          match rest with
          | [] => set nested key x
          | next :: _ =>
              current <- get nested key ;;
              let child :=
                match current with
                | VUndef | VNull => if isIndex next then VArr [] else VObj []
                | _ => current
                end in
              child' <- set_walk child rest x ;;
              set nested key child'
          end
      | _ => Ret nested
      end
  end.

Definition lodash_set (object : jsval) (pathKey : string) (path : list string)
    (x : jsval) : res jsval :=
  match object with
  | VUndef | VNull => Ret object
  | _ => set_walk object (resolved_path object pathKey path) x
  end.

(** [_.remove(array, predicate)] on an array: the elements kept, in
    order; the predicate may throw. *)
Fixpoint lodash_remove (predicate : jsval -> res bool) (l : list jsval)
    : res (list jsval) :=
  match l with
  | [] => Ret []
  | x :: r =>
      b <- predicate x ;;
      kept <- lodash_remove predicate r ;;
      Ret (if b then kept else x :: kept)
  end.

(** [_.unique] on strings: first occurrences, in order. *)
Fixpoint unique_from (seen : list string) (l : list string) : list string :=
  match l with
  | [] => []
  | x :: r =>
      if mem x seen then unique_from seen r else x :: unique_from (x :: seen) r
  end.

Definition unique (l : list string) : list string := unique_from [] l.

(** lodash's [isSpace] on code units below 256. *)
Definition isSpace (c : ascii) : bool :=
  let n := nat_of_ascii c in
  (((9 <=? n) && (n <=? 13)) || (n =? 32) || (n =? 160))%nat.

(** [_.trimLeft(string)] without a [chars] argument trims white space. *)
Fixpoint trimLeft (s : string) : string :=
  match s with
  | EmptyString => EmptyString
  | String c r => if isSpace c then trimLeft r else s
  end.

Definition indexed (l : list jsval) : props_t :=
  combine (map string_of_nat (seq 0 (List.length l))) l.

(** [_.omit(obj, predicate)] with a predicate on the key: a new object
    with the enumerable properties the predicate rejects.  The copy is
    made by assignment, which a property named [__proto__] would turn
    into a change of prototype. *)
Definition omit_keys (predicate : string -> bool) (obj : jsval) : res jsval :=
  let pick (o : props_t) : res jsval :=
    if mem "__proto__" (map fst o) then Unmodelled
    else Ret (VObj (filter (fun kv => negb (predicate (fst kv))) o)) in
  match obj with
  | VUndef | VNull => Ret (VObj [])
  | VObj o => pick o
  | VArr l => pick (indexed l)
  | VStr s => pick (indexed (map VStr (chars s)))
  | VBool _ | VNum _ => Ret (VObj [])
  end.

(* ------------------------------------------------------------------ *)
(** ** package.ts: [VsixWriter] and [ManifestWriter] *)

Definition VSO_MANIFEST_FILENAME : string := "extension.vsomanifest".
Definition VSIX_MANIFEST_FILENAME : string := "extension.vsixmanifest".
Definition CONTENT_TYPES_FILENAME : string := "[Content_Types].xml".

Definition CONTENT_TYPE_MAP : list (string * string) :=
  [("txt", "text/plain");
   ("pkgdef", "text/plain");
   ("xml", "text/xml");
   ("vsixmanifest", "text/xml");
   ("vsomanifest", "application/json");
   ("json", "application/json");
   ("htm", "text/html");
   ("html", "text/html");
   ("rtf", "application/rtf");
   ("pdf", "application/pdf");
   ("gif", "image/gif");
   ("jpg", "image/jpg");
   ("jpeg", "image/jpg");
   ("tiff", "image/tiff");
   ("vsix", "application/zip");
   ("zip", "application/zip");
   ("dll", "application/octet-stream")].

Fixpoint assoc (k : string) (l : list (string * string)) : option string :=
  match l with
  | [] => None
  | (k', v) :: r => if String.eqb k k' then Some v else assoc k r
  end.

(** The predicate given to [_.remove]:
    [_.get(asset, "$.Type", "x").toLowerCase() === "microsoft.vso.manifest"];
    only a string has [toLowerCase]. *)
Definition isVsoManifestAsset (asset : jsval) : res bool :=
  match lodash_get asset "$.Type" ["$"; "Type"] (VStr "x") with
  | VStr t => Ret (String.eqb (toLowerCase t) "microsoft.vso.manifest")
  | _ => Throw TypeError
  end.

Definition manifestAsset : jsval :=
  VObj [("$", VObj [("Type", VStr "Microsoft.VSO.Manifest");
                    ("Path", VStr VSO_MANIFEST_FILENAME)])].

(** [prepManifests] updates [this.vsixManifest] in place; here the
    updated manifest is returned.  In the first branch [assets] is the
    array found inside the manifest, so [_.remove] and [push] change the
    manifest at the place [_.get] read from.  In the second branch the
    fresh array is stored by [_.set] before the entry is pushed onto it. *)
Definition prepManifests (vsixManifest : jsval) : res jsval :=
  let pathKey := "PackageManifest.Assets[0].Asset" in
  let assets := lodash_get vsixManifest pathKey Assets_0_Asset VUndef in
  if truthy assets then
    match assets with
    | VArr l =>
        kept <- lodash_remove isVsoManifestAsset l ;;
        set_path vsixManifest (resolved_path vsixManifest pathKey Assets_0_Asset)
          (VArr (kept ++ [manifestAsset]))
    | _ => Throw TypeError
    end
  else
    lodash_set vsixManifest "PackageManifest.Assets[0].Asset[0]"
      (Assets_0_Asset ++ ["0"]) (VArr [manifestAsset]).

Section ContentTypes.
(** [path.extname] of node's [path] module. *)
Variable path_extname : string -> string.

(** [VsixWriter.CONTENT_TYPE_MAP[ext]], replaced by the octet-stream
    type when falsy.  The table is an object literal, so a name that
    [Object.prototype] defines would read an inherited member. *)
Definition contentType (ext : string) : res string :=
  if mem ext inherited_names then Unmodelled
  else
    match assoc ext CONTENT_TYPE_MAP with
    | Some type => Ret type
    | None => Ret "application/octet-stream"
    end.

Definition uniqueExtensions (fileNames : list string) : list string :=
  unique (map (fun f => trimLeft (path_extname f)) fileNames).

(** The [Default] entries of the object that [genContentTypesXml]
    hands to the XML builder, as pairs [(Extension, ContentType)]. *)
Definition contentTypeDefaults (fileNames : list string)
    : res (list (string * string)) :=
  mapM (fun ext => type <- contentType ext ;; Ret (ext, type))
    (uniqueExtensions fileNames).

(** The object [genContentTypesXml] builds; the returned text is its
    rendering by xml2js. *)
Definition genContentTypesXml (fileNames : list string) : res jsval :=
  defaults <- contentTypeDefaults fileNames ;;
  Ret (VObj
    [("Types", VObj
       [("$", VObj [("xmlns", VStr "http://schemas.openxmlformats.org/package/2006/content-types")]);
        ("Default", VArr
           (map (fun '(ext, type) =>
                   VObj [("$", VObj [("Extension", VStr ext);
                                     ("ContentType", VStr type)])])
                defaults))])]).
End ContentTypes.

(** [path.posix.extname]: the part of the last segment of the path from
    its last dot on; empty when that segment has no dot, starts with its
    only dot, or is [..].  Trailing slashes are not part of the segment. *)
Fixpoint drop_slashes (rev_path : list ascii) : list ascii :=
  match rev_path with
  | "/"%char :: r => drop_slashes r
  | _ => rev_path
  end.

Fixpoint take_segment (rev_path : list ascii) : list ascii :=
  match rev_path with
  | [] => []
  | c :: r => if Ascii.eqb c "/"%char then [] else c :: take_segment r
  end.

(** Splits the reversed segment at its first dot: the reversed extension
    (dot included) and what precedes the dot in the segment. *)
Fixpoint split_ext (rev_seg : list ascii) (acc : list ascii)
    : option (list ascii * list ascii) :=
  match rev_seg with
  | [] => None
  | c :: r =>
      if Ascii.eqb c "."%char then Some (acc ++ [c], r)
      else split_ext r (acc ++ [c])
  end.

Definition posix_extname (path : string) : string :=
  let seg := take_segment (drop_slashes (rev (list_ascii_of_string path))) in
  match split_ext seg [] with
  | Some (rev_ext, before) =>
      match before with
      | [] => ""
      | _ =>
          if String.eqb (string_of_list_ascii (rev seg)) ".." then ""
          else string_of_list_ascii (rev rev_ext)
      end
  | None => ""
  end.

(** [ManifestWriter.removeMetaKeys]. *)
Definition removeMetaKeys (obj : jsval) : res jsval :=
  omit_keys (fun k => String.prefix "__meta_" k) obj.

(** The constructor of [ManifestWriter]: the two documents that
    [writeManifests] hands to [JSON.stringify] and to the XML builder. *)
Definition ManifestWriter_new (vsoManifest vsixManifest : jsval)
    : res (jsval * jsval) :=
  vso <- removeMetaKeys vsoManifest ;;
  vsix <- removeMetaKeys vsixManifest ;;
  Ret (vso, vsix).

(* ------------------------------------------------------------------ *)
(** ** A reference instance of the environment

    The theorems below hold for every [JSON.parse], file system and
    [path] module.  To run the program on concrete manifests the
    following instances are used: a parser for the fragment of JSON whose
    numbers are integer literals and whose strings use no [\u] escape
    (a text outside the fragment is rejected, which is where the parser
    departs from [JSON.parse]), and the POSIX flavour of the [path]
    functions on the paths that occur in the examples. *)

Definition is_ws (c : ascii) : bool :=
  let n := nat_of_ascii c in
  ((n =? 32) || (n =? 9) || (n =? 10) || (n =? 13))%nat.

Fixpoint skip_ws (s : list ascii) : list ascii :=
  match s with
  | c :: r => if is_ws c then skip_ws r else s
  | [] => []
  end.

Definition is_digit (c : ascii) : bool :=
  let n := nat_of_ascii c in ((48 <=? n) && (n <=? 57))%nat.

Definition digit_val (c : ascii) : Z := Z.of_nat (nat_of_ascii c - 48).

(** The characters of a string literal after its opening quote. *)
Fixpoint parse_chars (s : list ascii) : option (string * list ascii) :=
  match s with
  | [] => None
  | c :: r =>
      if Ascii.eqb c "034"%char then Some (EmptyString, r)
      else if Ascii.eqb c backslash then
        match r with
        | e :: r' =>
            let unescaped :=
              if Ascii.eqb e "034"%char then Some e
              else if Ascii.eqb e backslash then Some e
              else if Ascii.eqb e "/"%char then Some e
              else if Ascii.eqb e "n"%char then Some "010"%char
              else if Ascii.eqb e "t"%char then Some "009"%char
              else if Ascii.eqb e "r"%char then Some "013"%char
              else if Ascii.eqb e "b"%char then Some "008"%char
              else if Ascii.eqb e "f"%char then Some "012"%char
              else None in
            match unescaped, parse_chars r' with
            | Some u, Some (str, rest) => Some (String u str, rest)
            | _, _ => None
            end
        | [] => None
        end
      else if (nat_of_ascii c <? 32)%nat then None
      else
        match parse_chars r with
        | Some (str, rest) => Some (String c str, rest)
        | None => None
        end
  end.

Fixpoint parse_digits (s : list ascii) (acc : Z) : Z * list ascii :=
  match s with
  | c :: r => if is_digit c then parse_digits r (10 * acc + digit_val c) else (acc, s)
  | [] => (acc, [])
  end.

(** An integer literal: no leading zero, no fraction, no exponent. *)
Definition parse_int (s : list ascii) : option (Z * list ascii) :=
  let '(neg, s) :=
    match s with
    | "-"%char :: r => (true, r)
    | _ => (false, s)
    end in
  match s with
  | c :: r =>
      if is_digit c then
        let '(n, rest) :=
          if Ascii.eqb c "0"%char then (0%Z, r) else parse_digits s 0 in
        match rest with
        | d :: _ =>
            if is_digit d || Ascii.eqb d "."%char || Ascii.eqb d "e"%char
               || Ascii.eqb d "E"%char
            then None else Some (if neg then (- n)%Z else n, rest)
        | [] => Some (if neg then (- n)%Z else n, rest)
        end
      else None
  | [] => None
  end.

(** [item (, item)* close], positioned at the first item. *)
Fixpoint parse_items {A} (fuel : nat) (item : list ascii -> option (A * list ascii))
    (close : ascii) (s : list ascii) : option (list A * list ascii) :=
  match fuel with
  | O => None
  | S fuel =>
      match item (skip_ws s) with
      | Some (a, r) =>
          match skip_ws r with
          | c :: r' =>
              if Ascii.eqb c ","%char then
                match parse_items fuel item close r' with
                | Some (l, rest) => Some (a :: l, rest)
                | None => None
                end
              else if Ascii.eqb c close then Some ([a], r')
              else None
          | [] => None
          end
      | None => None
      end
  end.

Definition starts_with (lit : string) (s : list ascii) : option (list ascii) :=
  let l := list_ascii_of_string lit in
  if list_eq_dec ascii_dec (firstn (List.length l) s) l
  then Some (skipn (List.length l) s) else None.

Fixpoint parse_value (fuel : nat) (s : list ascii) : option (jsval * list ascii) :=
  match fuel with
  | O => None
  | S fuel =>
      match skip_ws s with
      | [] => None
      | c :: r =>
          if Ascii.eqb c "{"%char then
            match skip_ws r with
            | "}"%char :: rest => Some (VObj [], rest)
            | _ =>
                let member (s : list ascii) :=
                  match s with
                  | q :: s1 =>
                      if Ascii.eqb q "034"%char then
                        match parse_chars s1 with
                        | Some (k, s2) =>
                            match skip_ws s2 with
                            | ":"%char :: s3 =>
                                match parse_value fuel s3 with
                                | Some (v, s4) => Some ((k, v), s4)
                                | None => None
                                end
                            | _ => None
                            end
                        | None => None
                        end
                      else None
                  | [] => None
                  end in
                match parse_items (List.length r) member "}"%char r with
                | Some (members, rest) =>
                    Some (VObj (fold_left (fun o kv => upsert (fst kv) (snd kv) o) members []), rest)
                | None => None
                end
            end
          else if Ascii.eqb c "["%char then
            match skip_ws r with
            | "]"%char :: rest => Some (VArr [], rest)
            | _ =>
                match parse_items (List.length r) (parse_value fuel) "]"%char r with
                | Some (elems, rest) => Some (VArr elems, rest)
                | None => None
                end
            end
          else if Ascii.eqb c "034"%char then
            match parse_chars r with
            | Some (str, rest) => Some (VStr str, rest)
            | None => None
            end
          else
            match starts_with "true" (c :: r), starts_with "false" (c :: r),
                  starts_with "null" (c :: r) with
            | Some rest, _, _ => Some (VBool true, rest)
            | _, Some rest, _ => Some (VBool false, rest)
            | _, _, Some rest => Some (VNull, rest)
            | _, _, _ =>
                match parse_int (c :: r) with
                | Some (n, rest) => Some (VNum n, rest)
                | None => None
                end
            end
      end
  end.

(** A reference [JSON.parse].  An integer literal is read exactly; the
    engine rounds a literal that no double holds to the nearest double,
    and such texts are outside the embedding. *)
Definition parse_json (text : string) : option jsval :=
  let s := list_ascii_of_string text in
  match parse_value (S (List.length s)) s with
  | Some (v, rest) =>
      match skip_ws rest with
      | [] => Some v
      | _ => None
      end
  | None => None
  end.

(** [s.split("/")]. *)
Fixpoint split_slash (s : string) : list string :=
  match s with
  | EmptyString => [EmptyString]
  | String c r =>
      if Ascii.eqb c "/"%char then EmptyString :: split_slash r
      else
        match split_slash r with
        | seg :: segs => String c seg :: segs
        | [] => [String c EmptyString]
        end
  end.

Fixpoint join_slash (segs : list string) : string :=
  match segs with
  | [] => ""
  | [seg] => seg
  | seg :: r => (seg ++ "/" ++ join_slash r)%string
  end.

(** node's [normalizeArray]: [.] and empty segments go, [..] cancels the
    segment before it; [stack] is kept reversed. *)
Fixpoint normalize_segments (allowAboveRoot : bool) (stack segs : list string)
    : list string :=
  match segs with
  | [] => rev stack
  | seg :: r =>
      if String.eqb seg "" || String.eqb seg "." then
        normalize_segments allowAboveRoot stack r
      else if String.eqb seg ".." then
        match stack with
        | top :: below =>
            if String.eqb top ".." then
              normalize_segments allowAboveRoot (seg :: stack) r
            else normalize_segments allowAboveRoot below r
        | [] =>
            normalize_segments allowAboveRoot
              (if allowAboveRoot then [seg] else []) r
        end
      else normalize_segments allowAboveRoot (seg :: stack) r
  end.

Definition posix_isAbsolute (p : string) : bool := String.prefix "/" p.

Definition ends_with_slash (p : string) : bool :=
  match rev (list_ascii_of_string p) with
  | c :: _ => Ascii.eqb c "/"%char
  | [] => false
  end.

Definition posix_normalize (p : string) : string :=
  let isAbsolute := posix_isAbsolute p in
  let body := join_slash (normalize_segments (negb isAbsolute) [] (split_slash p)) in
  let body := if String.eqb body "" && negb isAbsolute then "." else body in
  let body := if negb (String.eqb body "") && ends_with_slash p
              then (body ++ "/")%string else body in
  ((if isAbsolute then "/" else "") ++ body)%string.

(** [path.posix.join] of two non-empty strings. *)
Definition posix_join (a b : string) : string :=
  posix_normalize (a ++ "/" ++ b).

Definition posix_dirname (p : string) : string :=
  let cs := rev (list_ascii_of_string p) in
  let rest := skipn (List.length (take_segment (drop_slashes cs))) (drop_slashes cs) in
  match rest with
  | [] => if posix_isAbsolute p then "/" else "."
  | [_] => if posix_isAbsolute p then "/" else string_of_list_ascii (rev (tl rest))
  | _ :: dir => string_of_list_ascii (rev dir)
  end.

Fixpoint drop_common (fromParts toParts : list string) : list string * list string :=
  match fromParts, toParts with
  | f :: fr, t :: tr =>
      if String.eqb f t then drop_common fr tr else (fromParts, toParts)
  | _, _ => (fromParts, toParts)
  end.

(** [path.posix.relative] of two absolute paths (a relative argument
    would first be resolved against the working directory of the
    process). *)
Definition posix_relative (from to : string) : string :=
  let parts p := normalize_segments false [] (split_slash p) in
  let '(fromRest, toRest) := drop_common (parts from) (parts to) in
  join_slash (map (fun _ => "..") fromRest ++ toRest).

(* ------------------------------------------------------------------ *)
(** ** Concrete inputs used in the examples *)

(** The text [{"message":"X"}]. *)
Definition message_X_text : string :=
  "{" ++ dquote ++ "message" ++ dquote ++ ":" ++ dquote ++ "X" ++ dquote ++ "}".

(** A response with status 500 and an empty body, and one without body. *)
Definition empty_body_response : props_t :=
  [("statusCode", VNum 500); ("body", VStr "")].
Definition no_body_response : props_t :=
  [("statusCode", VNum 500)].

(* ------------------------------------------------------------------ *)
(** ** Vocabulary of the statements *)

Definition is_container (v : jsval) : bool :=
  match v with VObj _ | VArr _ => true | _ => false end.

(** Two property paths part ways before either ends. *)
Fixpoint diverge (p q : list string) : bool :=
  match p, q with
  | k1 :: r1, k2 :: r2 => if String.eqb k1 k2 then diverge r1 r2 else true
  | _, _ => false
  end.

Definition is_object (v : jsval) : bool :=
  match v with VObj _ => true | _ => false end.

(** The value reached by [p] exists and is of the given kind. *)
Definition reaches (kind : jsval -> bool) (v : jsval) (p : list string) : bool :=
  match get_path v p with
  | Ret c => kind c
  | _ => false
  end.

(** The part of the package-manifest schema that the merge rules write
    through: [Metadata[0].Identity[0].$] is an object, [DisplayName] an
    array, [Description[0]] an object. *)
Definition package_shape (vsixManifest : jsval) : bool :=
  reaches is_object vsixManifest Identity_attrs
  && reaches isArray vsixManifest (Metadata_0 ++ ["DisplayName"])
  && reaches is_object vsixManifest (Metadata_0 ++ ["Description"; "0"]).

(** The template of the package manifest.
    Modelled from the spec: the file [src/tmpl/default_vsixmanifest.json]
    is not among the sources; the specification describes it as an
    XML-shaped JSON object with a top-level [PackageManifest.Metadata[0]]
    node holding [Identity] (with [Id], [Version], [Publisher]
    attributes), [DisplayName], [Description], [ReleaseNotes], [Tags],
    [VSOFlags], [Categories], and a top-level
    [PackageManifest.Assets[0].Asset] list. *)
Definition template_vsixmanifest : jsval :=
  VObj
    [("PackageManifest", VObj
       [("Metadata", VArr
          [VObj
             [("Identity", VArr [VObj [("$", VObj [])]]);
              ("DisplayName", VArr [VNull]);
              ("Description", VArr [VObj []]);
              ("ReleaseNotes", VArr [VNull]);
              ("Tags", VArr [VNull]);
              ("VSOFlags", VArr [VNull]);
              ("Categories", VArr [VNull])]]);
        ("Assets", VArr [VObj [("Asset", VArr [])]])])].

(** [v[k]] where the read cannot fail. *)
Definition prop (v : jsval) (k : string) : jsval :=
  match get v k with
  | Ret w => w
  | _ => VUndef
  end.

(** The pieces of a text between the occurrences of a separator. *)
Fixpoint split_on (sep : ascii) (s : string) : list string :=
  match s with
  | EmptyString => [EmptyString]
  | String c r =>
      if Ascii.eqb c sep then EmptyString :: split_on sep r
      else
        match split_on sep r with
        | piece :: pieces => String c piece :: pieces
        | [] => [String c EmptyString]
        end
  end.

(** A path with every backslash normalized to a forward slash, said
    without the replacement: the pieces between the backslashes, put
    together again with [/] between them. *)
Definition forward_slashes (p : string) : string :=
  String.concat "/" (split_on backslash p).

(** The asset entry the [assets] rule is expected to produce for one
    declared asset. *)
Definition entry_of (asset : jsval) : jsval :=
  VObj [("$", VObj [("Type", prop asset "type");
                    ("d:Source", VStr "File");
                    ("Path", match prop asset "path" with
                             | VStr p => VStr (forward_slashes p)
                             | other => other
                             end)])].


(** Two declared assets, the second with a Windows-style path. *)
Definition two_assets : list jsval :=
  [VObj [("type", VStr "Microsoft.VSO.LargeIcon"); ("path", VStr "img/logo.png")];
   VObj [("type", VStr "Microsoft.VSO.Hub");
         ("path", VStr (String "s" (String "r" (String "c" (String backslash "hub.html")))))]].


(** [_.get(vsixManifest, "PackageManifest.Assets[0].Asset")]. *)
Definition asset_list (vsixManifest : jsval) : jsval :=
  lodash_get vsixManifest "PackageManifest.Assets[0].Asset" Assets_0_Asset VUndef.

(** The place [_.get] reads the asset list from. *)
Definition asset_place (vsixManifest : jsval) : list string :=
  resolved_path vsixManifest "PackageManifest.Assets[0].Asset" Assets_0_Asset.

(** An asset entry whose [$.Type], when there is one, is a string. *)
Definition typed_entry (asset : jsval) : bool :=
  match isVsoManifestAsset asset with
  | Ret _ => true
  | _ => false
  end.

(** The entry is removed by [prepManifests]: its type is the reserved
    one, whatever the case of the letters. *)
Definition is_manifest_entry (asset : jsval) : bool :=
  match isVsoManifestAsset asset with
  | Ret b => b
  | _ => false
  end.

(** The entry carries the reserved type [Microsoft.VSO.Manifest]. *)
Definition reserved_type (asset : jsval) : bool :=
  match lodash_get asset "$.Type" ["$"; "Type"] (VStr "x") with
  | VStr t => String.eqb t "Microsoft.VSO.Manifest"
  | _ => false
  end.

(** A package manifest that already lists two entries of the reserved
    type, in different cases, and one file asset. *)
Definition vsix_with_stale_entries : jsval :=
  VObj
    [("PackageManifest", VObj
       [("Assets", VArr
          [VObj
             [("Asset", VArr
                [VObj [("$", VObj [("Type", VStr "microsoft.vso.manifest");
                                   ("Path", VStr "old.vsomanifest")])];
                 VObj [("$", VObj [("Type", VStr "Microsoft.VSO.LargeIcon");
                                   ("d:Source", VStr "File");
                                   ("Path", VStr "img/logo.png")])];
                 manifestAsset])]])])].

(** [keys] are exactly [type] and [path], in either order. *)
Definition declares_type_and_path (keys : list string) : bool :=
  (List.length keys =? 2)%nat && mem "type" keys && mem "path" keys.

(** The pair [{vsoManifest, vsixManifest}] that [merge] resolves to. *)
Definition SplitManifest (vsoManifest vsixManifest : jsval) : jsval :=
  VObj [("vsoManifest", vsoManifest); ("vsixManifest", vsixManifest)].

(** A file system with one well-formed manifest and one broken one. *)
Definition name_text : string :=
  "{" ++ dquote ++ "name" ++ dquote ++ ":" ++ dquote ++ "N" ++ dquote ++ "}".

Definition sample_files (file : string) : option string :=
  if String.eqb file "/r/manifests/a.json" then Some name_text
  else if String.eqb file "/r/manifests/broken.json" then Some "{ oops"
  else None.

Definition sample_merge (template : jsval) (readFile : string -> option string)
    (files : list string) : list console_line * res jsval :=
  merge parse_json readFile posix_isAbsolute posix_dirname posix_join
    posix_relative "/r" template files.

(** Asset declarations that the path resolver rejects. *)
Definition absolute_with_extra_key : jsval :=
  VObj [("type", VStr "t"); ("path", VStr "/etc/passwd"); ("comment", VStr "x")].
Definition absolute_asset : jsval :=
  VObj [("type", VStr "t"); ("path", VStr "/etc/passwd")].
Definition pathless_asset : jsval :=
  VObj [("type", VStr "t")].
Definition partial_at (origin : string) (assets : list jsval) : jsval :=
  VObj [("assets", VArr assets); ("__origin", VStr origin)].

(** A manifest that declares one asset by an absolute path:
    [{"assets":[{"type":"t","path":"/etc/passwd"}]}]. *)
Definition absolute_asset_text : string :=
  "{" ++ dquote ++ "assets" ++ dquote ++ ":[{" ++ dquote ++ "type" ++ dquote ++ ":"
      ++ dquote ++ "t" ++ dquote ++ "," ++ dquote ++ "path" ++ dquote ++ ":"
      ++ dquote ++ "/etc/passwd" ++ dquote ++ "}]}".

Definition files_with_absolute_asset (file : string) : option string :=
  if String.eqb file "/r/manifests/a.json" then Some name_text
  else if String.eqb file "/r/manifests/b.json" then Some absolute_asset_text
  else None.

(** The names [mergeKey] dispatches on, in lower case. *)
Definition recognized_keys : list string :=
  ["namespace"; "version"; "name"; "description"; "publisher"; "releasenotes";
   "tags"; "vsoflags"; "categories"; "baseuri"; "contributions";
   "contributionpoints"; "contributiontypes"; "assets"].

(** The fields of the service manifest. *)
Definition service_fields : list string :=
  ["namespace"; "version"; "name"; "description"; "baseUri"; "contributions";
   "contributionPoints"; "contributionTypes"].

(** Own property names of an object. *)
Definition keys_of (v : jsval) : list string :=
  match v with
  | VObj o => map fst o
  | _ => []
  end.

(** [v'] is an object like [v], with at most the [allowed] names added
    at top level. *)
Definition grows_within (allowed : list string) (v v' : jsval) : Prop :=
  is_object v = true -> 
  is_object v' = true
  /\ forall k, In k (keys_of v') -> In k (keys_of v) \/ In k allowed.

(* ------------------------------------------------------------------ *)
(** ** The overwrite rules, as the specification lists them

    Each rule names the field it is declared by (in lower case, the way
    the dispatch compares it), the document and the place it writes, and
    what it stores there for a declared value.  The table is what the
    specification says about the overwrite fields; the theorems compare
    it with [mergeKey]. *)

Inductive document : Type := Service | Package.

Record rule : Type := {
  field : string;
  target : document;
  place : list string;
  stored : jsval -> res jsval
}.

Definition verbatim (value : jsval) : res jsval := Ret value.
Definition boxed (value : jsval) : res jsval := Ret (VArr [value]).
Definition joined (value : jsval) : res jsval :=
  value <- joinIfArray value ;; Ret (VArr [value]).
Definition asset_entries (value : jsval) : res jsval :=
  match value with
  | VArr assets => entries <- mapM assetEntry assets ;; Ret (VArr entries)
  | _ => Ret value
  end.

Definition overwrite_rules : list rule :=
  [ {| field := "namespace"; target := Service; place := ["namespace"]; stored := verbatim |};
    {| field := "namespace"; target := Package; place := Identity_attrs ++ ["Id"]; stored := verbatim |};
    {| field := "version"; target := Service; place := ["version"]; stored := verbatim |};
    {| field := "version"; target := Package; place := Identity_attrs ++ ["Version"]; stored := verbatim |};
    {| field := "name"; target := Service; place := ["name"]; stored := verbatim |};
    {| field := "name"; target := Package; place := Metadata_0 ++ ["DisplayName"; "0"]; stored := verbatim |};
    {| field := "description"; target := Service; place := ["description"]; stored := verbatim |};
    {| field := "description"; target := Package; place := Metadata_0 ++ ["Description"; "0"; "_"]; stored := verbatim |};
    {| field := "publisher"; target := Package; place := Identity_attrs ++ ["Publisher"]; stored := verbatim |};
    {| field := "releasenotes"; target := Package; place := Metadata_0 ++ ["ReleaseNotes"]; stored := boxed |};
    {| field := "tags"; target := Package; place := Metadata_0 ++ ["Tags"]; stored := joined |};
    {| field := "vsoflags"; target := Package; place := Metadata_0 ++ ["VSOFlags"]; stored := joined |};
    {| field := "categories"; target := Package; place := Metadata_0 ++ ["Categories"]; stored := joined |};
    {| field := "baseuri"; target := Service; place := ["baseUri"]; stored := verbatim |};
    {| field := "assets"; target := Package; place := Assets_0_Asset; stored := asset_entries |} ].

(** Only an array contributes to the [assets] rule. *)
Definition contributes (r : rule) (value : jsval) : bool :=
  if String.eqb (field r) "assets" then isArray value else true.

Definition pick (d : document) (vsoManifest vsixManifest : jsval) : jsval :=
  match d with
  | Service => vsoManifest
  | Package => vsixManifest
  end.

(** The keys of a partial manifest with their values, in the order in
    which [mergePartial] hands them to [mergeKey]. *)
Definition declarations (partial : jsval) : list (string * jsval) :=
  match Object_keys partial with
  | Ret keys => map (fun key => (key, prop partial key)) keys
  | _ => []
  end.

Definition declares (r : rule) (declaration : string * jsval) : bool :=
  String.eqb (toLowerCase (fst declaration)) (field r)
  && contributes r (snd declaration).

(** The value of the last declaration that the rule [r] takes up. *)
Definition last_declared (r : rule) (decls : list (string * jsval)) : option jsval :=
  fold_left (fun found d => if declares r d then Some (snd d) else found) decls None.

(** [mergeKey] over a list of declarations. *)
Definition mergeKeys (decls : list (string * jsval)) (acc : jsval * jsval)
    : res (jsval * jsval) :=
  forEach decls
    (fun d '(vsoManifest, vsixManifest) =>
       mergeKey (fst d) (snd d) vsoManifest vsixManifest)
    acc.

(** The places below which the branch of [mergeKey] for the (lower-case)
    key writes; [array] tells whether the value is an array. *)
Definition writes_of (key : string) (array : bool) : list (document * list string) :=
  if String.eqb key "namespace" then
    [(Service, ["namespace"]); (Package, Identity_attrs ++ ["Id"])]
  else if String.eqb key "version" then
    [(Service, ["version"]); (Package, Identity_attrs ++ ["Version"])]
  else if String.eqb key "name" then
    [(Service, ["name"]); (Package, Metadata_0 ++ ["DisplayName"; "0"])]
  else if String.eqb key "description" then
    [(Service, ["description"]); (Package, Metadata_0 ++ ["Description"; "0"; "_"])]
  else if String.eqb key "publisher" then [(Package, Identity_attrs ++ ["Publisher"])]
  else if String.eqb key "releasenotes" then [(Package, Metadata_0 ++ ["ReleaseNotes"])]
  else if String.eqb key "tags" then [(Package, Metadata_0 ++ ["Tags"])]
  else if String.eqb key "vsoflags" then [(Package, Metadata_0 ++ ["VSOFlags"])]
  else if String.eqb key "categories" then [(Package, Metadata_0 ++ ["Categories"])]
  else if String.eqb key "baseuri" then [(Service, ["baseUri"])]
  else if String.eqb key "contributions" then [(Service, ["contributions"])]
  else if String.eqb key "contributionpoints" then [(Service, ["contributionPoints"])]
  else if String.eqb key "contributiontypes" then [(Service, ["contributionTypes"])]
  else if String.eqb key "assets" then
    if array then [(Package, ["PackageManifest"; "Assets"])] else []
  else [].

Definition same_document (a b : document) : bool :=
  match a, b with
  | Service, Service | Package, Package => true
  | _, _ => false
  end.

(** The place [q] of the document [d] is out of reach of the writes. *)
Definition untouched (writes : list (document * list string)) (d : document)
    (q : list string) : bool :=
  forallb (fun w => negb (same_document (fst w) d) || diverge (snd w) q) writes.

(** Three partial manifests, already resolved; the last one declares
    [assets] with a value that is not an array. *)
Definition three_partials : list jsval :=
  [VObj [("name", VStr "first"); ("tags", VArr [VStr "a"; VStr "b"]);
         ("assets", VArr two_assets)];
   VObj [("Name", VStr "second"); ("publisher", VStr "me")];
   VObj [("tags", VStr "c"); ("assets", VStr "none")]].

(** The value of the last declaration of a field, whatever its value. *)
Definition last_declaration_of (field_name : string) (decls : list (string * jsval))
    : option jsval :=
  fold_left
    (fun found d =>
       if String.eqb (toLowerCase (fst d)) field_name then Some (snd d) else found)
    decls None.


Definition sample_mergePartial : jsval -> jsval * jsval -> res (jsval * jsval) :=
  mergePartial posix_isAbsolute posix_dirname posix_join posix_relative "/r".

Definition sample_resolveAssets : jsval -> res jsval :=
  resolveAssets posix_isAbsolute posix_dirname posix_join posix_relative "/r".

Definition initial_accumulators : jsval * jsval :=
  (VObj [("__meta_root", VStr "/r")],
   VObj (upsert "__meta_root" (VStr "/r") (match template_vsixmanifest with
                                           | VObj t => t
                                           | _ => []
                                           end))).




Definition assets_rule : rule :=
  {| field := "assets"; target := Package; place := Assets_0_Asset;
     stored := asset_entries |}.

(* ------------------------------------------------------------------ *)
(** ** The values [_.merge] is modelled on *)

(** A property name that no object inherits and that does not make an
    object look like an array. *)
Definition ordinary_key (k : string) : bool :=
  negb (mem k inherited_names) && negb (String.eqb k "length").

Fixpoint distinct (l : list string) : bool :=
  match l with
  | [] => true
  | x :: r => negb (mem x r) && distinct r
  end.

(** A value as [JSON.parse] delivers it, inside the embedding: no
    [undefined], and objects with pairwise distinct, ordinary keys. *)
Fixpoint plain (v : jsval) : bool :=
  match v with
  | VUndef => false
  | VNull | VBool _ | VNum _ | VStr _ => true
  | VArr l => forallb plain l
  | VObj o =>
      distinct (map fst o)
      && forallb (fun kv => ordinary_key (fst kv) && plain (snd kv)) o
  end.

(** A primitive JSON value. *)
Definition primitive (v : jsval) : bool :=
  match v with
  | VNull | VBool _ | VNum _ | VStr _ => true
  | _ => false
  end.

(** The source may be merged into the destination: an object source is
    not merged into an array. *)
Definition fits (source object : jsval) : bool :=
  match source, object with
  | VObj _, VArr _ => false
  | _, _ => true
  end.

(** A customizer returns [undefined] or a plain value. *)
Definition customizer_ok (c : option customizer) : Prop :=
  forall objectValue sourceValue,
    objectValue = VUndef \/ plain objectValue = true ->
    plain sourceValue = true ->
    apply_customizer c objectValue sourceValue = VUndef
    \/ plain (apply_customizer c objectValue sourceValue) = true.

(** The destination can take the key: an object takes an ordinary name,
    an array the index of one of its elements or the next one. *)
Definition takes (object : jsval) (key : string) : Prop :=
  match object with
  | VObj _ => ordinary_key key = true
  | VArr l => exists i, key = string_of_nat i /\ i <= List.length l
  | _ => False
  end.

Definition same_kind (a b : jsval) : Prop :=
  is_object a = is_object b /\ isArray a = isArray b.

(** What [mergeFunc] must do for [mergeEntry] to go through: merge the
    source value into a fitting plain destination. *)
Definition merges_plainly (srcValue : jsval) (mergeFunc : jsval -> res jsval) : Prop :=
  forall dest,
    plain dest = true -> is_container dest = true -> fits srcValue dest = true ->
    exists r, mergeFunc dest = Ret r /\ plain r = true /\ same_kind dest r.

(** The index a loop over a source array has reached does not run past
    the end of a destination array. *)
Definition within (object : jsval) (index : nat) : Prop :=
  match object with
  | VArr l => index <= List.length l
  | _ => True
  end.

(** Merging the value into a fresh container of its kind gives the value
    back. *)
Definition copies (c : option customizer) (v : jsval) : Prop :=
  match v with
  | VArr _ => baseMerge c v (VArr []) = Ret v
  | VObj _ => baseMerge c v (VObj []) = Ret v
  | _ => True
  end.

(* ------------------------------------------------------------------ *)
(** ** The merge rules

    A merge rule names the field it is declared by (in lower case), the
    field of the service manifest it accumulates in, how the array that
    the accumulator holds for a key is combined with an incoming array
    for the same key, and the incoming arrays the statement covers. *)

(** Position by position: the incoming elements take the places of the
    accumulated ones; what the accumulator holds past the end of the
    incoming array stays. *)
Definition overlay (accumulated incoming : list jsval) : list jsval :=
  incoming ++ skipn (List.length incoming) accumulated.

Record merge_rule : Type := {
  declared_as : string;
  accumulated_in : string;
  combined : list jsval -> list jsval -> list jsval;
  admitted : list jsval -> bool
}.

Definition contributions_rule : merge_rule :=
  {| declared_as := "contributions"; accumulated_in := "contributions";
     combined := @app jsval; admitted := fun _ => true |}.
Definition contributionPoints_rule : merge_rule :=
  {| declared_as := "contributionpoints"; accumulated_in := "contributionPoints";
     combined := overlay; admitted := forallb primitive |}.
Definition contributionTypes_rule : merge_rule :=
  {| declared_as := "contributiontypes"; accumulated_in := "contributionTypes";
     combined := overlay; admitted := forallb primitive |}.

Definition merge_rules : list merge_rule :=
  [contributions_rule; contributionPoints_rule; contributionTypes_rule].

(** The array that a declaration of the rule's field gives the key [x]. *)
Definition declared_array (r : merge_rule) (x : string) (d : string * jsval)
    : option (list jsval) :=
  if String.eqb (toLowerCase (fst d)) (declared_as r) then
    match snd d with
    | VObj o =>
        match lookup x o with
        | Some (VArr incoming) => Some incoming
        | _ => None
        end
    | _ => None
    end
  else None.

(** One declaration after what has been accumulated for the key. *)
Definition combine_with (r : merge_rule) (x : string)
    (accumulated : option (list jsval)) (d : string * jsval) : option (list jsval) :=
  match declared_array r x d with
  | Some incoming =>
      Some (match accumulated with
            | Some a => combined r a incoming
            | None => incoming
            end)
  | None => accumulated
  end.

(** All declarations in order, the first array into an empty accumulator. *)
Definition merged_array (r : merge_rule) (x : string) (decls : list (string * jsval))
    : option (list jsval) :=
  fold_left (combine_with r x) decls None.

(** The declarations of the rule's field the statement covers: a plain
    object in which the key [x] is absent or holds an admitted array. *)
Definition regular (r : merge_rule) (x : string) (d : string * jsval) : bool :=
  if String.eqb (toLowerCase (fst d)) (declared_as r) then
    match snd d with
    | VObj o =>
        plain (VObj o)
        && match lookup x o with
           | None => true
           | Some (VArr incoming) => admitted r incoming
           | Some _ => false
           end
    | _ => false
    end
  else true.

(** What the accumulator [vsoManifest] holds for the rule and the key
    when [accumulated] is what the declarations so far combine to. *)
Definition accumulator_holds (r : merge_rule) (x : string) (vsoManifest : jsval)
    (accumulated : option (list jsval)) : Prop :=
  is_object vsoManifest = true
  /\ ((get vsoManifest (accumulated_in r) = Ret VUndef /\ accumulated = None)
      \/ exists p,
           get vsoManifest (accumulated_in r) = Ret (VObj p)
           /\ plain (VObj p) = true
           /\ lookup x p = option_map VArr accumulated).

(** The customizer [mergeKey] hands to [_.merge] for the rule's field. *)
Definition customizer_of (r : merge_rule) : option customizer :=
  if String.eqb (declared_as r) "contributions" then Some concatArrays else None.

(** Two partial manifests as the loader delivers them, each declaring
    the key [x] of the given field with an array. *)
Definition declared_twice (declared : string) (first second : list jsval) : list jsval :=
  [VObj [(declared, VObj [("x", VArr first)]);
         ("__origin", VStr "/r/manifests/a.json")];
   VObj [(declared, VObj [("x", VArr second)]);
         ("__origin", VStr "/r/manifests/b.json")]].

Definition contributions_partials : list jsval :=
  declared_twice "contributions" [VNum 1] [VNum 2].
Definition contributionPoints_partials : list jsval :=
  declared_twice "contributionPoints" [VNum 1] [VNum 2].
Definition longer_first_partials : list jsval :=
  declared_twice "contributionPoints" [VNum 1; VNum 2] [VNum 3].

(** The accumulators after the partial manifests, and the partial
    manifests as the path resolver leaves them. *)
Definition merged_of (partials : list jsval) : jsval * jsval :=
  match forEach partials sample_mergePartial initial_accumulators with
  | Ret acc => acc
  | _ => (VUndef, VUndef)
  end.

Definition resolved_of (partials : list jsval) : list jsval :=
  match mapM sample_resolveAssets partials with
  | Ret l => l
  | _ => []
  end.

(* ------------------------------------------------------------------ *)
(** ** Vocabulary of the further properties *)

(** A key outside the dispatch table of [mergeKey]. *)
Definition unrecognized (key : string) : bool :=
  negb (mem (toLowerCase key) recognized_keys).

(** An asset declaration the path resolver lets through: an object with
    exactly the keys [type] and [path], whose path is a relative path
    string. *)
Definition accepted_asset (path_isAbsolute : string -> bool) (asset : jsval) : bool :=
  match asset with
  | VObj a =>
      declares_type_and_path (map fst a)
      && match lookup "path" a with
         | Some (VStr p) => negb (path_isAbsolute p)
         | _ => false
         end
  | _ => false
  end.

(** The declaration with its path taken from the directory of the
    manifest at [origin] and made relative to [root]. *)
Definition rebased (path_dirname : string -> string)
    (path_join path_relative : string -> string -> string)
    (root origin : string) (asset : jsval) : jsval :=
  match asset with
  | VObj a =>
      match lookup "path" a with
      | Some (VStr p) =>
          VObj (upsert "path"
                  (VStr (path_relative root (path_join (path_dirname origin) p))) a)
      | _ => asset
      end
  | _ => asset
  end.

(** A file system with one manifest that holds the JSON text [null]. *)
Definition files_with_null (file : string) : option string :=
  if String.eqb file "/r/manifests/a.json" then Some name_text
  else if String.eqb file "/r/manifests/null.json" then Some "null"
  else None.

(** A manifest whose keys are all outside the dispatch table, one of
    them a misspelt [contributions]. *)
Definition misspelt_partial : jsval :=
  VObj [("contribution", VObj [("x", VArr [VNum 1])]);
        ("__meta_root", VStr "/elsewhere");
        ("__origin", VStr "/r/manifests/a.json")].

(** A manifest that declares a root annotation of its own:
    [{"__meta_root":"/elsewhere","name":"N"}]. *)
Definition root_key_text : string :=
  "{" ++ dquote ++ "__meta_root" ++ dquote ++ ":" ++ dquote ++ "/elsewhere" ++ dquote
      ++ "," ++ dquote ++ "name" ++ dquote ++ ":" ++ dquote ++ "N" ++ dquote ++ "}".

Definition files_with_root_key (file : string) : option string :=
  if String.eqb file "/r/manifests/a.json" then Some root_key_text else None.

(** A partial manifest, as loaded, with the two asset declarations. *)
Definition partial_with_two_assets : props_t :=
  [("assets", VArr two_assets); ("__origin", VStr "/r/manifests/a.json")].

(** The keys (in lower case) whose branch of [mergeKey] writes to the
    package manifest only, resp. to the service manifest only. *)
Definition package_only_keys : list string :=
  ["publisher"; "releasenotes"; "tags"; "vsoflags"; "categories"; "assets"].
Definition service_only_keys : list string :=
  ["baseuri"; "contributions"; "contributionpoints"; "contributiontypes"].

(** The keys whose branch writes below [PackageManifest.Metadata[0]],
    and the place of the package manifest where the list fields go. *)
Definition metadata_keys : list string :=
  ["namespace"; "version"; "name"; "description"; "publisher"; "releasenotes";
   "tags"; "vsoflags"; "categories"].

Definition list_field (key : string) : option string :=
  if String.eqb key "tags" then Some "Tags"
  else if String.eqb key "vsoflags" then Some "VSOFlags"
  else if String.eqb key "categories" then Some "Categories"
  else None.

(** The service manifest [vsoManifest] is an object that holds the
    object [p] in the field, or does not have the field yet ([p] is then
    the empty object that [mergeKey] starts it with). *)
Definition accumulated_field (vsoManifest : jsval) (field_name : string)
    (p : props_t) : Prop :=
  is_object vsoManifest = true
  /\ (get vsoManifest field_name = Ret (VObj p)
      \/ (get vsoManifest field_name = Ret VUndef /\ p = [])).

(** What a primitive value declared for a key becomes, given what the
    accumulator holds for the key: under [contributions] it is appended
    to an accumulated array; otherwise it takes the place of what was
    there. *)
Definition primitive_merged (r : merge_rule) (accumulated : option jsval)
    (v : jsval) : jsval :=
  match accumulated with
  | Some (VArr a) =>
      if String.eqb (declared_as r) "contributions" then VArr (a ++ [v]) else v
  | _ => v
  end.

(** A package manifest without an [Assets] node: [PackageManifest] is
    missing, or is an object without [Assets]; and no property is named
    like one of the two path strings of [prepManifests]. *)
Definition lacks_assets (top : props_t) : Prop :=
  (lookup "PackageManifest" top = None
   \/ exists m, lookup "PackageManifest" top = Some (VObj m)
                /\ lookup "Assets" m = None)
  /\ lookup "PackageManifest.Assets[0].Asset" top = None
  /\ lookup "PackageManifest.Assets[0].Asset[0]" top = None.

(** An asset entry whose type is the number 5. *)
Definition numbered_entry : jsval :=
  VObj [("$", VObj [("Type", VNum 5); ("Path", VStr "a.txt")])].

(* ------------------------------------------------------------------ *)
(** ** package.ts: [Merger.gatherManifests] *)

Section GatherManifests.
(** [glob(pattern, callback)]: the matches, or [None] for an error; and
    [path.join], with the merger's root. *)
Variable glob : string -> option (list string).
Variable path_join : string -> string -> string.
Variable root : string.

Definition gatherManifestsFromGlob (globPattern : string) : res (list string) :=
  match glob globPattern with
  | Some matches => Ret matches
  | None => Throw SystemError
  end.

(** [fileLists.reduce((a, b) => a.concat(b))]: without an initial value
    the reduction of an empty array is a TypeError. *)
Definition reduce_concat (fileLists : list (list string)) : res (list string) :=
  match fileLists with
  | [] => Throw TypeError
  | a :: r => Ret (fold_left (fun a b => a ++ b) r a)
  end.

Definition gatherManifests (globPatterns : list string) : res (list string) :=
  let globs := map (fun pattern => path_join root pattern) globPatterns in
  fileLists <- Q_all (map gatherManifestsFromGlob globs) ;;
  files <- reduce_concat fileLists ;;
  Ret (unique files).
End GatherManifests.

(* ------------------------------------------------------------------ *)
(** ** package.ts: the constructor of [VsixWriter] and [writeVsix] *)

Definition msg_root_unknown : string :=
  "Manifest root unknown. Manifest objects should have a __meta_root key specifying the absolute path to the root of assets.".

(** The files of the JSZip object: their names with their contents, in
    the order in which the names were first added (for names that are
    not array indices, which an object enumerates first). *)
Definition archive := list (string * string).

(** [vsix.file(name, data)]: adds the file, or replaces the content of
    the file of that name. *)
Fixpoint zip_file (name data : string) (vsix : archive) : archive :=
  match vsix with
  | [] => [(name, data)]
  | (n, d) :: r =>
      if String.eqb name n then (n, data) :: r else (n, d) :: zip_file name data r
  end.

Fixpoint file_content (name : string) (vsix : archive) : option string :=
  match vsix with
  | [] => None
  | (n, d) :: r => if String.eqb name n then Some d else file_content name r
  end.

(** [new VsixWriter(vsoManifest, vsixManifest)]: the two documents the
    writer holds, the package manifest updated by [prepManifests]. *)
Definition VsixWriter_new (vsoManifest vsixManifest : jsval) : res (jsval * jsval) :=
  vsixManifest <- prepManifests vsixManifest ;;
  Ret (vsoManifest, vsixManifest).

Section VsixWriter.
(** The environment of [writeVsix]: [fs.readFileSync] ([None] when it
    throws), [path.join], [path.extname], the two serializers
    ([JSON.stringify(_, null, 4)] and the XML builder with the options of
    the program, on the documents they are given here), and the outcome
    of [tmp.dir] ([None] for an error).  The manifests are written to
    files in the temporary directory and read back; the text read back
    is taken to be the text written. *)
Variable readFileSync : string -> option string.
Variable path_join : string -> string -> string.
Variable path_extname : string -> string.
Variable JSON_stringify : jsval -> string.
Variable buildObject : jsval -> string.
Variable tmp_dir : option string.

(** The body of the loop over the asset entries: an entry without [$]
    and the entry of the service manifest are passed over; the file of
    any other entry is read below the root and added under its path,
    with forward slashes. *)
Definition addAssetFile (root asset : jsval) (vsix : archive) : res archive :=
  attrs <- get asset "$" ;;
  if truthy attrs then
    type <- get attrs "Type" ;;
    if match type with
       | VStr t => String.eqb t "Microsoft.VSO.Manifest"
       | _ => false
       end
    then Ret vsix
    else
      p <- get attrs "Path" ;;
      match p with
      | VStr p =>
          match root with
          | VStr root =>
              match readFileSync (path_join root p) with
              | Some data => Ret (zip_file (slashes p) data vsix)
              | None => Throw SystemError
              end
          | _ => Unmodelled
          end
      | _ => Throw TypeError
      end
  else Ret vsix.

(** The first part of [writeVsix], after the check of the root: the
    archive with the files of the assets. *)
Definition writeVsix_assets (root vsixManifest : jsval) : res archive :=
  match lodash_get vsixManifest "PackageManifest.Assets[0].Asset" Assets_0_Asset VUndef with
  | VArr assets => forEach assets (addAssetFile root) []
  | _ => Ret []
  end.

(** [writeVsix(outPath)]: the archive that is generated and handed to
    [fs.writeFile].  The first part throws, the rest rejects the promise
    that is returned; both are a [Throw] here. *)
Definition writeVsix (vsoManifest vsixManifest : jsval) : res archive :=
  root <- get vsoManifest "__meta_root" ;;
  if truthy root then
    vsix <- writeVsix_assets root vsixManifest ;;
    match tmp_dir with
    | None => Throw SystemError
    | Some _ =>
        '(vso, vsixDoc) <- ManifestWriter_new vsoManifest vsixManifest ;;
        let vsix := zip_file VSO_MANIFEST_FILENAME (JSON_stringify vso) vsix in
        let vsix := zip_file VSIX_MANIFEST_FILENAME (buildObject vsixDoc) vsix in
        types <- genContentTypesXml path_extname (map fst vsix) ;;
        Ret (zip_file CONTENT_TYPES_FILENAME (buildObject types) vsix)
    end
  else Throw (Thrown (VStr msg_root_unknown)).
End VsixWriter.

(* ------------------------------------------------------------------ *)
(** ** app.ts: the check of the version of node *)

(** [s.split(".")]. *)
Fixpoint split_dot (s : string) : list string :=
  match s with
  | EmptyString => [EmptyString]
  | String c r =>
      if Ascii.eqb c "."%char then EmptyString :: split_dot r
      else
        match split_dot r with
        | seg :: segs => String c seg :: segs
        | [] => [String c EmptyString]
        end
  end.

(** [parseInt(s, 10)]: leading white space is skipped, a sign is read,
    then the longest run of decimal digits; [None] stands for NaN. *)
Definition parseInt10 (s : string) : option Z :=
  let cs := list_ascii_of_string (trimLeft s) in
  let '(negative, cs) :=
    match cs with
    | "-"%char :: r => (true, r)
    | "+"%char :: r => (false, r)
    | _ => (false, cs)
    end in
  match cs with
  | c :: _ =>
      if is_digit c then
        let '(n, _) := parse_digits cs 0 in
        Some (if negative then (- n)%Z else n)
      else None
  | [] => None
  end.

(** [parseInt(version.split(".")[1], 10) < 12], the condition under
    which the program reports an error and exits; a missing component
    reads as NaN, and a comparison with NaN is false. *)
Definition node_refused (version : string) : bool :=
  match nth_error (split_dot version) 1 with
  | Some minor =>
      match parseInt10 minor with
      | Some n => (n <? 12)%Z
      | None => false
      end
  | None => false
  end.

(** [process.version] for a release [major.minor.patch]. *)
Definition node_version (major minor patch : nat) : string :=
  "v" ++ string_of_nat major ++ "." ++ string_of_nat minor ++ "."
      ++ string_of_nat patch.

(** A glob search that finds one of the manifests twice. *)
Definition sample_glob (pattern : string) : option (list string) :=
  if String.eqb pattern "/r/manifests/**/*.json"
  then Some ["/r/manifests/a.json"; "/r/manifests/b.json"; "/r/manifests/a.json"]
  else None.

(** An asset entry [{$: {Type: t, Path: p, ...}}] with strings [t] and
    [p], whose file below the root can be read. *)
Definition packable (readFileSync : string -> option string)
    (path_join : string -> string -> string) (root : string) (entry : jsval) : bool :=
  match entry with
  | VObj e =>
      match lookup "$.Type" e, lookup "$" e with
      | None, Some (VObj attrs) =>
          match lookup "Type" attrs, lookup "Path" attrs with
          | Some (VStr _), Some (VStr p) =>
              match readFileSync (path_join root p) with
              | Some _ => true
              | None => false
              end
          | _, _ => false
          end
      | _, _ => false
      end
  | _ => false
  end.

(** The archive with the file of a packable entry: read below the root
    at the entry's path, added under that path with forward slashes. *)
Definition packed (readFileSync : string -> option string)
    (path_join : string -> string -> string) (root : string)
    (vsix : archive) (entry : jsval) : archive :=
  match prop (prop entry "$") "Path" with
  | VStr p =>
      match readFileSync (path_join root p) with
      | Some data => zip_file (slashes p) data vsix
      | None => vsix
      end
  | _ => vsix
  end.

(** What the archive is expected to hold under a name once the files of
    the entries have been added, one entry after the other: the file,
    read below the root at the entry's path, of the last entry whose
    path, with forward slashes, is the name. *)
Definition packaged_step (readFileSync : string -> option string)
    (path_join : string -> string -> string) (root name : string)
    (found : option string) (entry : jsval) : option string :=
  match prop (prop entry "$") "Path" with
  | VStr p =>
      match readFileSync (path_join root p) with
      | Some data => if String.eqb name (forward_slashes p) then Some data else found
      | None => found
      end
  | _ => found
  end.

Definition packaged (readFileSync : string -> option string)
    (path_join : string -> string -> string) (root : string)
    (entries : list jsval) (name : string) : option string :=
  fold_left (packaged_step readFileSync path_join root name) entries None.

(** A file system in which every file holds its own path. *)
Definition echo_files (path : string) : option string :=
  Some ("<" ++ path ++ ">")%string.

(** A package manifest with an icon, whose path is written with a
    backslash, and with an asset that is declared with the reserved
    type, in lower case. *)
Definition vsix_with_reserved_asset : jsval :=
  VObj
    [("PackageManifest", VObj
       [("Assets", VArr
          [VObj
             [("Asset", VArr
                [VObj [("$", VObj [("Type", VStr "Microsoft.VSO.LargeIcon");
                                   ("d:Source", VStr "File");
                                   ("Path", VStr "img\logo.png")])];
                 VObj [("$", VObj [("Type", VStr "microsoft.vso.manifest");
                                   ("d:Source", VStr "File");
                                   ("Path", VStr "mine.json")])]])]])])].

(** Serializers that tell only which document they were given. *)
Definition stub_stringify (doc : jsval) : string := "service manifest".
Definition stub_buildObject (doc : jsval) : string :=
  match get doc "Types" with
  | Ret (VObj _) => "content types"
  | _ => "package manifest"
  end.

(** A package manifest with an asset whose path is the name under which
    the service manifest is packaged. *)
Definition vsix_with_clashing_asset : jsval :=
  VObj
    [("PackageManifest", VObj
       [("Assets", VArr
          [VObj
             [("Asset", VArr
                [VObj [("$", VObj [("Type", VStr "Microsoft.VSO.Hub");
                                   ("d:Source", VStr "File");
                                   ("Path", VStr "extension.vsomanifest")])]])]])])].

(** The manifests that a merger with the empty root resolves to when
    there is no partial manifest, and the documents of the writer made
    from them. *)
Definition rootless_manifests : jsval * jsval :=
  match snd (merge parse_json sample_files posix_isAbsolute posix_dirname posix_join
               posix_relative "" template_vsixmanifest []) with
  | Ret split => (prop split "vsoManifest", prop split "vsixManifest")
  | _ => (VUndef, VUndef)
  end.

Definition rootless_writer : jsval * jsval :=
  match VsixWriter_new (fst rootless_manifests) (snd rootless_manifests) with
  | Ret writer => writer
  | _ => (VUndef, VUndef)
  end.

(** A service manifest with a name, and the accumulators after a
    [Publisher] key was merged into it and the template. *)
Definition named_service : jsval := VObj [("name", VStr "N")].

Definition merged_publisher : jsval * jsval :=
  match mergeKey "Publisher" (VStr "me") named_service template_vsixmanifest with
  | Ret acc => acc
  | _ => (VUndef, VUndef)
  end.

(** What an array or an object declared for a key becomes when the
    accumulator holds, for that key, a value of another kind: the
    declared value takes its place, except that under [contributions] an
    object is appended to an accumulated array.  (An accumulated string
    under a declared array is not covered: it is spread into its
    characters first.) *)
Definition other_kind_merged (r : merge_rule) (accumulated : option jsval)
    (v : jsval) : option jsval :=
  match v, accumulated with
  | VArr _, Some (VNull | VBool _ | VNum _ | VObj _) => Some v
  | VObj _, Some (VNull | VBool _ | VNum _ | VStr _) => Some v
  | VObj _, Some (VArr a) =>
      Some (if String.eqb (declared_as r) "contributions" then VArr (a ++ [v]) else v)
  | _, _ => None
  end.

(** Two partial manifests as loaded; both declare assets, the second
    one an icon only, its path written with a backslash. *)
Definition partials_with_assets : list jsval :=
  [VObj [("assets", VArr two_assets); ("__origin", VStr "/r/manifests/a.json")];
   VObj [("assets", VArr [VObj [("type", VStr "Microsoft.VSO.LargeIcon");
                               ("path", VStr "art\icon.png")]]);
         ("__origin", VStr "/r/b.json")]].

(** The properties of the package manifest the sample merges start
    from. *)
Definition initial_top : props_t :=
  match snd initial_accumulators with
  | VObj top => top
  | _ => []
  end.

(** A partial manifest, as loaded, whose asset declares a number for its
    type, and a package manifest without an [Assets] node. *)
Definition partials_with_numeric_type : list jsval :=
  [VObj [("assets", VArr [VObj [("type", VNum 5); ("path", VStr "a.txt")]]);
         ("__origin", VStr "/r/manifests/a.json")]].

Definition vsix_without_assets : jsval :=
  VObj [("PackageManifest", VObj [("Metadata", VArr [])])].

(** The package manifest a [VsixWriter] holds when it is made from the
    two manifests. *)
Definition prepared (vsoManifest vsixManifest : jsval) : jsval :=
  match VsixWriter_new vsoManifest vsixManifest with
  | Ret writer => snd writer
  | _ => VUndef
  end.

(* ================================================================== *)
(** * Properties *)

(* ------------------------------------------------------------------ *)
(** ** The remote-error translator *)

Section ErrorHandlerFacts.
Variable JSON_parse : string -> option jsval.

Lemma err_status_401 (o : props_t) :
  lookup "statusCode" o = Some (VNum 401) ->
  err JSON_parse (VObj o) = Throw (Thrown (VStr msg401)).
Proof.
  intros H. unfold err. simpl. rewrite H. reflexivity.
Qed.

(** Reading [statusCode] of an object that does not hold the number 401
    there continues with the body. *)
Lemma err_other_status (o : props_t) :
  lookup "statusCode" o <> Some (VNum 401) ->
  err JSON_parse (VObj o) =
    (errorBodyObj <- get (VObj o) "body" ;;
     errorBodyObj <-
       (if truthy errorBodyObj then
          match errorBodyObj with
          | VStr s =>
              match JSON_parse s with
              | Some parsed => Ret parsed
              | None => Throw (Thrown errorBodyObj)
              end
          | _ => Ret errorBodyObj
          end
        else Ret errorBodyObj) ;;
     message <- get errorBodyObj "message" ;;
     if truthy message then Throw (Thrown message)
     else Throw (Thrown errorBodyObj)).
Proof.
  intros H. unfold err. cbn [bind get].
  destruct (lookup "statusCode" o) as [sc|] eqn:E; cbn [opt_value]; [|reflexivity].
  destruct sc as [| |b|n|s|l|p]; try reflexivity.
  destruct n as [|p|p]; try reflexivity.
  assert (Hp : p <> 401%positive) by (intros ->; apply H; reflexivity).
  do 9 (destruct p as [p|p|]; try reflexivity); exfalso; apply Hp; reflexivity.
Qed.

Lemma err_body_text (o m : props_t) (body : string) (msg : jsval) :
  lookup "statusCode" o <> Some (VNum 401) ->
  lookup "body" o = Some (VStr body) ->
  body <> "" ->
  JSON_parse body = Some (VObj m) ->
  lookup "message" m = Some msg ->
  truthy msg = true ->
  err JSON_parse (VObj o) = Throw (Thrown msg).
Proof.
  intros Hs Hb Hne Hp Hm Ht. rewrite (err_other_status o Hs).
  cbn [get bind]. rewrite Hb. cbn [opt_value truthy].
  destruct (String.eqb body "") eqn:E.
  - apply String.eqb_eq in E. contradiction.
  - cbn [negb]. rewrite Hp. cbn [bind get]. rewrite Hm. cbn [opt_value].
    rewrite Ht. reflexivity.
Qed.

Lemma err_body_object (o b : props_t) :
  lookup "statusCode" o <> Some (VNum 401) ->
  lookup "body" o = Some (VObj b) ->
  lookup "message" b = None ->
  err JSON_parse (VObj o) = Throw (Thrown (VObj b)).
Proof.
  intros Hs Hb Hm. rewrite (err_other_status o Hs).
  cbn [get bind]. rewrite Hb. cbn [opt_value truthy bind get].
  rewrite Hm. reflexivity.
Qed.

Lemma err_invalid_text (s : string) :
  JSON_parse s = None ->
  err JSON_parse (VStr s) = Throw (Thrown (VStr s)).
Proof.
  intros H. unfold err. rewrite H. reflexivity.
Qed.
End ErrorHandlerFacts.

(** C9.  The remote-error translator [err]: an object whose [statusCode]
    is the number 401 yields the fixed credential-expiry message; an
    object (not a 401) whose [body] is a JSON text that decodes to an
    object with a non-empty [message] string yields that string, as for
    the text [{"message":"X"}] and ["X"]; an object (not a 401) whose
    [body] is an object without [message], as [{foo:1}], yields that body
    object; and a string input that is not valid JSON is thrown as it
    is. *)
Theorem err_translates_responses (JSON_parse : string -> option jsval) :
  (forall o : props_t,
      lookup "statusCode" o = Some (VNum 401) ->
      err JSON_parse (VObj o) = Throw (Thrown (VStr msg401)))
  /\ (forall (o m : props_t) (text X : string),
         lookup "statusCode" o <> Some (VNum 401) ->
         lookup "body" o = Some (VStr text) ->
         text <> "" ->
         JSON_parse text = Some (VObj m) ->
         lookup "message" m = Some (VStr X) ->
         X <> "" ->
         err JSON_parse (VObj o) = Throw (Thrown (VStr X)))
  /\ (forall o b : props_t,
         lookup "statusCode" o <> Some (VNum 401) ->
         lookup "body" o = Some (VObj b) ->
         lookup "message" b = None ->
         err JSON_parse (VObj o) = Throw (Thrown (VObj b)))
  /\ (forall s : string,
         JSON_parse s = None ->
         err JSON_parse (VStr s) = Throw (Thrown (VStr s))).
Proof.
  split; [|split; [|split]].
  - apply err_status_401.
  - intros o m text X Hs Hb Ht Hp Hm HX.
    apply (err_body_text JSON_parse o m text (VStr X)); auto.
    cbn. destruct (String.eqb X "") eqn:E; [|reflexivity].
    apply String.eqb_eq in E. contradiction.
  - apply err_body_object.
  - apply err_invalid_text.
Qed.

Lemma err_translates_responses_witness :
  err parse_json (VObj [("statusCode", VNum 401)]) = Throw (Thrown (VStr msg401))
  /\ err parse_json (VObj [("body", VStr message_X_text)]) = Throw (Thrown (VStr "X"))
  /\ err parse_json (VObj [("body", VObj [("foo", VNum 1)])])
     = Throw (Thrown (VObj [("foo", VNum 1)]))
  /\ err parse_json (VStr "Bad Gateway") = Throw (Thrown (VStr "Bad Gateway")).
Proof.
  destruct (err_translates_responses parse_json) as (H401 & Htext & Hobj & Hbad).
  split; [|split; [|split]].
  - apply H401. reflexivity.
  - apply (Htext _ [("message", VStr "X")] message_X_text "X");
      [discriminate | reflexivity | discriminate | reflexivity | reflexivity | discriminate].
  - apply Hobj; [discriminate | reflexivity | reflexivity].
  - apply Hbad. reflexivity.
Defined.

(** C10, as amended.  For every input object whose [statusCode] is not
    401 and whose [body] is falsy: when the body is absent, [undefined]
    or [null], [err] fails with a TypeError, raised by the read of
    [message]; when the body is one of the falsy primitives ([false], [0],
    the empty string), the read of [message] gives [undefined] and [err]
    throws that raw body. *)
Theorem err_falsy_body (JSON_parse : string -> option jsval) (o : props_t) :
  lookup "statusCode" o <> Some (VNum 401) ->
  truthy (opt_value (lookup "body" o)) = false ->
  err JSON_parse (VObj o) =
    match opt_value (lookup "body" o) with
    | VUndef | VNull => Throw TypeError
    | body => Throw (Thrown body)
    end.
Proof.
  intros Hs Hf. rewrite (err_other_status JSON_parse o Hs).
  cbn [get bind]. rewrite Hf.
  destruct (opt_value (lookup "body" o)) as [| |b|n|s|l|p]; try reflexivity;
    cbn in Hf; discriminate.
Qed.

Lemma err_falsy_body_witness :
  err parse_json (VObj no_body_response) = Throw TypeError.
Proof.
  apply (err_falsy_body parse_json no_body_response); [discriminate | reflexivity].
Defined.

(** C10 as stated fails on a response with an empty-string body: the
    status is not 401, the body is falsy, and [err] throws the body, not
    a TypeError. *)
Lemma err_empty_body_counterexample :
  lookup "statusCode" empty_body_response <> Some (VNum 401)
  /\ truthy (opt_value (lookup "body" empty_body_response)) = false
  /\ err parse_json (VObj empty_body_response) = Throw (Thrown (VStr ""))
  /\ err parse_json (VObj empty_body_response) <> Throw TypeError.
Proof.
  split; [discriminate|]. split; [reflexivity|]. split; [reflexivity|discriminate].
Qed.

(* ------------------------------------------------------------------ *)
(** ** The content-type index *)

Lemma mem_In (k : string) (l : list string) : mem k l = true <-> In k l.
Proof.
  unfold mem. rewrite existsb_exists. split.
  - intros (x & Hin & Heq). apply String.eqb_eq in Heq. subst. exact Hin.
  - intros Hin. exists k. split; [exact Hin | apply String.eqb_refl].
Qed.

Lemma mem_false_not_In (k : string) (l : list string) : mem k l = false <-> ~ In k l.
Proof.
  rewrite <- mem_In. destruct (mem k l); split; intros H; congruence.
Qed.

Lemma unique_from_In (l seen : list string) (x : string) :
  In x (unique_from seen l) <-> In x l /\ ~ In x seen.
Proof.
  revert seen. induction l as [|y r IH]; intros seen; simpl.
  - tauto.
  - destruct (mem y seen) eqn:E.
    + apply mem_In in E. rewrite IH. split.
      * intros [H1 H2]. auto.
      * intros [[->|H1] H2]; [contradiction | auto].
    + apply mem_false_not_In in E. simpl. rewrite IH. simpl. split.
      * intros [->|[H1 H2]]; [auto | split; auto].
      * intros [[->|H1] H2]; [auto|].
        destruct (string_dec y x) as [->|Hne]; [auto|]. right. split; auto.
        intros [?|?]; congruence.
Qed.

Lemma unique_from_NoDup (l seen : list string) : NoDup (unique_from seen l).
Proof.
  revert seen. induction l as [|y r IH]; intros seen; simpl.
  - constructor.
  - destruct (mem y seen); [apply IH|].
    constructor; [|apply IH].
    rewrite unique_from_In. simpl. tauto.
Qed.

(** [_.unique] keeps exactly the distinct elements, once each. *)
Lemma unique_spec (l : list string) :
  NoDup (unique l) /\ forall x, In x (unique l) <-> In x l.
Proof.
  split; [apply unique_from_NoDup|].
  intros x. unfold unique. rewrite unique_from_In. simpl. tauto.
Qed.

(** White-space trimming leaves alone a string that is empty or starts
    with a dot. *)
Lemma trimLeft_dotted (ext : string) :
  ext = "" \/ (exists r, ext = String "."%char r) -> trimLeft ext = ext.
Proof.
  intros [->|[r ->]]; reflexivity.
Qed.

Lemma contentType_dotted (ext : string) :
  ext = "" \/ (exists r, ext = String "."%char r) ->
  contentType ext = Ret "application/octet-stream".
Proof.
  intros [->|[r ->]]; reflexivity.
Qed.

Lemma split_ext_dot (seg acc e b : list ascii) :
  split_ext seg acc = Some (e, b) -> exists a, e = a ++ ["."%char].
Proof.
  revert acc. induction seg as [|c r IH]; intros acc; simpl; [discriminate|].
  destruct (Ascii.eqb c "."%char) eqn:E.
  - apply Ascii.eqb_eq in E. subst. intros [= <- <-]. eauto.
  - apply IH.
Qed.

(** [path.posix.extname] returns the empty string or a string that
    starts with the dot. *)
Lemma posix_extname_dotted (path : string) :
  posix_extname path = "" \/ exists r, posix_extname path = String "."%char r.
Proof.
  unfold posix_extname.
  destruct (split_ext _ []) as [[e b]|] eqn:E; [|auto].
  destruct b as [|b0 b]; [auto|].
  destruct (String.eqb _ ".."); [auto|].
  right. apply split_ext_dot in E. destruct E as [pre ->].
  rewrite rev_app_distr. simpl. eauto.
Qed.

Section ContentTypeFacts.
Variable path_extname : string -> string.
Hypothesis extname_dotted :
  forall f, path_extname f = "" \/ exists r, path_extname f = String "."%char r.

Lemma uniqueExtensions_dotted (fileNames : list string) (ext : string) :
  In ext (uniqueExtensions path_extname fileNames) ->
  ext = "" \/ exists r, ext = String "."%char r.
Proof.
  unfold uniqueExtensions. intros H. apply (proj1 (proj2 (unique_spec _) _)) in H.
  apply in_map_iff in H. destruct H as (f & <- & _).
  rewrite trimLeft_dotted; auto.
Qed.

(** Whatever the files, every entry of the index carries the
    octet-stream type, and the extension is listed as [path.extname]
    returned it: the dot is still there. *)
Lemma contentTypeDefaults_all_octet_stream (fileNames : list string) :
  contentTypeDefaults path_extname fileNames =
    Ret (map (fun ext => (ext, "application/octet-stream"))
           (unique (map path_extname fileNames))).
Proof.
  unfold contentTypeDefaults, uniqueExtensions.
  replace (map (fun f => trimLeft (path_extname f)) fileNames)
    with (map path_extname fileNames)
    by (apply map_ext; intros f; symmetry; apply trimLeft_dotted; auto).
  assert (H : forall ext, In ext (unique (map path_extname fileNames)) ->
                          ext = "" \/ exists r, ext = String "."%char r).
  { intros ext Hin. apply (proj1 (proj2 (unique_spec _) _)) in Hin. apply in_map_iff in Hin.
    destruct Hin as (f & <- & _). auto. }
  induction (unique (map path_extname fileNames)) as [|ext r IH]; [reflexivity|].
  simpl. rewrite contentType_dotted by (apply H; left; reflexivity).
  simpl. rewrite IH by (intros; apply H; right; assumption). reflexivity.
Qed.
End ContentTypeFacts.

(** C5.  What the code computes where the claim expects the dot to be
    stripped and [json] to map to [application/json]: for the archive
    entries [a.json], [b.json] and the two manifests, the index has one
    entry per distinct extension, but the extensions keep their leading
    dot ([_.trimLeft] without a second argument trims white space only),
    so none is found in the table and all get the octet-stream type. *)
Theorem content_types_of_sample_archive :
  contentTypeDefaults posix_extname
    ["a.json"; "b.json"; VSO_MANIFEST_FILENAME; VSIX_MANIFEST_FILENAME]
  = Ret [(".json", "application/octet-stream");
         (".vsomanifest", "application/octet-stream");
         (".vsixmanifest", "application/octet-stream")].
Proof. reflexivity. Qed.

(* ------------------------------------------------------------------ *)
(** ** Property reads and writes *)

Lemma to_uint_nonnil (n : nat) : Nat.to_uint n <> Decimal.Nil.
Proof.
  pose proof (DecimalNat.Unsigned.to_of (Nat.to_uint n)) as H.
  rewrite DecimalNat.Unsigned.of_to in H. rewrite H.
  apply DecimalFacts.unorm_nonnil.
Qed.

Lemma index_of_string_of_nat (n : nat) : index_of_string (string_of_nat n) = Some n.
Proof.
  unfold index_of_string, string_of_nat.
  rewrite NilZero.usu by apply to_uint_nonnil.
  rewrite DecimalNat.Unsigned.of_to.
  destruct (string_dec _ _); congruence.
Qed.

Lemma index_of_string_inv (s : string) (n : nat) :
  index_of_string s = Some n -> s = string_of_nat n.
Proof.
  unfold index_of_string. destruct (NilZero.uint_of_string s); [|discriminate].
  destruct (string_dec _ _) as [E|]; [|discriminate].
  intros [= <-]. symmetry. exact E.
Qed.

Lemma lookup_upsert_eq (k : string) (v : jsval) (o : props_t) :
  lookup k (upsert k v o) = Some v.
Proof.
  induction o as [|[k' v'] r IH]; simpl.
  - rewrite String.eqb_refl. reflexivity.
  - destruct (String.eqb k k') eqn:E; simpl; rewrite E; auto.
Qed.

Lemma lookup_upsert_ne (k k' : string) (v : jsval) (o : props_t) :
  k <> k' -> lookup k' (upsert k v o) = lookup k' o.
Proof.
  intros Hne. induction o as [|[k0 v0] r IH]; simpl.
  - apply String.eqb_neq in Hne. rewrite String.eqb_sym, Hne. reflexivity.
  - destruct (String.eqb k k0) eqn:E; simpl.
    + apply String.eqb_eq in E. subst k0.
      apply String.eqb_neq in Hne. rewrite String.eqb_sym, Hne. reflexivity.
    + rewrite IH. reflexivity.
Qed.

Lemma nth_error_set_nth_eq (i : nat) (v : jsval) (l : list jsval) :
  nth_error (set_nth i v l) i = Some v.
Proof.
  revert l. induction i as [|i IH]; intros [|x r]; simpl; auto.
Qed.

Lemma nth_error_set_nth_ne (i j : nat) (v : jsval) (l : list jsval) :
  i <> j ->
  opt_value (nth_error (set_nth i v l) j) = opt_value (nth_error l j).
Proof.
  revert j l. induction i as [|i IH]; intros [|j] [|x r] Hne; simpl; try congruence.
  - destruct j; reflexivity.
  - rewrite IH by congruence. destruct j; reflexivity.
  - apply IH. congruence.
Qed.

Lemma get_set_eq (c c' : jsval) (k : string) (x : jsval) :
  is_container c = true -> set c k x = Ret c' -> get c' k = Ret x.
Proof.
  destruct c; try discriminate; intros _; simpl.
  - destruct (index_of_string k) as [i|] eqn:E; [|discriminate].
    intros [= <-]. simpl. rewrite E.
    destruct (String.eqb k "length") eqn:El.
    + apply String.eqb_eq in El. subst. discriminate.
    + rewrite nth_error_set_nth_eq. reflexivity.
  - intros [= <-]. simpl. rewrite lookup_upsert_eq. reflexivity.
Qed.

Lemma get_set_ne (c c' : jsval) (k k' : string) (x : jsval) :
  k <> k' -> k' <> "length" -> set c k x = Ret c' -> get c' k' = get c k'.
Proof.
  intros Hne Hlen. destruct c; simpl; try discriminate; try (intros [= <-]; reflexivity).
  - destruct (index_of_string k) as [i|] eqn:E; [|discriminate].
    intros [= <-]. simpl.
    apply String.eqb_neq in Hlen. rewrite Hlen.
    destruct (index_of_string k') as [j|] eqn:E'; [|reflexivity].
    rewrite nth_error_set_nth_ne; [reflexivity|].
    intros ->. apply index_of_string_inv in E, E'. congruence.
  - intros [= <-]. simpl. rewrite lookup_upsert_ne by assumption. reflexivity.
Qed.

Lemma set_container (c c' : jsval) (k : string) (x : jsval) :
  set c k x = Ret c' ->
  match c with
  | VObj _ => exists o, c' = VObj o
  | VArr _ => exists l, c' = VArr l
  | _ => c' = c
  end.
Proof.
  destruct c; simpl; try discriminate; try (intros [= <-]; reflexivity).
  - destruct (index_of_string k); [|discriminate]. intros [= <-]. eauto.
  - intros [= <-]. eauto.
Qed.

(** A container is only ever read from an object, or from an array at
    an index. *)
Lemma get_container_parent (v w : jsval) (k : string) :
  get v k = Ret w -> is_container w = true ->
  (exists o, v = VObj o) \/
  (exists l i, v = VArr l /\ index_of_string k = Some i).
Proof.
  destruct v; simpl; try discriminate.
  - intros [= <-]. discriminate.
  - intros [= <-]. discriminate.
  - destruct (String.eqb k "length"); [intros [= <-]; discriminate|].
    destruct (index_of_string k) as [i|]; [|intros [= <-]; discriminate].
    destruct (nth_error (chars s) i); intros [= <-]; discriminate.
  - destruct (String.eqb k "length"); [intros [= <-]; discriminate|].
    destruct (index_of_string k) as [i|] eqn:E; [|intros [= <-]; discriminate].
    intros _ _. right. eauto.
  - intros _ _. left. eauto.
Qed.

Lemma get_path_app (v : jsval) (p q : list string) :
  get_path v (p ++ q) = (w <- get_path v p ;; get_path w q).
Proof.
  revert v. induction p as [|k r IH]; intros v; simpl; [reflexivity|].
  destruct (get v k); simpl; auto.
Qed.

Lemma get_path_reaches_container (v c : jsval) (p : list string) :
  get_path v p = Ret c -> is_container c = true -> is_container v = true.
Proof.
  revert v. induction p as [|k r IH]; intros v; simpl.
  - intros [= ->]. auto.
  - destruct (get v k) as [w| |] eqn:E; simpl; try discriminate.
    intros Hp Hc. specialize (IH w Hp Hc).
    destruct (get_container_parent v w k E IH) as [[o ->]|(l & i & -> & _)]; reflexivity.
Qed.

Lemma set_path_cons (v : jsval) (k k' : string) (r : list string) (x : jsval) :
  set_path v (k :: k' :: r) x =
    (w <- get v k ;; w' <- set_path w (k' :: r) x ;; set v k w').
Proof. reflexivity. Qed.

(** Writing below a container that is reached by the path [p]. *)
Lemma set_path_snoc (p : list string) (v c c' : jsval) (k : string) (x : jsval) :
  get_path v p = Ret c ->
  is_container c = true ->
  set c k x = Ret c' ->
  exists v',
    set_path v (p ++ [k]) x = Ret v'
    /\ get_path v' p = Ret c'
    /\ get_path v' (p ++ [k]) = Ret x.
Proof.
  revert v. induction p as [|k0 r IH]; intros v Hget Hc Hset.
  - simpl in Hget. injection Hget as ->. exists c'. simpl.
    repeat split; auto. rewrite (get_set_eq c c' k x Hc Hset). reflexivity.
  - simpl in Hget. destruct (get v k0) as [w| |] eqn:E; simpl in Hget; try discriminate.
    destruct (IH w Hget Hc Hset) as (w' & Hs & Hg & Hgk).
    assert (Hw : is_container w = true)
      by (eapply get_path_reaches_container; eauto).
    assert (Hv : exists v', set v k0 w' = Ret v' /\ get v' k0 = Ret w').
    { destruct (get_container_parent v w k0 E Hw) as [[o ->]|(l & i & -> & Hi)].
      - eexists. split; [reflexivity|]. simpl. rewrite lookup_upsert_eq. reflexivity.
      - eexists. simpl. rewrite Hi. split; [reflexivity|].
        simpl. rewrite Hi.
        destruct (String.eqb k0 "length") eqn:El.
        + apply String.eqb_eq in El. subst. discriminate.
        + rewrite nth_error_set_nth_eq. reflexivity. }
    destruct Hv as (v' & Hsv & Hgv).
    exists v'. split; [|split].
    + change ((k0 :: r) ++ [k]) with (k0 :: (r ++ [k])).
      destruct (r ++ [k]) as [|k1 r1] eqn:Er.
      { destruct r; discriminate. }
      rewrite set_path_cons, E. cbn [bind]. rewrite Hs. cbn [bind]. exact Hsv.
    + simpl. rewrite Hgv. simpl. exact Hg.
    + simpl. rewrite Hgv. simpl. exact Hgk.
Qed.

(** A write along [p] is not seen along a path that parts ways with [p]. *)
Lemma get_path_set_path_other (p q : list string) (v v' x : jsval) :
  set_path v p x = Ret v' ->
  diverge p q = true ->
  ~ In "length" q ->
  get_path v' q = get_path v q.
Proof.
  revert q v v' x. induction p as [|k r IH]; intros q v v' x Hset Hdiv Hlen.
  - discriminate.
  - destruct q as [|k2 r2]; [discriminate|].
    simpl in Hdiv.
    assert (Hk2 : k2 <> "length") by (intros ->; apply Hlen; left; reflexivity).
    assert (Hr2 : ~ In "length" r2) by (intros H; apply Hlen; right; exact H).
    destruct r as [|k' r'].
    + simpl in Hset. destruct (String.eqb k k2) eqn:E; [discriminate|].
      apply String.eqb_neq in E. simpl.
      rewrite (get_set_ne v v' k k2 x E Hk2 Hset). reflexivity.
    + rewrite set_path_cons in Hset.
      destruct (get v k) as [w| |] eqn:Eg; cbn [bind] in Hset; try discriminate.
      destruct (set_path w (k' :: r') x) as [w'| |] eqn:Es; cbn [bind] in Hset;
        try discriminate.
      destruct (String.eqb k k2) eqn:E.
      * apply String.eqb_eq in E. subst k2. simpl. rewrite Eg. simpl.
        destruct (is_container v) eqn:Hc.
        -- rewrite (get_set_eq v v' k w' Hc Hset). simpl.
           eapply IH; eauto.
        -- assert (v' = v).
           { pose proof (set_container v v' k w' Hset) as H.
             destruct v; try discriminate; auto. }
           subst v'. rewrite Eg. reflexivity.
      * apply String.eqb_neq in E. simpl.
        rewrite (get_set_ne v v' k k2 w' E Hk2 Hset). reflexivity.
Qed.

(** An object is what a path reaches just before a name that is not an
    index. *)
Lemma get_path_object_parent (p : list string) (k : string) (v c : jsval) :
  get_path v (p ++ [k]) = Ret c ->
  is_container c = true ->
  index_of_string k = None ->
  exists o, get_path v p = Ret (VObj o).
Proof.
  rewrite get_path_app. destruct (get_path v p) as [w| |]; simpl; try discriminate.
  destruct (get w k) as [c0| |] eqn:E; simpl; try discriminate.
  intros [= ->] Hc Hk.
  destruct (get_container_parent w c k E Hc) as [[o ->]|(l & i & -> & Hi)]; [eauto|congruence].
Qed.

Lemma bind_Ret {A B} (m : res A) (k : A -> res B) (b : B) :
  bind m k = Ret b -> exists a, m = Ret a /\ k a = Ret b.
Proof.
  destruct m; simpl; try discriminate. eauto.
Qed.

Ltac inv_bind H :=
  let a := fresh "a" in
  let Ha := fresh "Ha" in
  apply bind_Ret in H; destruct H as (a & Ha & H).

Lemma set_path_snoc_fail (p : list string) (v c : jsval) (k : string) (x : jsval) :
  get_path v p = Ret c ->
  (forall c', set c k x <> Ret c') ->
  forall v', set_path v (p ++ [k]) x <> Ret v'.
Proof.
  revert v. induction p as [|k0 r IH]; intros v Hget Hfail v'.
  - simpl in Hget. injection Hget as ->. simpl. apply Hfail.
  - simpl in Hget. destruct (get v k0) as [w| |] eqn:E; cbn [bind] in Hget; try discriminate.
    change ((k0 :: r) ++ [k]) with (k0 :: (r ++ [k])).
    destruct (r ++ [k]) as [|k1 r1] eqn:Er; [destruct r; discriminate|].
    rewrite set_path_cons, E. cbn [bind]. intros H. inv_bind H.
    exact (IH w Hget Hfail _ Ha).
Qed.

(** What a successful write below the container at [p] has done. *)
Lemma set_path_snoc_inv (p : list string) (v v' c : jsval) (k : string) (x : jsval) :
  get_path v p = Ret c ->
  is_container c = true ->
  set_path v (p ++ [k]) x = Ret v' ->
  exists c',
    set c k x = Ret c'
    /\ get_path v' p = Ret c'
    /\ get_path v' (p ++ [k]) = Ret x.
Proof.
  intros Hget Hc Hset.
  destruct (set c k x) as [c'| |] eqn:E.
  - destruct (set_path_snoc p v c c' k x Hget Hc E) as (v'' & Hs & Hg & Hgk).
    rewrite Hs in Hset. injection Hset as <-. eauto.
  - exfalso. apply (set_path_snoc_fail p v c k x Hget) with (v' := v'); [|exact Hset].
    intros c'. rewrite E. discriminate.
  - exfalso. apply (set_path_snoc_fail p v c k x Hget) with (v' := v'); [|exact Hset].
    intros c'. rewrite E. discriminate.
Qed.

Lemma reaches_Ret (kind : jsval -> bool) (v : jsval) (p : list string) :
  reaches kind v p = true -> exists c, get_path v p = Ret c /\ kind c = true.
Proof.
  unfold reaches. destruct (get_path v p); try discriminate. eauto.
Qed.

Lemma is_object_inv (c : jsval) : is_object c = true -> exists o, c = VObj o.
Proof. destruct c; try discriminate. eauto. Qed.

Lemma isArray_inv (c : jsval) : isArray c = true -> exists l, c = VArr l.
Proof. destruct c; try discriminate. eauto. Qed.

(** A read that tells apart writes: unchanged along a path that parts
    ways with the written one. *)
Lemma reaches_other (kind : jsval -> bool) (p q : list string) (v v' x : jsval) :
  set_path v p x = Ret v' ->
  diverge p q = true ->
  ~ In "length" q ->
  reaches kind v' q = reaches kind v q.
Proof.
  intros Hs Hd Hl. unfold reaches.
  rewrite (get_path_set_path_other p q v v' x Hs Hd Hl). reflexivity.
Qed.

(** The parent of a written property keeps its kind. *)
Lemma reaches_parent (kind : jsval -> bool) (p : list string) (k : string)
    (v v' x : jsval) :
  (kind = is_object \/ kind = isArray) ->
  set_path v (p ++ [k]) x = Ret v' ->
  reaches kind v p = true ->
  reaches kind v' p = true.
Proof.
  intros Hk Hs Hr. apply reaches_Ret in Hr. destruct Hr as (c & Hg & Hc).
  assert (Hcont : is_container c = true)
    by (destruct Hk; subst kind; destruct c; try discriminate; reflexivity).
  destruct (set_path_snoc_inv p v v' c k x Hg Hcont Hs) as (c' & Hset & Hg' & _).
  unfold reaches. rewrite Hg'.
  pose proof (set_container c c' k x Hset) as H.
  destruct Hk; subst kind; destruct c; try discriminate;
    destruct H as [? ->]; reflexivity.
Qed.

Lemma package_shape_inv (vsix : jsval) :
  package_shape vsix = true ->
  (exists attrs, get_path vsix Identity_attrs = Ret (VObj attrs))
  /\ (exists names, get_path vsix (Metadata_0 ++ ["DisplayName"]) = Ret (VArr names))
  /\ (exists d, get_path vsix (Metadata_0 ++ ["Description"; "0"]) = Ret (VObj d))
  /\ (exists m, get_path vsix Metadata_0 = Ret (VObj m))
  /\ (exists pm, get_path vsix ["PackageManifest"] = Ret (VObj pm)).
Proof.
  unfold package_shape. rewrite !andb_true_iff. intros [[H1 H2] H3].
  apply reaches_Ret in H1, H2, H3.
  destruct H1 as (c1 & G1 & K1), H2 as (c2 & G2 & K2), H3 as (c3 & G3 & K3).
  apply is_object_inv in K1, K3. apply isArray_inv in K2.
  destruct K1 as [attrs ->], K2 as [names ->], K3 as [d ->].
  assert (Hm : exists m, get_path vsix Metadata_0 = Ret (VObj m)).
  { apply (get_path_object_parent Metadata_0 "DisplayName" vsix (VArr names)); auto. }
  repeat split; eauto.
  destruct Hm as [m Hm].
  assert (Hx : exists c, get_path vsix ["PackageManifest"; "Metadata"] = Ret c
                         /\ is_container c = true).
  { change Metadata_0 with (["PackageManifest"; "Metadata"] ++ ["0"]) in Hm.
    rewrite get_path_app in Hm.
    destruct (get_path vsix ["PackageManifest"; "Metadata"]) as [c| |] eqn:E;
      cbn [bind] in Hm; try discriminate.
    exists c. split; [reflexivity|].
    eapply get_path_reaches_container; [exact Hm | reflexivity]. }
  destruct Hx as (c & Hc & Hcc).
  apply (get_path_object_parent ["PackageManifest"] "Metadata" vsix c); auto.
Qed.

(* ------------------------------------------------------------------ *)
(** ** The merge rules *)

(** [s.replace(/\\/g, "/")] leaves no backslash, and changes nothing
    else. *)
Lemma slashes_spec (s : string) (i : nat) :
  String.get i (slashes s) =
    match String.get i s with
    | Some c => Some (if Ascii.eqb c backslash then "/"%char else c)
    | None => None
    end.
Proof.
  revert i. induction s as [|c r IH]; intros i; simpl; [reflexivity|].
  destruct i; [reflexivity|]. apply IH.
Qed.

Lemma split_on_nonempty (sep : ascii) (s : string) : split_on sep s <> [].
Proof.
  destruct s as [|c r]; cbn [split_on]; [discriminate|].
  destruct (Ascii.eqb c sep); [discriminate|].
  destruct (split_on sep r); discriminate.
Qed.

(** The replacement of the program and the normalization of the
    specification agree. *)
Lemma slashes_forward (s : string) : slashes s = forward_slashes s.
Proof.
  unfold slashes, forward_slashes.
  induction s as [|c r IH]; [reflexivity|].
  cbn [map_string split_on]. rewrite IH.
  pose proof (split_on_nonempty backslash r) as Hne.
  destruct (Ascii.eqb c backslash).
  - destruct (split_on backslash r) as [|piece pieces]; [congruence|]. reflexivity.
  - destruct (split_on backslash r) as [|piece pieces]; [congruence|].
    destruct pieces; reflexivity.
Qed.



Lemma diverge_app (p r q : list string) :
  diverge p q = true -> diverge (p ++ r) q = true.
Proof.
  revert q. induction p as [|k p IH]; intros [|k2 q]; simpl; try discriminate.
  destruct (String.eqb k k2); auto.
Qed.

Lemma Asset_parent (v list : jsval) :
  get_path v Assets_0_Asset = Ret list ->
  is_container list = true ->
  exists o, get_path v ["PackageManifest"; "Assets"; "0"] = Ret (VObj o).
Proof.
  intros Hg Hc.
  apply (get_path_object_parent ["PackageManifest"; "Assets"; "0"] "Asset" v list);
    auto.
Qed.

Lemma pushAsset_spec (entry v : jsval) (l : list jsval) :
  get_path v Assets_0_Asset = Ret (VArr l) ->
  exists v',
    pushAsset entry v = Ret v'
    /\ get_path v' Assets_0_Asset = Ret (VArr (l ++ [entry]))
    /\ forall q, diverge Assets_0_Asset q = true -> ~ In "length" q ->
                 get_path v' q = get_path v q.
Proof.
  intros Hg. unfold pushAsset. rewrite Hg. cbn [bind].
  destruct (Asset_parent v (VArr l) Hg eq_refl) as [o Ho].
  destruct (set_path_snoc ["PackageManifest"; "Assets"; "0"] v (VObj o)
              (VObj (upsert "Asset" (VArr (l ++ [entry])) o)) "Asset"
              (VArr (l ++ [entry])) Ho eq_refl eq_refl) as (v' & Hs & _ & Hr).
  exists v'. split; [exact Hs|]. split; [exact Hr|].
  intros q Hd Hl. eapply get_path_set_path_other; eauto.
Qed.









(* ------------------------------------------------------------------ *)
(** ** The synthetic manifest asset *)

Lemma baseGet_get_path (p : list string) (v c : jsval) :
  baseGet v p = c -> is_container c = true -> get_path v p = Ret c.
Proof.
  revert v. induction p as [|k r IH]; intros v; simpl.
  - intros -> _. reflexivity.
  - destruct v; try (intros <-; discriminate);
      match goal with
      | |- context [get ?v k] =>
          destruct (get v k) as [w| |]; cbn [bind];
            try (intros <-; discriminate); apply IH
      end.
Qed.

Lemma get_path_baseGet (p : list string) (v c : jsval) :
  get_path v p = Ret c -> baseGet v p = c.
Proof.
  revert v. induction p as [|k r IH]; intros v; simpl.
  - intros [= ->]. reflexivity.
  - destruct (get v k) as [w| |] eqn:E; cbn [bind]; try discriminate.
    intros H. destruct v; try discriminate; apply IH; exact H.
Qed.

Lemma upsert_same (k : string) (x : jsval) (o : props_t) :
  lookup k o = Some x -> upsert k x o = o.
Proof.
  induction o as [|[k' v'] r IH]; simpl; [discriminate|].
  destruct (String.eqb k k') eqn:E.
  - intros [= ->]. reflexivity.
  - intros H. rewrite IH by assumption. reflexivity.
Qed.

Lemma set_nth_same (i : nat) (x : jsval) (l : list jsval) :
  nth_error l i = Some x -> set_nth i x l = l.
Proof.
  revert l. induction i as [|i IH]; intros [|y r]; simpl; try discriminate.
  - intros [= ->]. reflexivity.
  - intros H. rewrite IH by assumption. reflexivity.
Qed.

Lemma set_same (c x : jsval) (k : string) :
  get c k = Ret x -> is_container x = true -> set c k x = Ret c.
Proof.
  intros Hg Hx.
  destruct (get_container_parent c x k Hg Hx) as [[o ->]|(l & i & -> & Hi)];
    simpl in *.
  - destruct (lookup k o) eqn:E; simpl in Hg.
    + injection Hg as ->. rewrite upsert_same by assumption. reflexivity.
    + injection Hg as <-. discriminate.
  - rewrite Hi in *. destruct (String.eqb k "length"); [injection Hg as <-; discriminate|].
    destruct (nth_error l i) eqn:E; simpl in Hg.
    + injection Hg as ->. rewrite set_nth_same by assumption. reflexivity.
    + injection Hg as <-. discriminate.
Qed.

(** Writing back the container that is already there changes nothing. *)
Lemma set_path_same (p : list string) (v x : jsval) :
  p <> [] -> get_path v p = Ret x -> is_container x = true ->
  set_path v p x = Ret v.
Proof.
  revert v. induction p as [|k r IH]; intros v Hne Hg Hx; [congruence|].
  simpl in Hg. destruct (get v k) as [w| |] eqn:E; cbn [bind] in Hg; try discriminate.
  destruct r as [|k' r'].
  - simpl in Hg. injection Hg as ->. simpl. apply set_same; assumption.
  - rewrite set_path_cons, E. cbn [bind].
    rewrite IH by (try discriminate; assumption). cbn [bind].
    apply set_same; [assumption|].
    eapply get_path_reaches_container; eauto.
Qed.

Lemma lodash_remove_typed (l : list jsval) :
  forallb typed_entry l = true ->
  lodash_remove isVsoManifestAsset l
  = Ret (filter (fun a => negb (is_manifest_entry a)) l).
Proof.
  induction l as [|a r IH]; [reflexivity|]. simpl.
  unfold typed_entry at 1, is_manifest_entry at 1.
  destruct (isVsoManifestAsset a) as [b| |]; try discriminate.
  intros H. cbn [andb bind] in *. rewrite IH by assumption. cbn [bind].
  destruct b; reflexivity.
Qed.

Lemma filter_kept_again (f : jsval -> bool) (l : list jsval) (m : jsval) :
  f m = false -> filter f (filter f l ++ [m]) = filter f l.
Proof.
  intros Hm. rewrite filter_app. simpl. rewrite Hm, List.app_nil_r.
  induction l as [|a r IH]; [reflexivity|]. simpl.
  destruct (f a) eqn:E; simpl; [rewrite E, IH|]; auto.
Qed.

Lemma reserved_is_manifest_entry (a : jsval) :
  reserved_type a = true -> is_manifest_entry a = true.
Proof.
  unfold reserved_type, is_manifest_entry, isVsoManifestAsset.
  destruct (lodash_get a "$.Type" ["$"; "Type"] (VStr "x")); try discriminate.
  intros H. apply String.eqb_eq in H. subst. reflexivity.
Qed.

Lemma no_reserved_among_kept (l : list jsval) :
  filter reserved_type (filter (fun a => negb (is_manifest_entry a)) l) = [].
Proof.
  induction l as [|a r IH]; [reflexivity|]. simpl.
  destruct (is_manifest_entry a) eqn:E; simpl; [exact IH|].
  destruct (reserved_type a) eqn:R; [|exact IH].
  apply reserved_is_manifest_entry in R. congruence.
Qed.

(** Where [_.get] found the asset list, and that the place answers the
    same after the list has been replaced there. *)
Lemma asset_list_place (vsix : jsval) (l : list jsval) :
  asset_list vsix = VArr l ->
  get_path vsix (asset_place vsix) = Ret (VArr l)
  /\ forall l', exists vsix',
       set_path vsix (asset_place vsix) (VArr l') = Ret vsix'
       /\ asset_list vsix' = VArr l'
       /\ asset_place vsix' = asset_place vsix.
Proof.
  intros H.
  assert (Hv : exists top, vsix = VObj top).
  { destruct vsix; eauto; exfalso; revert H; vm_compute; discriminate. }
  destruct Hv as [top ->].
  assert (Hg : get_path (VObj top) (asset_place (VObj top)) = Ret (VArr l)).
  { apply baseGet_get_path; [|reflexivity].
    unfold asset_list, lodash_get in H. fold (asset_place (VObj top)) in H.
    destruct (asset_place (VObj top)); [discriminate|].
    destruct (baseGet (VObj top) (s :: l0)); try discriminate; exact H. }
  split; [exact Hg|]. intros l'.
  unfold asset_list, lodash_get, asset_place, resolved_path in *. cbn [has_key] in *.
  destruct (lookup "PackageManifest.Assets[0].Asset" top) as [found|] eqn:E.
  - eexists. split; [reflexivity|]. cbn [has_key lodash_get resolved_path].
    rewrite lookup_upsert_eq. simpl. rewrite lookup_upsert_eq. auto.
  - destruct (Asset_parent (VObj top) (VArr l) Hg eq_refl) as [o Ho].
    destruct (set_path_snoc ["PackageManifest"; "Assets"; "0"] (VObj top) (VObj o)
                (VObj (upsert "Asset" (VArr l') o)) "Asset" (VArr l') Ho eq_refl eq_refl)
      as (v' & Hs & _ & Hr).
    exists v'. split; [exact Hs|].
    change (["PackageManifest"; "Assets"; "0"] ++ ["Asset"]) with Assets_0_Asset in *.
    assert (Hv' : exists w, v' = VObj (upsert "PackageManifest" w top)).
    { unfold Assets_0_Asset in Hs. rewrite set_path_cons in Hs.
      inv_bind Hs. inv_bind Hs. injection Hs as <-. eauto. }
    destruct Hv' as [w ->].
    cbn [has_key]. rewrite lookup_upsert_ne by discriminate. rewrite E.
    pose proof (get_path_baseGet _ _ _ Hr) as Hb.
    unfold Assets_0_Asset in *. rewrite Hb. auto.
Qed.

(** C6.  For a package manifest whose asset list is an array of entries
    with string (or no) types, [prepManifests] leaves the list without
    the former entries of the reserved type and with the synthetic entry
    at its end, and running it a second time on the result changes
    nothing: the list holds exactly one entry of type
    [Microsoft.VSO.Manifest], pointing at [extension.vsomanifest]. *)
Theorem prepManifests_idempotent (vsix : jsval) (l : list jsval) :
  asset_list vsix = VArr l ->
  forallb typed_entry l = true ->
  exists once,
    prepManifests vsix = Ret once
    /\ prepManifests once = Ret once
    /\ asset_list once
       = VArr (filter (fun a => negb (is_manifest_entry a)) l ++ [manifestAsset])
    /\ filter reserved_type
         (filter (fun a => negb (is_manifest_entry a)) l ++ [manifestAsset])
       = [manifestAsset].
Proof.
  intros Hl Ht.
  set (kept := filter (fun a => negb (is_manifest_entry a)) l).
  destruct (asset_list_place vsix l Hl) as [_ Hput].
  destruct (Hput (kept ++ [manifestAsset])) as (once & Hs & Hl1 & Hp1).
  exists once.
  assert (Hfirst : prepManifests vsix = Ret once).
  { unfold prepManifests. fold (asset_list vsix). rewrite Hl. cbn [truthy].
    rewrite (lodash_remove_typed l Ht). cbn [bind]. exact Hs. }
  fold (asset_place vsix) in *.
  split; [exact Hfirst|]. split; [|split].
  - unfold prepManifests. fold (asset_list once). rewrite Hl1. cbn [truthy].
    assert (Ht1 : forallb typed_entry (kept ++ [manifestAsset]) = true).
    { rewrite forallb_app. apply andb_true_iff. split; [|reflexivity].
      unfold kept. clear -Ht. induction l as [|a r IH]; [reflexivity|].
      simpl in *. apply andb_true_iff in Ht. destruct Ht as [Ha Hr].
      destruct (is_manifest_entry a); simpl; [auto|]. rewrite Ha. auto. }
    rewrite (lodash_remove_typed _ Ht1). cbn [bind].
    unfold kept. rewrite filter_kept_again by reflexivity. fold kept.
    destruct (asset_list_place once _ Hl1) as [Hg _].
    fold (asset_place once). apply set_path_same; [|exact Hg|reflexivity].
    rewrite Hp1. unfold asset_place, resolved_path. destruct (has_key _ _); discriminate.
  - exact Hl1.
  - rewrite filter_app. unfold kept. rewrite no_reserved_among_kept. reflexivity.
Qed.

Lemma prepManifests_idempotent_witness :
  exists once,
    prepManifests vsix_with_stale_entries = Ret once
    /\ prepManifests once = Ret once
    /\ asset_list once
       = VArr [VObj [("$", VObj [("Type", VStr "Microsoft.VSO.LargeIcon");
                                 ("d:Source", VStr "File");
                                 ("Path", VStr "img/logo.png")])];
               manifestAsset]
    /\ filter reserved_type
         [VObj [("$", VObj [("Type", VStr "Microsoft.VSO.LargeIcon");
                            ("d:Source", VStr "File");
                            ("Path", VStr "img/logo.png")])];
          manifestAsset]
       = [manifestAsset].
Proof.
  apply (prepManifests_idempotent vsix_with_stale_entries
           [VObj [("$", VObj [("Type", VStr "microsoft.vso.manifest");
                              ("Path", VStr "old.vsomanifest")])];
            VObj [("$", VObj [("Type", VStr "Microsoft.VSO.LargeIcon");
                              ("d:Source", VStr "File");
                              ("Path", VStr "img/logo.png")])];
            manifestAsset]); reflexivity.
Defined.

(** C6 as stated fails on two accumulators.  The first is what the
    merge makes of an asset declared with the number 5 for its type: the
    step throws a TypeError and adds no entry.  The second has no asset
    list: the first run leaves a list that holds a list with the
    synthetic entry, and no entry of the reserved type of its own; the
    second run changes it again. *)
Lemma prepManifests_not_idempotent_counterexample :
  (asset_list (snd (merged_of partials_with_numeric_type))
   = VArr [VObj [("$", VObj [("Type", VNum 5); ("d:Source", VStr "File");
                             ("Path", VStr "manifests/a.txt")])]]
   /\ prepManifests (snd (merged_of partials_with_numeric_type)) = Throw TypeError)
  /\ (exists once twice,
        prepManifests vsix_without_assets = Ret once
        /\ asset_list once = VArr [VArr [manifestAsset]]
        /\ filter reserved_type [VArr [manifestAsset]] = []
        /\ prepManifests once = Ret twice
        /\ asset_list twice = VArr [VArr [manifestAsset]; manifestAsset]
        /\ twice <> once).
Proof.
  split; [split; vm_compute; reflexivity|].
  eexists. eexists.
  split; [vm_compute; reflexivity|].
  split; [vm_compute; reflexivity|].
  split; [vm_compute; reflexivity|].
  split; [vm_compute; reflexivity|].
  split; [vm_compute; reflexivity|].
  vm_compute. discriminate.
Qed.

(* ------------------------------------------------------------------ *)
(** ** Loading and path resolution *)

Lemma forEach_app {A S} (xs ys : list A) (body : A -> S -> res S) (s : S) :
  forEach (xs ++ ys) body s = (s' <- forEach xs body s ;; forEach ys body s').
Proof.
  revert s. induction xs as [|x r IH]; intros s; simpl; [reflexivity|].
  destruct (body x s); simpl; auto.
Qed.

Lemma mapM_app_throw {A B} (f : A -> res B) (pre : list A) (bad : A)
    (post : list A) (e : exn) :
  Forall (fun a => exists b, f a = Ret b) pre ->
  f bad = Throw e ->
  mapM f (pre ++ bad :: post) = Throw e.
Proof.
  intros Hpre Hbad. induction Hpre as [|a r [b Hb] _ IH]; simpl.
  - rewrite Hbad. reflexivity.
  - rewrite Hb. cbn [bind]. rewrite IH. reflexivity.
Qed.

Section MergerFacts.
Variable JSON_parse : string -> option jsval.
Variable readFile : string -> option string.
Variable path_isAbsolute : string -> bool.
Variable path_dirname : string -> string.
Variable path_join : string -> string -> string.
Variable path_relative : string -> string -> string.
Variable root : string.
Variable default_vsixmanifest : jsval.

Let load := loadManifest JSON_parse readFile.
Let resolve1 := resolveAsset path_isAbsolute path_dirname path_join path_relative root.
Let resolve := resolveAssets path_isAbsolute path_dirname path_join path_relative root.
Let merge1 := mergePartial path_isAbsolute path_dirname path_join path_relative root.
Let run := merge JSON_parse readFile path_isAbsolute path_dirname path_join
             path_relative root default_vsixmanifest.

Lemma loadManifest_parse_failure (file data : string) :
  readFile file = Some data -> JSON_parse data = None ->
  load file =
    ([Log ("Error parsing the JSON in " ++ file ++ ": "); Log data],
     Throw SyntaxError).
Proof.
  intros Hr Hp. unfold load, loadManifest.
  rewrite Hr, Hp. reflexivity.
Qed.

Lemma loadManifest_Ret (file : string) (log : list console_line) (partial : jsval) :
  load file = (log, Ret partial) ->
  exists data result,
    readFile file = Some data
    /\ JSON_parse data = Some result
    /\ set result "__origin" (VStr file) = Ret partial.
Proof.
  unfold load, loadManifest.
  destruct (readFile file) as [data|] eqn:Er; [|discriminate].
  destruct (JSON_parse data) as [result|] eqn:Ep; [|discriminate].
  destruct (set result "__origin" (VStr file)) eqn:E; try discriminate.
  intros [= <- <-]. eauto.
Qed.

Lemma Q_all_Ret {A} (ps : list (res A)) (l : list A) :
  Q_all ps = Ret l -> Forall2 (fun p a => p = Ret a) ps l.
Proof.
  revert l. induction ps as [|p r IH]; intros l; simpl.
  - intros [= <-]. constructor.
  - destruct p as [a| |]; cbn [bind]; try discriminate.
    destruct (Q_all r) as [l'| |]; cbn [bind]; try discriminate.
    intros [= <-]. constructor; auto.
Qed.

Lemma Q_all_not_Ret {A} (ps : list (res A)) (p : res A) :
  In p ps -> (forall a, p <> Ret a) -> forall l, Q_all ps <> Ret l.
Proof.
  intros Hin Hp l H. apply Q_all_Ret in H.
  induction H as [|q a r l' Hq _ IH]; [contradiction|].
  destruct Hin as [->|Hin]; [exact (Hp a Hq)|auto].
Qed.

(** The settlement of the promise and the console, case by case. *)
Lemma merge_cases (files : list string) :
  let loads := map load files in
  (exists e, run files = (flat_map fst loads ++ [Error e], Ret VUndef))
  \/ run files = (flat_map fst loads, Unmodelled)
  \/ (exists vsix0 partials vso vsix,
        set default_vsixmanifest "__meta_root" (VStr root) = Ret vsix0
        /\ Q_all (map snd loads) = Ret partials
        /\ forEach partials merge1
             (VObj [("__meta_root", VStr root)], vsix0) = Ret (vso, vsix)
        /\ run files = (flat_map fst loads, Ret (SplitManifest vso vsix))).
Proof.
  intros loads. unfold run, merge. fold load. fold loads.
  fold merge1.
  destruct (set default_vsixmanifest "__meta_root" (VStr root)) as [vsix0| |] eqn:E0;
    cbn [bind];
    [ | left; eexists; reflexivity | right; left; reflexivity ].
  destruct (Q_all (map snd loads)) as [partials| |] eqn:E1; cbn [bind];
    [ | left; eexists; reflexivity | right; left; reflexivity ].
  destruct (forEach partials merge1 _) as [[vso vsix]| |] eqn:E2; cbn [bind];
    [ | left; eexists; reflexivity | right; left; reflexivity ].
  right. right. exists vsix0, partials, vso, vsix. auto.
Qed.

(** Whatever is thrown while the partial manifests are merged ends up on
    the console, and the promise is fulfilled with [undefined]. *)
Lemma merge_swallows (files : list string) (vsix0 : jsval) (partials : list jsval)
    (e : exn) :
  set default_vsixmanifest "__meta_root" (VStr root) = Ret vsix0 ->
  Q_all (map snd (map load files)) = Ret partials ->
  forEach partials merge1 (VObj [("__meta_root", VStr root)], vsix0) = Throw e ->
  run files = (flat_map fst (map load files) ++ [Error e], Ret VUndef).
Proof.
  intros H0 Hq Hf. unfold run, merge. fold load. fold merge1.
  rewrite H0. cbn [bind]. rewrite Hq. cbn [bind]. rewrite Hf. reflexivity.
Qed.

Lemma load_logs_In (files : list string) (file : string) (line : console_line) :
  In file files -> In line (fst (load file)) ->
  In line (flat_map fst (map load files)).
Proof.
  intros Hin Hl. apply in_flat_map. exists (load file).
  split; [apply in_map; exact Hin | exact Hl].
Qed.

Lemma merge_parse_failure (files : list string) (file data : string) :
  In file files -> readFile file = Some data -> JSON_parse data = None ->
  In (Log ("Error parsing the JSON in " ++ file ++ ": ")) (fst (run files))
  /\ In (Log data) (fst (run files))
  /\ (forall e, snd (run files) <> Throw e)
  /\ (forall v, snd (run files) = Ret v -> v = VUndef).
Proof.
  intros Hin Hr Hp.
  pose proof (loadManifest_parse_failure file data Hr Hp) as Hload.
  assert (Hlogs : forall line,
             In line [Log ("Error parsing the JSON in " ++ file ++ ": "); Log data] ->
             In line (flat_map fst (map load files))).
  { intros line Hl. apply (load_logs_In files file line Hin).
    rewrite Hload. exact Hl. }
  destruct (merge_cases files) as [[e He]|[Hu|(vsix0 & partials & vso & vsix & _ & Hq & _)]].
  - rewrite He. cbn [fst snd]. repeat split.
    + apply in_or_app. left. apply Hlogs. left. reflexivity.
    + apply in_or_app. left. apply Hlogs. right. left. reflexivity.
    + discriminate.
    + congruence.
  - rewrite Hu. cbn [fst snd]. repeat split.
    + apply Hlogs. left. reflexivity.
    + apply Hlogs. right. left. reflexivity.
    + discriminate.
    + discriminate.
  - exfalso. apply (Q_all_not_Ret (map snd (map load files))
                      (snd (load file))) with (l := partials).
    + apply in_map. apply in_map. exact Hin.
    + rewrite Hload. discriminate.
    + exact Hq.
Qed.

Lemma Q_all_Throw {A} (ps : list (res A)) :
  Forall (fun p => p <> Unmodelled) ps ->
  Exists (fun p => forall a, p <> Ret a) ps ->
  exists e, Q_all ps = Throw e.
Proof.
  intros Hall Hex. induction Hall as [|p r Hp Hr IH]; [inversion Hex|].
  simpl. destruct p as [a|e|]; cbn [bind]; [|eauto|congruence].
  inversion Hex as [? ? Hbad|? ? Hrest]; subst; [exfalso; exact (Hbad a eq_refl)|].
  destruct (IH Hrest) as [e ->]. cbn [bind]. eauto.
Qed.

Lemma load_modelled (file : string) :
  (forall data v, readFile file = Some data -> JSON_parse data = Some v ->
                  is_object v = true) ->
  snd (load file) <> Unmodelled.
Proof.
  intros H. unfold load, loadManifest.
  destruct (readFile file) as [data|]; [|discriminate].
  destruct (JSON_parse data) as [v|] eqn:E; [|discriminate].
  specialize (H data v eq_refl E). destruct v; discriminate.
Qed.

(** C7, as amended.  If one of the input files fails to parse, the
    failing file's path and its raw text are written to the console and
    no manifest pair is produced; but the promise returned by [merge] is
    not rejected: the final [catch] reports the error on the console and
    the promise is fulfilled with [undefined].  (The last part is stated
    for inputs inside the embedding: a template that is an object and
    documents that are objects.) *)
Theorem merge_with_unparsable_file (files : list string) (file data : string) :
  In file files -> readFile file = Some data -> JSON_parse data = None ->
  In (Log ("Error parsing the JSON in " ++ file ++ ": ")) (fst (run files))
  /\ In (Log data) (fst (run files))
  /\ (forall e, snd (run files) <> Throw e)
  /\ (forall vso vsix, snd (run files) <> Ret (SplitManifest vso vsix))
  /\ (is_object default_vsixmanifest = true ->
      (forall f d v, In f files -> readFile f = Some d -> JSON_parse d = Some v ->
                     is_object v = true) ->
      exists e, In (Error e) (fst (run files)) /\ snd (run files) = Ret VUndef).
Proof.
  intros Hin Hr Hp.
  destruct (merge_parse_failure files file data Hin Hr Hp) as (L1 & L2 & Hrej & Hund).
  split; [exact L1|]. split; [exact L2|]. split; [exact Hrej|]. split.
  - intros vso vsix H. apply Hund in H. discriminate.
  - intros Ht Hobj.
    destruct (is_object_inv _ Ht) as [t Et].
    assert (Hq : exists e, Q_all (map snd (map load files)) = Throw e).
    { apply Q_all_Throw.
      - apply Forall_forall. intros p Hp'. apply in_map_iff in Hp'.
        destruct Hp' as (ld & <- & Hld). apply in_map_iff in Hld.
        destruct Hld as (f & <- & Hf). apply load_modelled.
        intros d v. apply Hobj. exact Hf.
      - apply Exists_exists. exists (snd (load file)). split.
        + apply in_map. apply in_map. exact Hin.
        + rewrite (loadManifest_parse_failure file data Hr Hp). discriminate. }
    destruct Hq as [e He]. exists e.
    unfold run, merge. rewrite Et. fold load. cbn [set bind]. rewrite He. cbn [bind fst snd].
    split; [|reflexivity]. apply in_or_app. right. left. reflexivity.
Qed.
End MergerFacts.

Lemma merge_with_unparsable_file_witness :
  In (Log "Error parsing the JSON in /r/manifests/broken.json: ")
     (fst (sample_merge template_vsixmanifest sample_files
             ["/r/manifests/a.json"; "/r/manifests/broken.json"]))
  /\ snd (sample_merge template_vsixmanifest sample_files
            ["/r/manifests/a.json"; "/r/manifests/broken.json"]) = Ret VUndef.
Proof.
  destruct (merge_with_unparsable_file parse_json sample_files posix_isAbsolute
              posix_dirname posix_join posix_relative "/r" template_vsixmanifest
              ["/r/manifests/a.json"; "/r/manifests/broken.json"]
              "/r/manifests/broken.json" "{ oops")
    as (L1 & _ & _ & _ & Hu).
  - right. left. reflexivity.
  - reflexivity.
  - reflexivity.
  - split; [exact L1|]. destruct Hu as (e & _ & He); [reflexivity| |exact He].
    intros f d v [<-|[<-|[]]] Hd; vm_compute in Hd; injection Hd as <-;
      vm_compute; intros [= <-]; reflexivity.
Defined.

(** C7 as stated fails: with one well-formed and one broken manifest the
    promise returned by [merge] is fulfilled (with [undefined]); it does
    not carry an error. *)
Lemma merge_result_is_not_an_error_counterexample :
  sample_files "/r/manifests/broken.json" = Some "{ oops"
  /\ parse_json "{ oops" = None
  /\ sample_merge template_vsixmanifest sample_files
       ["/r/manifests/a.json"; "/r/manifests/broken.json"]
     = ([Log "Error parsing the JSON in /r/manifests/broken.json: ";
         Log "{ oops"; Error SyntaxError],
        Ret VUndef)
  /\ forall e, snd (sample_merge template_vsixmanifest sample_files
                      ["/r/manifests/a.json"; "/r/manifests/broken.json"])
               <> Throw e.
Proof.
  split; [reflexivity|]. split; [reflexivity|]. split; [reflexivity|].
  intros e. vm_compute. discriminate.
Qed.

Section PathResolverFacts.
Variable JSON_parse : string -> option jsval.
Variable readFile : string -> option string.
Variable path_isAbsolute : string -> bool.
Variable path_dirname : string -> string.
Variable path_join : string -> string -> string.
Variable path_relative : string -> string -> string.
Variable root : string.
Variable default_vsixmanifest : jsval.

Let load := loadManifest JSON_parse readFile.
Let resolve1 := resolveAsset path_isAbsolute path_dirname path_join path_relative root.
Let resolve := resolveAssets path_isAbsolute path_dirname path_join path_relative root.
Let merge1 := mergePartial path_isAbsolute path_dirname path_join path_relative root.
Let run := merge JSON_parse readFile path_isAbsolute path_dirname path_join
             path_relative root default_vsixmanifest.

Lemma resolveAsset_keys (partial asset : jsval) (keys : list string) :
  Object_keys asset = Ret keys ->
  declares_type_and_path keys = false ->
  resolve1 partial asset = Throw (Thrown (VStr msg_asset_keys)).
Proof.
  intros Hk Hd. unfold resolve1, resolveAsset. rewrite Hk. cbn [bind].
  unfold declares_type_and_path in Hd.
  destruct (List.length keys =? 2)%nat, (mem "type" keys), (mem "path" keys);
    try discriminate; reflexivity.
Qed.

Lemma resolveAsset_absolute (partial asset : jsval) (keys : list string) (p : string) :
  Object_keys asset = Ret keys ->
  declares_type_and_path keys = true ->
  get asset "path" = Ret (VStr p) ->
  path_isAbsolute p = true ->
  resolve1 partial asset = Throw (Thrown (VStr msg_asset_relative)).
Proof.
  intros Hk Hd Hp Ha. unfold resolve1, resolveAsset. rewrite Hk. cbn [bind].
  unfold declares_type_and_path in Hd.
  destruct (List.length keys =? 2)%nat, (mem "type" keys), (mem "path" keys);
    try discriminate.
  cbn [negb orb]. rewrite Hp. cbn [bind]. rewrite Ha. reflexivity.
Qed.

Lemma resolveAssets_throw (partial : jsval) (pre post : list jsval) (bad : jsval)
    (e : exn) :
  get partial "assets" = Ret (VArr (pre ++ bad :: post)) ->
  Forall (fun a => exists a', resolve1 partial a = Ret a') pre ->
  resolve1 partial bad = Throw e ->
  resolve partial = Throw e.
Proof.
  intros Hg Hpre Hbad. unfold resolve, resolveAssets. rewrite Hg. cbn [bind].
  fold resolve1. rewrite (mapM_app_throw _ pre bad post e Hpre Hbad). reflexivity.
Qed.

Lemma mergePartial_throw (partial : jsval) (acc : jsval * jsval) (e : exn) :
  resolve partial = Throw e -> merge1 partial acc = Throw e.
Proof.
  intros H. unfold merge1, mergePartial. fold resolve. rewrite H. reflexivity.
Qed.

(** C8, as amended.  During asset-path resolution the entries of a
    partial manifest's [assets] array are checked one after the other.
    An entry (an object or an array) whose keys are not exactly [type]
    and [path] makes the resolver throw
    ["Assets must have a type and a path."]; an entry with exactly these
    two keys whose [path] is an absolute path string makes it throw
    ["Paths in manifests must be relative."].  The first entry that
    throws ends the merge: the error is reported on the console and the
    promise of [merge] is fulfilled with [undefined], so that no manifest
    pair reaches the archive writer. *)
Theorem asset_declarations_are_validated :
  (forall (partial asset : jsval) (keys : list string),
      Object_keys asset = Ret keys ->
      declares_type_and_path keys = false ->
      resolve1 partial asset = Throw (Thrown (VStr msg_asset_keys)))
  /\ (forall (partial asset : jsval) (keys : list string) (p : string),
         Object_keys asset = Ret keys ->
         declares_type_and_path keys = true ->
         get asset "path" = Ret (VStr p) ->
         path_isAbsolute p = true ->
         resolve1 partial asset = Throw (Thrown (VStr msg_asset_relative)))
  /\ (forall (files : list string) (vsix0 : jsval)
             (before after : list jsval) (partial : jsval) (acc : jsval * jsval)
             (pre post : list jsval) (bad : jsval) (e : exn),
         set default_vsixmanifest "__meta_root" (VStr root) = Ret vsix0 ->
         Q_all (map snd (map load files)) = Ret (before ++ partial :: after) ->
         forEach before merge1 (VObj [("__meta_root", VStr root)], vsix0) = Ret acc ->
         get partial "assets" = Ret (VArr (pre ++ bad :: post)) ->
         Forall (fun a => exists a', resolve1 partial a = Ret a') pre ->
         resolve1 partial bad = Throw e ->
         run files = (flat_map fst (map load files) ++ [Error e], Ret VUndef)).
Proof.
  split; [exact resolveAsset_keys|]. split; [exact resolveAsset_absolute|].
  intros files vsix0 before after partial acc pre post bad e H0 Hq Hb Hg Hpre Hbad.
  apply (merge_swallows JSON_parse readFile path_isAbsolute path_dirname path_join
           path_relative root default_vsixmanifest files vsix0
           (before ++ partial :: after) e H0 Hq).
  rewrite forEach_app. fold merge1. rewrite Hb. cbn [bind forEach].
  rewrite (mergePartial_throw partial acc e); [reflexivity|].
  apply (resolveAssets_throw partial pre post bad e Hg Hpre Hbad).
Qed.
End PathResolverFacts.

Lemma asset_declarations_are_validated_witness :
  resolveAsset posix_isAbsolute posix_dirname posix_join posix_relative "/r"
    (partial_at "/r/manifests/b.json" [pathless_asset]) pathless_asset
  = Throw (Thrown (VStr msg_asset_keys))
  /\ resolveAsset posix_isAbsolute posix_dirname posix_join posix_relative "/r"
       (partial_at "/r/manifests/b.json" [absolute_asset]) absolute_asset
     = Throw (Thrown (VStr msg_asset_relative))
  /\ sample_merge template_vsixmanifest files_with_absolute_asset
       ["/r/manifests/a.json"; "/r/manifests/b.json"]
     = ([Error (Thrown (VStr msg_asset_relative))], Ret VUndef).
Proof.
  destruct (asset_declarations_are_validated parse_json files_with_absolute_asset
              posix_isAbsolute posix_dirname posix_join posix_relative "/r"
              template_vsixmanifest) as (Hkeys & Habs & Hrun).
  split; [|split].
  - apply (Hkeys _ pathless_asset ["type"]); reflexivity.
  - apply (Habs _ absolute_asset ["type"; "path"] "/etc/passwd"); reflexivity.
  - eapply (Hrun ["/r/manifests/a.json"; "/r/manifests/b.json"])
      with (before := [VObj [("name", VStr "N");
                             ("__origin", VStr "/r/manifests/a.json")]])
           (after := [])
           (partial := VObj [("assets", VArr [absolute_asset]);
                             ("__origin", VStr "/r/manifests/b.json")])
           (pre := []) (post := []) (bad := absolute_asset);
      try reflexivity.
    constructor.
Defined.

(** C8 as stated fails in two ways.  An entry with an absolute path and a
    third key makes the resolver throw the message about the keys, not
    ["Paths in manifests must be relative."]; and an entry that is [null]
    has not exactly the two keys, yet what is thrown is the TypeError of
    [Object.keys(null)]. *)
Lemma asset_validation_counterexample :
  get absolute_with_extra_key "path" = Ret (VStr "/etc/passwd")
  /\ posix_isAbsolute "/etc/passwd" = true
  /\ resolveAsset posix_isAbsolute posix_dirname posix_join posix_relative "/r"
       (partial_at "/r/manifests/b.json" [absolute_with_extra_key])
       absolute_with_extra_key
     = Throw (Thrown (VStr msg_asset_keys))
  /\ msg_asset_keys <> msg_asset_relative
  /\ resolveAsset posix_isAbsolute posix_dirname posix_join posix_relative "/r"
       (partial_at "/r/manifests/b.json" [VNull]) VNull
     = Throw TypeError.
Proof.
  repeat (split; [reflexivity || discriminate|]). reflexivity.
Qed.

(* ------------------------------------------------------------------ *)
(** ** What reaches the serializers *)

Ltac mergeKey_branch H :=
  match type of H with
  | context [if String.eqb ?a ?b then _ else _] =>
      let E := fresh "Ekey" in
      destruct (String.eqb a b) eqn:E; cbv iota in H; [ | mergeKey_branch H ]
  | _ => idtac
  end.

Lemma mergeKey_unrecognized (key : string) (value vso vsix : jsval) :
  mem (toLowerCase key) recognized_keys = false ->
  mergeKey key value vso vsix = Ret (vso, vsix).
Proof.
  intros H. unfold mem, recognized_keys in H. cbn [existsb] in H.
  repeat (apply orb_false_iff in H; destruct H as [?E H]).
  unfold mergeKey. cbv zeta.
  repeat match goal with
         | E : String.eqb _ _ = false |- _ => rewrite E; clear E
         end.
  reflexivity.
Qed.

Lemma keys_upsert (k0 k : string) (v : jsval) (o : props_t) :
  In k (map fst (upsert k0 v o)) -> k = k0 \/ In k (map fst o).
Proof.
  induction o as [|[k1 v1] r IH]; simpl.
  - intros [->|[]]. auto.
  - destruct (String.eqb k0 k1); simpl; intros [->|H]; auto.
    destruct (IH H); auto.
Qed.

Lemma grows_refl (allowed : list string) (v : jsval) : grows_within allowed v v.
Proof. intros H. split; auto. Qed.

Lemma grows_trans (allowed : list string) (a b c : jsval) :
  grows_within allowed a b -> grows_within allowed b c -> grows_within allowed a c.
Proof.
  intros H1 H2 Ha. destruct (H1 Ha) as [Hb K1]. destruct (H2 Hb) as [Hc K2].
  split; [exact Hc|]. intros k Hk. destruct (K2 k Hk) as [H|H]; auto.
Qed.

Lemma grows_set (allowed : list string) (v v' x : jsval) (k : string) :
  In k allowed -> set v k x = Ret v' -> grows_within allowed v v'.
Proof.
  intros Hin Hs Hv. destruct v; try discriminate. injection Hs as <-.
  split; [reflexivity|]. intros k' Hk'. simpl in Hk'.
  destruct (keys_upsert _ _ _ _ Hk'); subst; auto.
Qed.

Lemma grows_set_path (allowed : list string) (v v' x : jsval) (k : string)
    (r : list string) :
  In k allowed -> set_path v (k :: r) x = Ret v' -> grows_within allowed v v'.
Proof.
  intros Hin Hs. destruct r as [|k' r'].
  - simpl in Hs. eapply grows_set; eauto.
  - rewrite set_path_cons in Hs. inv_bind Hs. inv_bind Hs.
    eapply grows_set; eauto.
Qed.

Lemma grows_forEach {A} (allowed : list string) (xs : list A)
    (body : A -> jsval -> res jsval) (v v' : jsval) :
  (forall x a b, body x a = Ret b -> grows_within allowed a b) ->
  forEach xs body v = Ret v' -> grows_within allowed v v'.
Proof.
  intros Hbody. revert v. induction xs as [|x r IH]; intros v; simpl.
  - intros [= <-]. apply grows_refl.
  - intros H. inv_bind H. eapply grows_trans; eauto.
Qed.

Lemma mergeInto_grows (field : string) (c : option customizer) (value vso vso' : jsval) :
  In field service_fields ->
  mergeInto field c value vso = Ret vso' -> grows_within service_fields vso vso'.
Proof.
  intros Hin H. unfold mergeInto in H. inv_bind H.
  destruct (truthy a).
  - cbn [bind] in H. inv_bind H. eapply grows_set; eauto.
  - inv_bind H. destruct a0 as [vso1 cur]. inv_bind Ha0. injection Ha0 as <- <-.
    inv_bind H. eapply grows_trans; eapply grows_set; eauto.
Qed.

Lemma pushAsset_grows (entry v v' : jsval) :
  pushAsset entry v = Ret v' -> grows_within ["PackageManifest"] v v'.
Proof.
  unfold pushAsset. intros H. inv_bind H.
  destruct a; try discriminate.
  eapply grows_set_path; [|exact H]. left. reflexivity.
Qed.

Ltac in_list :=
  cbv [In service_fields]; repeat (first [left; reflexivity | right]).

Ltac grows :=
  first
    [ apply grows_refl
    | match goal with
      | H : set ?v ?k _ = Ret ?v' |- grows_within _ ?v ?v' =>
          eapply (grows_set _ v v' _ k); [in_list | exact H]
      end
    | match goal with
      | H : set_path ?v ?p _ = Ret ?v' |- grows_within _ ?v ?v' =>
          let p' := eval cbn in p in
          change p with p' in H;
          eapply grows_set_path; [|exact H]; in_list
      end
    | match goal with
      | H : mergeInto ?f _ _ ?v = Ret ?v' |- grows_within _ ?v ?v' =>
          eapply (mergeInto_grows f _ _ v v'); [in_list | exact H]
      end ].

(** One merged key adds at most the fields of the service manifest to
    the one document, and at most [PackageManifest] to the other. *)
Lemma mergeKey_grows (key : string) (value vso vsix vso' vsix' : jsval) :
  mergeKey key value vso vsix = Ret (vso', vsix') ->
  grows_within service_fields vso vso'
  /\ grows_within ["PackageManifest"] vsix vsix'.
Proof.
  intros H. unfold mergeKey in H. cbv zeta in H. mergeKey_branch H;
    repeat match type of H with
           | bind _ _ = Ret _ => inv_bind H
           | Ret _ = Ret _ => injection H as <- <-
           end;
    try (split; grows).
  destruct value;
    repeat match type of H with
           | bind _ _ = Ret _ => inv_bind H
           | Ret _ = Ret _ => injection H as <- <-
           end;
    split; try apply grows_refl.
  eapply grows_trans.
  - eapply grows_set_path; [|exact Ha]. in_list.
  - eapply grows_forEach; [|eassumption].
    intros x u w Hb. inv_bind Hb. eapply pushAsset_grows; eauto.
Qed.

Lemma lookup_In_keys (k : string) (o : props_t) (v : jsval) :
  lookup k o = Some v -> In k (map fst o).
Proof.
  induction o as [|[k' v'] r IH]; simpl; [discriminate|].
  destruct (String.eqb k k') eqn:E.
  - apply String.eqb_eq in E. auto.
  - auto.
Qed.

Lemma grows_weaken (allowed allowed' : list string) (v v' : jsval) :
  incl allowed allowed' -> grows_within allowed v v' -> grows_within allowed' v v'.
Proof.
  intros Hi H Hv. destruct (H Hv) as [Hv' K]. split; [exact Hv'|].
  intros k Hk. destruct (K k Hk); auto.
Qed.

Lemma grows_set_existing (allowed : list string) (v v' x : jsval) (k : string) :
  has_key v k = true -> set v k x = Ret v' -> grows_within allowed v v'.
Proof.
  intros Hk Hs Hv. destruct v; try discriminate. injection Hs as <-.
  split; [reflexivity|]. intros k' Hk'. simpl in *.
  destruct (keys_upsert _ _ _ _ Hk') as [->|H]; [|auto].
  left. destruct (lookup k props) eqn:E; [|discriminate].
  eapply lookup_In_keys; eauto.
Qed.

Lemma set_walk_grows (allowed : list string) (v v' x : jsval) (k : string)
    (r : list string) :
  In k allowed \/ has_key v k = true ->
  set_walk v (k :: r) x = Ret v' -> grows_within allowed v v'.
Proof.
  intros Hk Hs Hv. destruct v; try discriminate.
  assert (H : exists w, set (VObj props) k w = Ret v').
  { cbn [set_walk] in Hs. destruct r; [eauto|]. inv_bind Hs. inv_bind Hs. eauto. }
  destruct H as [w Hw]. destruct Hk as [Hk|Hk].
  - eapply grows_set; eauto.
  - eapply grows_set_existing; eauto.
Qed.

Lemma prepManifests_grows (vsix vsix1 : jsval) :
  prepManifests vsix = Ret vsix1 -> grows_within ["PackageManifest"] vsix vsix1.
Proof.
  unfold prepManifests. intros H Hv.
  destruct (is_object_inv _ Hv) as [top ->].
  destruct (truthy _).
  - destruct (lodash_get _ _ _ _); try discriminate. inv_bind H.
    unfold resolved_path in H.
    destruct (has_key (VObj top) "PackageManifest.Assets[0].Asset") eqn:Ek.
    + cbn [set_path] in H. eapply grows_set_existing; eauto.
    + eapply grows_set_path; [|exact H|reflexivity]. left. reflexivity.
  - unfold lodash_set, resolved_path in H.
    destruct (has_key (VObj top) "PackageManifest.Assets[0].Asset[0]") eqn:Ek.
    + eapply set_walk_grows; [|exact H|reflexivity]. right. exact Ek.
    + eapply set_walk_grows; [|exact H|reflexivity]. left. left. reflexivity.
Qed.

Lemma removeMetaKeys_object (o : props_t) (doc : jsval) :
  removeMetaKeys (VObj o) = Ret doc ->
  doc = VObj (filter (fun kv => negb (String.prefix "__meta_" (fst kv))) o).
Proof.
  unfold removeMetaKeys, omit_keys.
  destruct (mem "__proto__" (map fst o)); [discriminate|]. congruence.
Qed.

Lemma lookup_filter_keys (f : string -> bool) (k : string) (o : props_t) :
  lookup k (filter (fun kv => f (fst kv)) o) = if f k then lookup k o else None.
Proof.
  induction o as [|[k' v'] r IH]; simpl; [destruct (f k); reflexivity|].
  destruct (f k') eqn:Ef; simpl; destruct (String.eqb k k') eqn:E; auto.
  - apply String.eqb_eq in E. subst. rewrite Ef. reflexivity.
  - apply String.eqb_eq in E. subst. rewrite Ef in *. exact IH.
Qed.

Lemma keys_filter (f : string -> bool) (k : string) (o : props_t) :
  In k (map fst (filter (fun kv => f (fst kv)) o)) ->
  f k = true /\ In k (map fst o).
Proof.
  intros H. apply in_map_iff in H. destruct H as ([k' v] & <- & Hin).
  apply filter_In in Hin. destruct Hin as [Hin Hf]. split; [exact Hf|].
  apply in_map_iff. exists (k', v). auto.
Qed.

Section SerializerFacts.
Variable JSON_parse : string -> option jsval.
Variable readFile : string -> option string.
Variable path_isAbsolute : string -> bool.
Variable path_dirname : string -> string.
Variable path_join : string -> string -> string.
Variable path_relative : string -> string -> string.
Variable root : string.
Variable default_vsixmanifest : jsval.

Let load := loadManifest JSON_parse readFile.
Let merge1 := mergePartial path_isAbsolute path_dirname path_join path_relative root.
Let run := merge JSON_parse readFile path_isAbsolute path_dirname path_join
             path_relative root default_vsixmanifest.

Lemma mergeKeys_grow (partial : jsval) (keys : list string) (acc acc' : jsval * jsval) :
  forEach keys
    (fun key '(vsoManifest, vsixManifest) =>
       value <- get partial key ;;
       mergeKey key value vsoManifest vsixManifest) acc = Ret acc' ->
  grows_within service_fields (fst acc) (fst acc')
  /\ grows_within ["PackageManifest"] (snd acc) (snd acc').
Proof.
  revert acc. induction keys as [|key r IH]; intros [vso vsix]; simpl.
  - intros [= <-]. split; apply grows_refl.
  - intros H. inv_bind H. destruct a as [vso1 vsix1]. inv_bind Ha.
    destruct acc' as [vso' vsix'].
    destruct (mergeKey_grows _ _ _ _ _ _ Ha) as [G1 G2].
    destruct (IH _ H) as [G3 G4]. simpl in *.
    split; eapply grows_trans; eauto.
Qed.

Lemma mergePartial_grows (partial : jsval) (acc acc' : jsval * jsval) :
  merge1 partial acc = Ret acc' ->
  grows_within service_fields (fst acc) (fst acc')
  /\ grows_within ["PackageManifest"] (snd acc) (snd acc').
Proof.
  unfold merge1, mergePartial. intros H. inv_bind H. inv_bind H.
  eapply mergeKeys_grow; eauto.
Qed.

Lemma mergePartials_grow (partials : list jsval) (acc acc' : jsval * jsval) :
  forEach partials merge1 acc = Ret acc' ->
  grows_within service_fields (fst acc) (fst acc')
  /\ grows_within ["PackageManifest"] (snd acc) (snd acc').
Proof.
  revert acc. induction partials as [|p r IH]; intros acc; simpl.
  - intros [= <-]. split; apply grows_refl.
  - intros H. inv_bind H.
    destruct (mergePartial_grows _ _ _ Ha) as [G1 G2].
    destruct (IH _ H) as [G3 G4].
    split; eapply grows_trans; eauto.
Qed.

(** The top-level names of the two manifests that [merge] resolves to. *)
Lemma merge_top_level (files : list string) (log : list console_line)
    (vso vsix : jsval) (t : props_t) :
  default_vsixmanifest = VObj t ->
  run files = (log, Ret (SplitManifest vso vsix)) ->
  (is_object vso = true
   /\ forall k, In k (keys_of vso) -> k = "__meta_root" \/ In k service_fields)
  /\ (is_object vsix = true
      /\ forall k, In k (keys_of vsix) ->
                   k = "__meta_root" \/ k = "PackageManifest" \/ In k (map fst t)).
Proof.
  intros Ht Hrun.
  destruct (merge_cases JSON_parse readFile path_isAbsolute path_dirname path_join
              path_relative root default_vsixmanifest files)
    as [[e He]|[Hu|(vsix0 & partials & vso1 & vsix1 & H0 & _ & Hf & Hr)]];
    unfold run in Hrun;
    [ rewrite Hrun in He; unfold SplitManifest in He; discriminate
    | rewrite Hrun in Hu; discriminate | ].
  rewrite Hrun in Hr. unfold SplitManifest in Hr. injection Hr as -> -> ->.
  fold merge1 in Hf. destruct (mergePartials_grow _ _ _ Hf) as [G1 G2].
  cbn [fst snd] in *. rewrite Ht in H0. injection H0 as <-.
  destruct (G1 eq_refl) as [O1 K1]. destruct (G2 eq_refl) as [O2 K2].
  split; split; auto.
  - intros k Hk. destruct (K1 k Hk) as [[<-|[]]|H]; auto.
  - intros k Hk. destruct (K2 k Hk) as [H|[<-|[]]]; auto.
    simpl in H. destruct (keys_upsert _ _ _ _ H); auto.
Qed.

(** C4.  [removeMetaKeys] returns the properties of a document except
    those whose name begins with [__meta_]; the origin path that the
    loader attaches to a partial manifest as [__origin] (like any key
    outside the dispatch table) is not merged into either accumulator;
    and after a merge the documents that the manifest writer hands to
    the JSON and XML serializers carry, at top level, none but the fields
    of the service manifest, resp. none but [PackageManifest] and the
    names of the template without the prefix: no [__meta_] key and no
    [__origin] reaches the output. *)
Theorem internal_keys_are_not_emitted :
  (forall (o : props_t) (doc : jsval),
      removeMetaKeys (VObj o) = Ret doc ->
      exists o', doc = VObj o'
        /\ forall k, lookup k o' =
                       if String.prefix "__meta_" k then None else lookup k o)
  /\ (forall value vso vsix : jsval,
         mergeKey "__origin" value vso vsix = Ret (vso, vsix))
  /\ (forall (files : list string) (log : list console_line) (t : props_t)
             (vso vsix vsix1 : jsval) (docs : jsval * jsval),
         default_vsixmanifest = VObj t ->
         run files = (log, Ret (SplitManifest vso vsix)) ->
         prepManifests vsix = Ret vsix1 ->
         ManifestWriter_new vso vsix1 = Ret docs ->
         (forall k, In k (keys_of (fst docs)) -> In k service_fields)
         /\ (forall k, In k (keys_of (snd docs)) ->
                       String.prefix "__meta_" k = false
                       /\ (k = "PackageManifest" \/ In k (map fst t)))
         /\ ~ In "__origin" (keys_of (fst docs))
         /\ (~ In "__origin" (map fst t) -> ~ In "__origin" (keys_of (snd docs)))).
Proof.
  split; [|split].
  - intros o doc H. apply removeMetaKeys_object in H. subst doc.
    eexists. split; [reflexivity|]. intros k.
    rewrite (lookup_filter_keys (fun k => negb (String.prefix "__meta_" k))).
    destruct (String.prefix "__meta_" k); reflexivity.
  - intros value vso vsix. apply mergeKey_unrecognized. reflexivity.
  - intros files log t vso vsix vsix1 docs Ht Hrun Hprep Hnew.
    destruct (merge_top_level files log vso vsix t Ht Hrun) as [[O1 K1] [O2 K2]].
    destruct (prepManifests_grows vsix vsix1 Hprep O2) as [O3 K3].
    unfold ManifestWriter_new in Hnew. inv_bind Hnew. inv_bind Hnew.
    injection Hnew as <-. cbn [fst snd].
    destruct (is_object_inv _ O1) as [o1 ->]. destruct (is_object_inv _ O3) as [o3 ->].
    apply removeMetaKeys_object in Ha, Ha0. subst a a0. cbn [keys_of] in *.
    assert (S1 : forall k,
               In k (map fst (filter (fun kv => negb (String.prefix "__meta_" (fst kv))) o1)) ->
               In k service_fields).
    { intros k Hk.
      apply (keys_filter (fun k => negb (String.prefix "__meta_" k))) in Hk.
      destruct Hk as [Hp Hk]. destruct (K1 k Hk) as [->|H]; [discriminate|exact H]. }
    assert (S2 : forall k,
               In k (map fst (filter (fun kv => negb (String.prefix "__meta_" (fst kv))) o3)) ->
               String.prefix "__meta_" k = false
               /\ (k = "PackageManifest" \/ In k (map fst t))).
    { intros k Hk.
      apply (keys_filter (fun k => negb (String.prefix "__meta_" k))) in Hk.
      destruct Hk as [Hp Hk]. apply negb_true_iff in Hp. split; [exact Hp|].
      destruct (K3 k Hk) as [H|[<-|[]]]; [|auto].
      destruct (K2 k H) as [->|H']; [discriminate|exact H']. }
    split; [exact S1|]. split; [exact S2|]. split.
    + intros H. apply S1 in H. cbv [In service_fields] in H.
      repeat destruct H as [H|H]; try discriminate; exact H.
    + intros Hno H. apply S2 in H. destruct H as [_ [H|H]]; [discriminate|auto].
Qed.
End SerializerFacts.

Lemma internal_keys_are_not_emitted_witness :
  (forall k, In k (keys_of (VObj [("name", VStr "N")])) -> In k service_fields)
  /\ ~ In "__origin" (keys_of (VObj [("name", VStr "N")])).
Proof.
  destruct (internal_keys_are_not_emitted parse_json sample_files posix_isAbsolute
              posix_dirname posix_join posix_relative "/r" template_vsixmanifest)
    as (_ & _ & H).
  edestruct (H ["/r/manifests/a.json"]) as (S1 & _ & S3 & _);
    [ reflexivity | reflexivity | reflexivity | reflexivity | ].
  split; [exact S1 | exact S3].
Defined.

(* ------------------------------------------------------------------ *)
(** ** Last writer wins *)

Lemma set_as_set_path (v x : jsval) (k : string) : set v k x = set_path v [k] x.
Proof. reflexivity. Qed.

Lemma mergeInto_other (field : string) (c : option customizer)
    (value vso vso' : jsval) (q : list string) :
  mergeInto field c value vso = Ret vso' ->
  diverge [field] q = true -> ~ In "length" q ->
  get_path vso' q = get_path vso q.
Proof.
  intros H Hd Hl. unfold mergeInto in H. inv_bind H.
  destruct (truthy a).
  - cbn [bind] in H. inv_bind H. rewrite set_as_set_path in H.
    eapply get_path_set_path_other; eauto.
  - inv_bind H. destruct a0 as [vso1 cur]. inv_bind Ha0. injection Ha0 as <- <-.
    inv_bind H. rewrite set_as_set_path in H, Ha1.
    rewrite (get_path_set_path_other _ _ _ _ _ H Hd Hl).
    eapply get_path_set_path_other; eauto.
Qed.

Lemma pushAsset_inv (entry v v' : jsval) :
  pushAsset entry v = Ret v' ->
  exists l, get_path v Assets_0_Asset = Ret (VArr l)
            /\ set_path v Assets_0_Asset (VArr (l ++ [entry])) = Ret v'.
Proof.
  unfold pushAsset. intros H. inv_bind H. destruct a; try discriminate. eauto.
Qed.

(** The loop of the [assets] rule, read backwards from its result. *)
Lemma pushAssets_inv (assets : list jsval) (v v' : jsval) (l : list jsval) :
  forEach assets
    (fun asset vsix => entry <- assetEntry asset ;; pushAsset entry vsix) v = Ret v' ->
  get_path v Assets_0_Asset = Ret (VArr l) ->
  (exists entries,
      mapM assetEntry assets = Ret entries
      /\ get_path v' Assets_0_Asset = Ret (VArr (l ++ entries)))
  /\ forall q, diverge Assets_0_Asset q = true -> ~ In "length" q ->
               get_path v' q = get_path v q.
Proof.
  revert v l. induction assets as [|asset r IH]; intros v l H Hg.
  - simpl in H. injection H as <-. split; [|auto].
    exists []. rewrite List.app_nil_r. auto.
  - cbn [forEach] in H. inv_bind H. inv_bind Ha.
    destruct (pushAsset_spec a0 v l Hg) as (v1 & Hp & Hg1 & Hf1).
    rewrite Hp in Ha. injection Ha as <-.
    destruct (IH _ _ H Hg1) as [(entries & Hm & Hg') Hf']. split.
    + exists (a0 :: entries). cbn [mapM]. rewrite Ha0. cbn [bind]. rewrite Hm.
      cbn [bind]. split; [reflexivity|]. rewrite Hg', <- List.app_assoc. reflexivity.
    + intros q Hd Hl. rewrite Hf' by assumption. apply Hf1; assumption.
Qed.

Lemma pushAssets_frame (assets : list jsval) (v v' : jsval) (q : list string) :
  forEach assets
    (fun asset vsix => entry <- assetEntry asset ;; pushAsset entry vsix) v = Ret v' ->
  diverge Assets_0_Asset q = true -> ~ In "length" q ->
  get_path v' q = get_path v q.
Proof.
  revert v. induction assets as [|asset r IH]; intros v H Hd Hl.
  - simpl in H. injection H as <-. reflexivity.
  - cbn [forEach] in H. inv_bind H. inv_bind Ha.
    destruct (pushAsset_inv _ _ _ Ha) as (l & _ & Hs).
    rewrite (IH _ H Hd Hl). eapply get_path_set_path_other; eauto.
Qed.

Lemma untouched_cons (w : document * list string) (ws : list (document * list string))
    (d : document) (q : list string) :
  untouched (w :: ws) d q = true ->
  (fst w = d -> diverge (snd w) q = true) /\ untouched ws d q = true.
Proof.
  unfold untouched. cbn [forallb]. intros H. apply andb_true_iff in H.
  destruct H as [H1 H2]. split; [|exact H2].
  intros <-. destruct (fst w); simpl in H1; exact H1.
Qed.

Ltac key_facts Hu :=
  unfold writes_of in Hu;
  repeat match goal with
         | E : String.eqb (toLowerCase _) _ = _ |- _ => rewrite E in Hu; clear E
         end;
  repeat (let W := fresh "W" in
          apply untouched_cons in Hu; destruct Hu as [W Hu]; cbn [fst snd] in W).

Ltac frame_step :=
  match goal with
  | H : set ?v ?k ?x = Ret ?v', W : _ -> diverge _ ?q = true
    |- get_path ?v' ?q = get_path ?v ?q =>
      rewrite set_as_set_path in H;
      apply (get_path_set_path_other _ q v v' x H); [apply W; reflexivity | assumption]
  | H : set_path ?v ?p ?x = Ret ?v', W : _ -> diverge _ ?q = true
    |- get_path ?v' ?q = get_path ?v ?q =>
      apply (get_path_set_path_other _ q v v' x H); [apply W; reflexivity | assumption]
  | H : mergeInto ?f ?c ?x ?v = Ret ?v', W : _ -> diverge _ ?q = true
    |- get_path ?v' ?q = get_path ?v ?q =>
      apply (mergeInto_other f c x v v' q H); [apply W; reflexivity | assumption]
  | |- get_path ?v ?q = get_path ?v ?q => reflexivity
  end.

(** What a merged key leaves alone: every place that parts ways with
    the places its branch writes. *)
Lemma mergeKey_effect (key : string) (value vso vsix vso' vsix' : jsval)
    (d : document) (q : list string) :
  mergeKey key value vso vsix = Ret (vso', vsix') ->
  untouched (writes_of (toLowerCase key) (isArray value)) d q = true ->
  ~ In "length" q ->
  get_path (pick d vso' vsix') q = get_path (pick d vso vsix) q.
Proof.
  intros H Hu Hl. unfold mergeKey in H. cbv zeta in H. mergeKey_branch H;
    [ key_facts Hu;
      repeat match type of H with
             | bind _ _ = Ret _ => inv_bind H
             | Ret _ = Ret _ => injection H as <- <-
             end;
      destruct d; cbn [pick]; frame_step .. | | ].
  - destruct value; try (injection H as <- <-; reflexivity).
    key_facts Hu. inv_bind H. inv_bind H. injection H as <- <-.
    destruct d; cbn [pick]; [reflexivity|].
    specialize (W eq_refl).
    rewrite (pushAssets_frame _ _ _ q Ha0) by
      (try assumption;
       apply (diverge_app ["PackageManifest"; "Assets"] ["0"; "Asset"] q W)).
    eapply get_path_set_path_other; eauto.
  - injection H as <- <-. reflexivity.
Qed.

(** The branch of a key that a rule does not take up writes nowhere near
    the place of the rule.  (A check of the two tables against each
    other, case by case.) *)
Lemma rules_untouched (r : rule) (k : string) (array : bool) :
  In r overwrite_rules ->
  String.eqb k (field r)
  && (if String.eqb (field r) "assets" then array else true) = false ->
  untouched (writes_of k array) (target r) (place r) = true.
Proof.
  intros Hr Hno. cbv [overwrite_rules In] in Hr.
  repeat (destruct Hr as [<-|Hr]; [
    cbn [field target place] in *; unfold writes_of;
    repeat match goal with
           | |- context [String.eqb k ?s] =>
               let E := fresh "E" in
               destruct (String.eqb k s) eqn:E;
               [apply String.eqb_eq in E; subst k|]
           end;
    solve [ reflexivity
          | destruct array; simpl in Hno; solve [discriminate | reflexivity] ] | ]).
  contradiction.
Qed.

Lemma write_read (p : list string) (k : string) (v v' x c : jsval) :
  get_path v p = Ret c -> is_container c = true ->
  set_path v (p ++ [k]) x = Ret v' ->
  get_path v' (p ++ [k]) = Ret x.
Proof.
  intros Hg Hc Hs.
  destruct (set_path_snoc_inv p v v' c k x Hg Hc Hs) as (c' & _ & _ & H). exact H.
Qed.

Ltac decide_keys H :=
  repeat match type of H with
         | context [String.eqb ?a ?b] =>
             let v := eval vm_compute in (String.eqb a b) in
             change (String.eqb a b) with v in H
         end;
  cbv iota in H.

Ltac unbind H :=
  repeat match type of H with
         | bind _ _ = Ret _ => inv_bind H
         | Ret _ = Ret _ => injection H as <- <-
         end.

(** The branch of a key that a rule takes up stores the rule's value at
    the rule's place. *)
Lemma mergeKey_writes (r : rule) (key : string) (value vso vsix vso' vsix' : jsval) :
  In r overwrite_rules ->
  declares r (key, value) = true ->
  package_shape vsix = true ->
  is_object vso = true ->
  mergeKey key value vso vsix = Ret (vso', vsix') ->
  exists s, stored r value = Ret s
            /\ get_path (pick (target r) vso' vsix') (place r) = Ret s.
Proof.
  intros Hr Hd Hshape Hvso H.
  destruct (package_shape_inv vsix Hshape)
    as ((attrs & Hattrs) & (names & Hnames) & (desc & Hdesc) & (m & Hm) & (pm & Hpm)).
  assert (Hcont : is_container vso = true) by (destruct vso; try discriminate; reflexivity).
  unfold declares in Hd. cbn [fst snd] in Hd. apply andb_true_iff in Hd.
  destruct Hd as [Hk Hc]. apply String.eqb_eq in Hk.
  unfold mergeKey in H. cbv zeta in H. rewrite Hk in H. clear Hk.
  cbv [overwrite_rules In] in Hr.
  repeat (destruct Hr as [<-|Hr]; [
    cbn [field target place stored pick] in *; decide_keys H | ]);
    [ .. | contradiction ].
  all: try (unbind H; eexists; split; [reflexivity|];
            cbn [get_path];
            match goal with
            | Hs : set ?v0 ?f ?x = Ret ?v, Hc0 : is_container ?v0 = true |- _ =>
                rewrite (get_set_eq v0 v f x Hc0 Hs); reflexivity
            end).
  all: try (unbind H; eexists; split; [reflexivity|];
            match goal with
            | Hs : set_path ?v0 (Identity_attrs ++ [?k]) ?x = Ret ?v,
              Hg : get_path ?v0 Identity_attrs = Ret _ |- _ =>
                exact (write_read Identity_attrs k v0 v x _ Hg eq_refl Hs)
            end).
  - unbind H. exists value. split; [reflexivity|].
    exact (write_read (Metadata_0 ++ ["DisplayName"]) "0" vsix _ value _
             Hnames eq_refl Ha0).
  - unbind H. exists value. split; [reflexivity|].
    exact (write_read (Metadata_0 ++ ["Description"; "0"]) "_" vsix _ value _
             Hdesc eq_refl Ha0).
  - unbind H. eexists. split; [reflexivity|].
    exact (write_read Metadata_0 "ReleaseNotes" vsix _ _ _ Hm eq_refl Ha).
  - unbind H. unfold joined. rewrite Ha. cbn [bind]. eexists. split; [reflexivity|].
    exact (write_read Metadata_0 "Tags" vsix _ _ _ Hm eq_refl Ha0).
  - unbind H. unfold joined. rewrite Ha. cbn [bind]. eexists. split; [reflexivity|].
    exact (write_read Metadata_0 "VSOFlags" vsix _ _ _ Hm eq_refl Ha0).
  - unbind H. unfold joined. rewrite Ha. cbn [bind]. eexists. split; [reflexivity|].
    exact (write_read Metadata_0 "Categories" vsix _ _ _ Hm eq_refl Ha0).
  - unfold contributes in Hc. cbn in Hc. destruct value; try discriminate.
    unbind H.
    pose proof (write_read ["PackageManifest"] "Assets" vsix _ _ _ Hpm eq_refl Ha) as Hw.
    assert (Hg : get_path a Assets_0_Asset = Ret (VArr [])).
    { change Assets_0_Asset with ((["PackageManifest"] ++ ["Assets"]) ++ ["0"; "Asset"]).
      rewrite get_path_app, Hw. reflexivity. }
    destruct (pushAssets_inv _ _ _ _ Ha0 Hg) as [(entries & Hmap & Hres) _].
    exists (VArr entries). cbn [asset_entries]. rewrite Hmap. auto.
Qed.

Ltac no_length :=
  cbv [In app Metadata_0 Identity_attrs Assets_0_Asset]; intuition discriminate.

Ltac shape_step :=
  match goal with
  | S : reaches ?kind ?v ?q = true |- reaches ?kind ?v ?q = true => exact S
  | H : set_path ?v ?p ?x = Ret ?v', S : reaches ?kind ?v ?q = true
    |- reaches ?kind ?v' ?q = true =>
      first [ rewrite (reaches_other kind p q v v' x H eq_refl); [exact S | no_length]
            | refine (reaches_parent kind q _ v v' x _ H S); auto ]
  end.

(** The merge rules keep the schema of the package manifest. *)
Lemma mergeKey_shape (key : string) (value vso vsix vso' vsix' : jsval) :
  package_shape vsix = true ->
  mergeKey key value vso vsix = Ret (vso', vsix') ->
  package_shape vsix' = true.
Proof.
  intros Hs H. unfold package_shape in *. rewrite !andb_true_iff in *.
  destruct Hs as [[S1 S2] S3].
  unfold mergeKey in H. cbv zeta in H. mergeKey_branch H;
    [ unbind H; repeat split; shape_step .. | | ].
  - destruct value; try (unbind H; repeat split; shape_step).
    unbind H.
    assert (F : forall kind q,
               diverge ["PackageManifest"; "Assets"] q = true -> ~ In "length" q ->
               reaches kind vsix q = true -> reaches kind a0 q = true).
    { intros kind q Hd Hl Hr. unfold reaches.
      rewrite (pushAssets_frame _ _ _ q Ha0) by
        (try assumption;
         apply (diverge_app ["PackageManifest"; "Assets"] ["0"; "Asset"] q Hd)).
      rewrite (get_path_set_path_other _ q _ _ _ Ha Hd Hl). exact Hr. }
    repeat split; apply F; try reflexivity; try assumption; no_length.
  - unbind H. repeat split; assumption.
Qed.

Lemma mergeKey_object (key : string) (value vso vsix vso' vsix' : jsval) :
  is_object vso = true ->
  mergeKey key value vso vsix = Ret (vso', vsix') ->
  is_object vso' = true.
Proof.
  intros Hv H. destruct (mergeKey_grows _ _ _ _ _ _ H) as [G _].
  destruct (G Hv) as [Hv' _]. exact Hv'.
Qed.

Lemma mergeKeys_snoc (decls : list (string * jsval)) (d : string * jsval)
    (acc : jsval * jsval) :
  mergeKeys (decls ++ [d]) acc =
    ('(vso, vsix) <- mergeKeys decls acc ;; mergeKey (fst d) (snd d) vso vsix).
Proof.
  unfold mergeKeys. rewrite forEach_app.
  destruct (forEach decls _ acc) as [[vso vsix]| |]; cbn [bind forEach]; auto.
  destruct (mergeKey (fst d) (snd d) vso vsix); reflexivity.
Qed.

Lemma mergeKeys_invariant (decls : list (string * jsval)) (vso vsix vso' vsix' : jsval) :
  package_shape vsix = true -> is_object vso = true ->
  mergeKeys decls (vso, vsix) = Ret (vso', vsix') ->
  package_shape vsix' = true /\ is_object vso' = true.
Proof.
  intros Hs Ho. revert vso' vsix'.
  induction decls as [|d ds IH] using rev_ind; intros vso' vsix' H.
  - unfold mergeKeys in H. simpl in H. injection H as <- <-. auto.
  - rewrite mergeKeys_snoc in H. inv_bind H. destruct a as [vso1 vsix1].
    destruct (IH _ _ Ha) as [Hs1 Ho1]. split.
    + eapply mergeKey_shape; eauto.
    + eapply mergeKey_object; eauto.
Qed.

Lemma last_declared_snoc (r : rule) (decls : list (string * jsval)) (d : string * jsval) :
  last_declared r (decls ++ [d]) =
    if declares r d then Some (snd d) else last_declared r decls.
Proof.
  unfold last_declared. rewrite fold_left_app. reflexivity.
Qed.

(** Over a run of declarations, the place of a rule holds what the rule
    stores for the last declaration it takes up. *)
Lemma mergeKeys_last_wins (r : rule) (decls : list (string * jsval))
    (vso vsix vso' vsix' value : jsval) :
  In r overwrite_rules ->
  package_shape vsix = true -> is_object vso = true ->
  mergeKeys decls (vso, vsix) = Ret (vso', vsix') ->
  last_declared r decls = Some value ->
  exists s, stored r value = Ret s
            /\ get_path (pick (target r) vso' vsix') (place r) = Ret s.
Proof.
  intros Hr Hs Ho. revert vso' vsix' value.
  induction decls as [|d ds IH] using rev_ind; intros vso' vsix' value H Hlast.
  - discriminate.
  - rewrite mergeKeys_snoc in H. inv_bind H. destruct a as [vso1 vsix1].
    destruct (mergeKeys_invariant _ _ _ _ _ Hs Ho Ha) as [Hs1 Ho1].
    rewrite last_declared_snoc in Hlast.
    destruct (declares r d) eqn:Ed.
    + injection Hlast as <-. destruct d as [key v].
      eapply mergeKey_writes; eauto.
    + destruct (IH _ _ _ Ha Hlast) as (s & Hst & Hget).
      exists s. split; [exact Hst|].
      rewrite <- Hget. destruct d as [key v]. cbn [fst snd] in *.
      apply (mergeKey_effect key v vso1 vsix1 vso' vsix' (target r) (place r) H).
      * apply rules_untouched; [exact Hr|].
        unfold declares, contributes in Ed. exact Ed.
      * clear -Hr. cbv [overwrite_rules In] in Hr.
        repeat (destruct Hr as [<-|Hr]; [cbn [place]; no_length|]). contradiction.
Qed.

Section OverwriteFacts.
Variable path_isAbsolute : string -> bool.
Variable path_dirname : string -> string.
Variable path_join : string -> string -> string.
Variable path_relative : string -> string -> string.
Variable root : string.

Let resolve := resolveAssets path_isAbsolute path_dirname path_join path_relative root.
Let merge1 := mergePartial path_isAbsolute path_dirname path_join path_relative root.

Lemma mergeKeys_of_keys (partial : jsval) (keys : list string) (acc acc' : jsval * jsval) :
  forEach keys
    (fun key '(vsoManifest, vsixManifest) =>
       value <- get partial key ;;
       mergeKey key value vsoManifest vsixManifest) acc = Ret acc' ->
  mergeKeys (map (fun key => (key, prop partial key)) keys) acc = Ret acc'.
Proof.
  unfold mergeKeys. revert acc. induction keys as [|key r IH]; intros [vso vsix]; simpl.
  - auto.
  - intros H. inv_bind H. inv_bind Ha. unfold prop. rewrite Ha0. rewrite Ha.
    cbn [bind]. apply IH. exact H.
Qed.

Lemma mergePartial_declarations (partial partial' : jsval) (acc acc' : jsval * jsval) :
  resolve partial = Ret partial' ->
  merge1 partial acc = Ret acc' ->
  mergeKeys (declarations partial') acc = Ret acc'.
Proof.
  intros Hr H. unfold merge1, mergePartial in H. fold resolve in H.
  rewrite Hr in H. cbn [bind] in H. inv_bind H.
  unfold declarations. rewrite Ha. apply mergeKeys_of_keys. exact H.
Qed.

Lemma mergePartials_declarations (partials resolved : list jsval)
    (acc acc' : jsval * jsval) :
  mapM resolve partials = Ret resolved ->
  forEach partials merge1 acc = Ret acc' ->
  mergeKeys (flat_map declarations resolved) acc = Ret acc'.
Proof.
  revert resolved acc. induction partials as [|p ps IH]; intros resolved acc Hm H.
  - simpl in Hm. injection Hm as <-. exact H.
  - simpl in Hm. inv_bind Hm. inv_bind Hm. injection Hm as <-.
    simpl in H. inv_bind H.
    cbn [flat_map]. unfold mergeKeys. rewrite forEach_app.
    fold (mergeKeys (declarations a) acc).
    rewrite (mergePartial_declarations p a acc a1 Ha Ha1). cbn [bind].
    apply IH; assumption.
Qed.

End OverwriteFacts.



(* ------------------------------------------------------------------ *)
(** ** lodash's [merge] on plain values *)

Lemma concatArrays_ok : customizer_ok (Some concatArrays).
Proof.
  intros a b Ha Hb. cbn [apply_customizer]. unfold concatArrays.
  destruct a; auto. right. destruct Ha as [Ha|Ha]; [discriminate|].
  unfold concat. cbn [plain] in *.
  destruct b; cbn [plain]; rewrite forallb_app; cbn [forallb];
    rewrite Ha; cbn [andb]; try reflexivity; try (rewrite Hb; reflexivity).
  exact Hb.
Qed.

Lemma no_customizer_ok : customizer_ok None.
Proof. intros a b _ _. left. reflexivity. Qed.

Lemma index_key_ordinary (i : nat) : ordinary_key (string_of_nat i) = true.
Proof.
  unfold ordinary_key, mem, inherited_names. cbn [existsb].
  pose proof (index_of_string_of_nat i) as H.
  repeat match goal with
         | |- context [String.eqb (string_of_nat i) ?s] =>
             let E := fresh "E" in
             destruct (String.eqb (string_of_nat i) s) eqn:E;
             [apply String.eqb_eq in E; rewrite E in H; vm_compute in H; discriminate|]
         end.
  reflexivity.
Qed.

Lemma plain_lookup (o : props_t) (k : string) (v : jsval) :
  plain (VObj o) = true -> lookup k o = Some v -> plain v = true.
Proof.
  cbn [plain]. intros H. apply andb_true_iff in H. destruct H as [_ H].
  induction o as [|[k' v'] r IH]; simpl in *; [discriminate|].
  apply andb_true_iff in H. destruct H as [H1 H2].
  apply andb_true_iff in H1. destruct H1 as [_ Hv].
  destruct (String.eqb k k'); [intros [= <-]; exact Hv | auto].
Qed.

Lemma plain_nth (l : list jsval) (i : nat) (v : jsval) :
  forallb plain l = true -> nth_error l i = Some v -> plain v = true.
Proof.
  intros H Hn. apply nth_error_In in Hn.
  rewrite forallb_forall in H. auto.
Qed.

(** A read from a plain container gives [undefined] or a plain value. *)
Lemma plain_get (object value : jsval) (key : string) :
  plain object = true -> is_container object = true ->
  key <> "length" ->
  get object key = Ret value ->
  value = VUndef \/ plain value = true.
Proof.
  intros Hp Hc Hk. destruct object; try discriminate; simpl.
  - apply String.eqb_neq in Hk. rewrite Hk.
    destruct (index_of_string key) as [i|]; [|intros [= <-]; auto].
    destruct (nth_error elems i) eqn:E; intros [= <-]; [|auto].
    right. eapply plain_nth; eauto.
  - destruct (lookup key props) eqn:E; intros [= <-]; [|auto].
    right. eapply plain_lookup; eauto.
Qed.

Lemma mem_keys_upsert (k k0 : string) (v : jsval) (o : props_t) :
  mem k (map fst (upsert k0 v o)) = mem k (map fst o) || String.eqb k k0.
Proof.
  induction o as [|[k1 v1] r IH]; simpl.
  - rewrite orb_false_r. reflexivity.
  - destruct (String.eqb k0 k1) eqn:E; simpl.
    + apply String.eqb_eq in E. subst.
      destruct (String.eqb k k1); simpl; [reflexivity|]. rewrite orb_false_r. reflexivity.
    + rewrite IH. destruct (String.eqb k k1); reflexivity.
Qed.

Lemma distinct_upsert (k : string) (v : jsval) (o : props_t) :
  distinct (map fst o) = true -> distinct (map fst (upsert k v o)) = true.
Proof.
  induction o as [|[k1 v1] r IH]; simpl; [reflexivity|].
  intros H. apply andb_true_iff in H. destruct H as [H1 H2].
  destruct (String.eqb k k1) eqn:E; simpl.
  - rewrite H1, H2. reflexivity.
  - rewrite mem_keys_upsert, IH by assumption.
    apply negb_true_iff in H1. rewrite H1. rewrite String.eqb_sym, E. reflexivity.
Qed.

Lemma plain_upsert (k : string) (v : jsval) (o : props_t) :
  ordinary_key k = true -> plain v = true -> plain (VObj o) = true ->
  plain (VObj (upsert k v o)) = true.
Proof.
  intros Hk Hv. cbn [plain]. intros H. apply andb_true_iff in H. destruct H as [H1 H2].
  rewrite distinct_upsert by assumption. cbn [andb].
  clear H1. induction o as [|[k1 v1] r IH]; simpl in *.
  - rewrite Hk, Hv. reflexivity.
  - apply andb_true_iff in H2. destruct H2 as [Ha Hb].
    destruct (String.eqb k k1) eqn:E; simpl.
    + apply String.eqb_eq in E. subst. rewrite Hk, Hv, Hb. reflexivity.
    + rewrite Ha, IH by assumption. reflexivity.
Qed.

Lemma plain_set_nth (i : nat) (v : jsval) (l : list jsval) :
  i <= List.length l -> plain v = true -> forallb plain l = true ->
  forallb plain (set_nth i v l) = true /\ i < List.length (set_nth i v l).
Proof.
  revert l. induction i as [|i IH]; intros [|x r] Hi Hv Hl; simpl in *.
  - rewrite Hv. split; [reflexivity|lia].
  - apply andb_true_iff in Hl. destruct Hl as [_ Hr]. rewrite Hv, Hr.
    split; [reflexivity|lia].
  - lia.
  - apply andb_true_iff in Hl. destruct Hl as [Hx Hr].
    destruct (IH r) as [H1 H2]; [lia|assumption|assumption|].
    rewrite Hx, H1. split; [reflexivity|lia].
Qed.

Lemma takes_same_kind_object (a b : jsval) (key : string) :
  is_object a = true -> same_kind a b -> takes a key -> takes b key.
Proof.
  intros Ha [H1 _] Ht. rewrite Ha in H1. destruct a; try discriminate.
  destruct b; try discriminate. exact Ht.
Qed.

(** Writing a plain value keeps the destination plain. *)
Lemma plain_set (object x : jsval) (key : string) :
  plain object = true -> plain x = true -> takes object key ->
  exists object',
    set object key x = Ret object'
    /\ plain object' = true
    /\ same_kind object object'
    /\ match object' with
       | VArr l' => exists i, key = string_of_nat i /\ i < List.length l'
       | _ => True
       end.
Proof.
  intros Hp Hx Ht. destruct object; try contradiction; simpl in *.
  - destruct Ht as (i & -> & Hi). rewrite index_of_string_of_nat.
    destruct (plain_set_nth i x elems Hi Hx Hp) as [H1 H2].
    eexists. split; [reflexivity|]. split; [exact H1|]. split; [split; reflexivity|].
    eauto.
  - eexists. split; [reflexivity|]. split; [|split; [split; reflexivity|exact I]].
    apply plain_upsert; assumption.
Qed.

Lemma takes_container (object : jsval) (key : string) :
  takes object key -> is_container object = true /\ key <> "length".
Proof.
  destruct object; try contradiction; simpl.
  - intros (i & -> & _). split; [reflexivity|].
    pose proof (index_key_ordinary i) as H. unfold ordinary_key in H.
    apply andb_true_iff in H. destruct H as [_ H]. apply negb_true_iff in H.
    apply String.eqb_neq in H. exact H.
  - intros H. split; [reflexivity|]. unfold ordinary_key in H.
    apply andb_true_iff in H. destruct H as [_ H]. apply negb_true_iff in H.
    apply String.eqb_neq in H. exact H.
Qed.

Lemma plain_not_array_like (o : props_t) :
  plain (VObj o) = true -> array_like o = false.
Proof.
  cbn [plain]. intros H. apply andb_true_iff in H. destruct H as [_ H].
  unfold array_like.
  assert (E : lookup "length" o = None).
  { induction o as [|[k v] r IH]; cbn [lookup forallb fst snd] in *; [reflexivity|].
    apply andb_true_iff in H. destruct H as [H1 H2].
    apply andb_true_iff in H1. destruct H1 as [Hk _].
    unfold ordinary_key in Hk. apply andb_true_iff in Hk. destruct Hk as [_ Hk].
    apply negb_true_iff in Hk. rewrite String.eqb_sym, Hk. auto. }
  rewrite E. reflexivity.
Qed.

Lemma plain_chars (s : string) : forallb plain (map VStr (chars s)) = true.
Proof. induction s; simpl; auto. Qed.

Lemma same_kind_refl (a : jsval) : same_kind a a.
Proof. split; reflexivity. Qed.

Lemma same_kind_trans (a b c : jsval) :
  same_kind a b -> same_kind b c -> same_kind a c.
Proof. intros [H1 H2] [H3 H4]. split; congruence. Qed.

(** One iteration of the loop of [baseMerge] on plain values. *)
Lemma mergeEntry_plain (c : option customizer) (mergeFunc : jsval -> res jsval)
    (isSrcArr : bool) (key : string) (srcValue object : jsval) :
  customizer_ok c ->
  plain srcValue = true -> plain object = true -> takes object key ->
  merges_plainly srcValue mergeFunc ->
  exists object',
    mergeEntry c mergeFunc isSrcArr key srcValue object = Ret object'
    /\ plain object' = true
    /\ same_kind object object'
    /\ match object' with
       | VArr l' => exists i, key = string_of_nat i /\ i < List.length l'
       | _ => True
       end.
Proof.
  intros Hc Hs Ho Ht Hrec.
  destruct (takes_container object key Ht) as [Hcont Hlen].
  unfold mergeEntry.
  assert (Hget : exists value, get object key = Ret value)
    by (destruct object; try discriminate; simpl;
        repeat match goal with |- context [if ?b then _ else _] => destruct b end;
        repeat match goal with |- context [match ?x with _ => _ end] => destruct x end;
        eauto).
  destruct Hget as [value Hget]. rewrite Hget. cbn [bind].
  pose proof (plain_get object value key Ho Hcont Hlen Hget) as Hv.
  pose proof (Hc value srcValue Hv Hs) as Hres.
  set (result := apply_customizer c value srcValue) in *. cbv zeta.
  assert (Hput : forall x, plain x = true ->
            exists object',
              set object key x = Ret object' /\ plain object' = true
              /\ same_kind object object'
              /\ match object' with
                 | VArr l' => exists i, key = string_of_nat i /\ i < List.length l'
                 | _ => True
                 end)
    by (intros x Hx; apply plain_set; assumption).
  destruct Hres as [Hu|Hp].
  - rewrite Hu. destruct (isObjectLike srcValue) eqn:Eo.
    + assert (Hdest : exists dest,
                 match srcValue with
                 | VArr _ =>
                     match value with
                     | VArr _ => Ret value
                     | VStr s => Ret (VArr (map VStr (chars s)))
                     | VObj o => if array_like o then Unmodelled else Ret (VArr [])
                     | _ => Ret (VArr [])
                     end
                 | _ =>
                     match value with
                     | VObj _ => Ret value
                     | _ => Ret (VObj [])
                     end
                 end = Ret dest
                 /\ plain dest = true /\ is_container dest = true
                 /\ fits srcValue dest = true).
      { destruct srcValue; try discriminate.
        - destruct value; try (eexists; split; [reflexivity|]; repeat split; reflexivity).
          + eexists. split; [reflexivity|]. split; [apply plain_chars|]. split; reflexivity.
          + destruct Hv as [Hv|Hv]; [discriminate|].
            eexists. split; [reflexivity|]. repeat split; auto.
          + destruct Hv as [Hv|Hv]; [discriminate|].
            rewrite (plain_not_array_like _ Hv).
            eexists. split; [reflexivity|]. repeat split; reflexivity.
        - destruct value; try (eexists; split; [reflexivity|]; repeat split; reflexivity).
          destruct Hv as [Hv|Hv]; [discriminate|].
          eexists. split; [reflexivity|]. repeat split; auto. }
      destruct Hdest as (dest & -> & Hd1 & Hd2 & Hd3). cbn [bind].
      destruct (Hrec dest Hd1 Hd2 Hd3) as (merged & -> & Hm & _). cbn [bind].
      apply Hput. exact Hm.
    + destruct srcValue; try discriminate; apply Hput; exact Hs.
  - assert (E : forall A (a b : res A),
               match result with VUndef => a | _ => b end = b)
      by (intros A a b; destruct result; try reflexivity; discriminate).
    destruct (isObjectLike srcValue); rewrite E; apply Hput; exact Hp.
Qed.

Lemma string_of_nat_inj (i j : nat) : string_of_nat i = string_of_nat j -> i = j.
Proof.
  intros H. pose proof (index_of_string_of_nat i) as Hi.
  rewrite H, index_of_string_of_nat in Hi. congruence.
Qed.

Lemma within_takes (object : jsval) (i : nat) :
  is_container object = true -> within object i -> takes object (string_of_nat i).
Proof.
  destruct object; try discriminate; simpl; intros _ H.
  - eauto.
  - apply index_key_ordinary.
Qed.

(** The loop over the elements of a source array (or the characters of
    a source string), from the index [i] on. *)
Lemma arrayEach_indexed_plain {A} (c : option customizer) (val : A -> jsval)
    (rec : A -> jsval -> res jsval) (isSrcArr : bool) (l : list A) :
  customizer_ok c ->
  Forall (fun x => plain (val x) = true /\ merges_plainly (val x) (rec x)) l ->
  forall i object,
    plain object = true -> is_container object = true -> within object i ->
    exists r,
      arrayEach
        (fun x index object =>
           mergeEntry c (rec x) isSrcArr (string_of_nat index) (val x) object)
        l i object = Ret r
      /\ plain r = true /\ same_kind object r.
Proof.
  intros Hc Hl. induction Hl as [|x r [Hx Hrec] _ IH]; intros i object Hp Hcont Hw.
  - exists object. simpl. split; [reflexivity|]. split; [exact Hp|apply same_kind_refl].
  - cbn [arrayEach].
    destruct (mergeEntry_plain c (rec x) isSrcArr (string_of_nat i) (val x) object
                Hc Hx Hp (within_takes object i Hcont Hw) Hrec)
      as (object' & -> & Hp' & Hk & Hidx).
    cbn [bind].
    assert (Hcont' : is_container object' = true).
    { destruct Hk as [K1 K2]. destruct object; try discriminate;
        destruct object'; try discriminate; reflexivity. }
    assert (Hw' : within object' (S i)).
    { destruct object'; simpl; auto. destruct Hidx as (j & Hj & Hlt).
      apply string_of_nat_inj in Hj. subst. lia. }
    destruct (IH (S i) object' Hp' Hcont' Hw') as (r' & Hr & Hpr & Hkr).
    exists r'. split; [exact Hr|]. split; [exact Hpr|].
    eapply same_kind_trans; eauto.
Qed.

(** The loop over the properties of a source object. *)
Lemma arrayEach_props_plain (c : option customizer) (o : props_t) (index : nat) :
  customizer_ok c ->
  Forall (fun kv => ordinary_key (fst kv) = true /\ plain (snd kv) = true
                    /\ merges_plainly (snd kv) (baseMerge c (snd kv))) o ->
  forall props,
    plain (VObj props) = true ->
    exists r,
      arrayEach
        (fun (prop : string * jsval) (_ : nat) object =>
           let (key, srcValue) := prop in
           if mem key inherited_names then Unmodelled
           else mergeEntry c (baseMerge c srcValue) false key srcValue object)
        o index (VObj props) = Ret r
      /\ plain r = true /\ is_object r = true.
Proof.
  intros Hc Ho. revert index.
  induction Ho as [|[key srcValue] r (Hk & Hs & Hrec) _ IH]; intros index props Hp.
  - exists (VObj props). simpl. auto.
  - cbn [arrayEach fst snd] in *.
    assert (Hin : mem key inherited_names = false).
    { unfold ordinary_key in Hk. apply andb_true_iff in Hk. destruct Hk as [Hk _].
      apply negb_true_iff in Hk. exact Hk. }
    rewrite Hin.
    destruct (mergeEntry_plain c (baseMerge c srcValue) false key srcValue (VObj props)
                Hc Hs Hp Hk Hrec) as (object' & -> & Hp' & [K1 _] & _).
    cbn [bind]. destruct object'; try discriminate.
    apply IH. exact Hp'.
Qed.

Lemma plain_props_Forall (o : props_t) :
  plain (VObj o) = true ->
  Forall (fun kv => ordinary_key (fst kv) = true /\ plain (snd kv) = true) o.
Proof.
  cbn [plain]. intros H. apply andb_true_iff in H. destruct H as [_ H].
  rewrite forallb_forall in H. apply Forall_forall. intros kv Hin.
  specialize (H kv Hin). apply andb_true_iff in H. exact H.
Qed.

(** On plain values [_.merge] completes, within the embedding, and its
    result is plain again. *)
Lemma baseMerge_plain (c : option customizer) :
  customizer_ok c ->
  forall source, plain source = true -> merges_plainly source (baseMerge c source).
Proof.
  intros Hc source.
  induction source as [| |b|n|s|l IH|o IH] using jsval_ind; intros Hs dest Hd Hcont Hfit;
    try (exists dest; destruct dest; try discriminate;
         (split; [reflexivity|split; [assumption|apply same_kind_refl]])).
  - (* a string *)
    assert (Hl : Forall (fun ch => plain (VStr ch) = true
                                   /\ merges_plainly (VStr ch) (fun d => Ret d))
                   (chars s)).
    { apply Forall_forall. intros ch _. split; [reflexivity|].
      intros d Hp _ _. exists d. split; [reflexivity|]. split; [exact Hp|apply same_kind_refl]. }
    destruct (arrayEach_indexed_plain c VStr (fun _ d => Ret d) false (chars s) Hc Hl
                0 dest Hd Hcont) as (r & Hr & Hpr & Hk).
    { destruct dest; simpl; auto; lia. }
    exists r. split; [|auto]. destruct dest; try discriminate; exact Hr.
  - (* an array *)
    assert (Hl : Forall (fun x => plain x = true /\ merges_plainly x (baseMerge c x)) l).
    { cbn [plain] in Hs. rewrite forallb_forall in Hs.
      rewrite Forall_forall in IH. apply Forall_forall. intros x Hin. split; auto. }
    destruct (arrayEach_indexed_plain c (fun x => x) (baseMerge c) true l Hc Hl
                0 dest Hd Hcont) as (r & Hr & Hpr & Hk).
    { destruct dest; simpl; auto; lia. }
    exists r. split; [|auto]. destruct dest; try discriminate; exact Hr.
  - (* an object *)
    destruct dest; try discriminate.
    assert (Ho : Forall (fun kv => ordinary_key (fst kv) = true /\ plain (snd kv) = true
                                   /\ merges_plainly (snd kv) (baseMerge c (snd kv))) o).
    { pose proof (plain_props_Forall o Hs) as Hp. rewrite Forall_forall in *.
      intros kv Hin. destruct (Hp kv Hin) as [H1 H2]. split; [exact H1|].
      split; [exact H2|]. apply IH; assumption. }
    destruct (arrayEach_props_plain c o 0 Hc Ho props Hd) as (r & Hr & Hpr & Hk).
    exists r. split; [exact Hr|]. split; [exact Hpr|].
    destruct r; try discriminate. split; reflexivity.
Qed.

(* ------------------------------------------------------------------ *)
(** ** Reads and writes by index *)

Lemma index_not_length (i : nat) : String.eqb (string_of_nat i) "length" = false.
Proof.
  pose proof (index_key_ordinary i) as H. unfold ordinary_key in H.
  apply andb_true_iff in H. destruct H as [_ H]. apply negb_true_iff in H. exact H.
Qed.

Lemma get_index (l : list jsval) (i : nat) :
  get (VArr l) (string_of_nat i) = Ret (opt_value (nth_error l i)).
Proof.
  cbn [get]. rewrite index_not_length, index_of_string_of_nat. reflexivity.
Qed.

Lemma set_index (l : list jsval) (i : nat) (v : jsval) :
  set (VArr l) (string_of_nat i) v = Ret (VArr (set_nth i v l)).
Proof. cbn [set]. rewrite index_of_string_of_nat. reflexivity. Qed.

Lemma set_nth_app (pre rest : list jsval) (v : jsval) :
  set_nth (List.length pre) v (pre ++ rest) = pre ++ v :: tl rest.
Proof.
  induction pre as [|x r IH]; simpl.
  - destruct rest; reflexivity.
  - rewrite IH. reflexivity.
Qed.

Lemma nth_error_end (l : list jsval) : nth_error l (List.length l) = None.
Proof. apply nth_error_None. lia. Qed.

Lemma mem_false_lookup (k : string) (o : props_t) :
  mem k (map fst o) = false -> lookup k o = None.
Proof.
  unfold mem. induction o as [|[k' v] r IH]; simpl; [reflexivity|].
  intros H. apply orb_false_iff in H. destruct H as [H1 H2].
  rewrite H1. auto.
Qed.

Lemma lookup_None_mem (k : string) (o : props_t) :
  lookup k o = None -> mem k (map fst o) = false.
Proof.
  unfold mem. induction o as [|[k' v] r IH]; simpl; [reflexivity|].
  destruct (String.eqb k k'); [discriminate|]. auto.
Qed.

Lemma upsert_absent (k : string) (v : jsval) (o : props_t) :
  lookup k o = None -> upsert k v o = o ++ [(k, v)].
Proof.
  induction o as [|[k' v'] r IH]; simpl; [reflexivity|].
  destruct (String.eqb k k'); [discriminate|].
  intros H. rewrite IH by exact H. reflexivity.
Qed.

Lemma mem_app (k : string) (l1 l2 : list string) :
  mem k (l1 ++ l2) = mem k l1 || mem k l2.
Proof. unfold mem. apply existsb_app. Qed.

Lemma distinct_app (l1 l2 : list string) (k : string) :
  distinct (l1 ++ k :: l2) = true ->
  mem k l1 = false /\ mem k l2 = false /\ distinct (l1 ++ l2) = true.
Proof.
  induction l1 as [|x r IH]; simpl.
  - intros H. apply andb_true_iff in H. destruct H as [H1 H2].
    apply negb_true_iff in H1. auto.
  - intros H. apply andb_true_iff in H. destruct H as [H1 H2].
    apply negb_true_iff in H1. rewrite mem_app in H1.
    apply orb_false_iff in H1. destruct H1 as [Hr Hk].
    unfold mem in Hk. cbn [existsb] in Hk. apply orb_false_iff in Hk.
    destruct Hk as [Hxk Hx2].
    destruct (IH H2) as (I1 & I2 & I3).
    split; [|split].
    + unfold mem. cbn [existsb]. rewrite String.eqb_sym, Hxk. exact I1.
    + exact I2.
    + rewrite mem_app. fold (mem x l2) in Hx2. rewrite Hr, Hx2, I3. reflexivity.
Qed.

(* ------------------------------------------------------------------ *)
(** ** Merging into a fresh destination copies the source *)

Section Copy.
Variable c : option customizer.
Hypothesis c_absent : forall sourceValue, apply_customizer c VUndef sourceValue = VUndef.

(** An entry whose key the destination does not have yet. *)
Lemma mergeEntry_fresh (isSrcArr : bool) (key : string) (srcValue object : jsval) :
  get object key = Ret VUndef ->
  plain srcValue = true -> copies c srcValue ->
  mergeEntry c (baseMerge c srcValue) isSrcArr key srcValue object
  = set object key srcValue.
Proof.
  intros Hget Hp Hcopy. unfold mergeEntry. rewrite Hget. cbn [bind].
  rewrite c_absent.
  destruct srcValue; try discriminate; cbn [isObjectLike]; try reflexivity;
    cbn [copies] in Hcopy; cbn [bind]; rewrite Hcopy; reflexivity.
Qed.

Lemma arrayEach_copies_elements (l : list jsval) :
  Forall (fun x => plain x = true /\ copies c x) l ->
  forall pre,
    arrayEach
      (fun srcValue index object =>
         mergeEntry c (baseMerge c srcValue) true (string_of_nat index) srcValue object)
      l (List.length pre) (VArr pre)
    = Ret (VArr (pre ++ l)).
Proof.
  induction 1 as [|x r [Hp Hx] _ IH]; intros pre; cbn [arrayEach].
  - rewrite List.app_nil_r. reflexivity.
  - rewrite mergeEntry_fresh; [| |exact Hp|exact Hx].
    + rewrite set_index. cbn [bind].
      replace (set_nth (List.length pre) x pre) with (pre ++ [x]).
      * replace (S (List.length pre)) with (List.length (pre ++ [x]))
          by (rewrite length_app; simpl; lia).
        rewrite IH. rewrite <- List.app_assoc. reflexivity.
      * pose proof (set_nth_app pre [] x) as E. rewrite List.app_nil_r in E.
        symmetry. exact E.
    + rewrite get_index, nth_error_end. reflexivity.
Qed.

Lemma arrayEach_copies_props (o : props_t) :
  Forall (fun kv => ordinary_key (fst kv) = true /\ plain (snd kv) = true
                    /\ copies c (snd kv)) o ->
  forall pre index,
    distinct (map fst (pre ++ o)) = true ->
    arrayEach
      (fun (prop : string * jsval) (_ : nat) object =>
         let (key, srcValue) := prop in
         if mem key inherited_names then Unmodelled
         else mergeEntry c (baseMerge c srcValue) false key srcValue object)
      o index (VObj pre)
    = Ret (VObj (pre ++ o)).
Proof.
  induction 1 as [|[key v] r (Hk & Hp & Hv) _ IH]; intros pre index Hd; cbn [arrayEach].
  - rewrite List.app_nil_r. reflexivity.
  - cbn [fst snd] in *.
    assert (Hin : mem key inherited_names = false).
    { unfold ordinary_key in Hk. apply andb_true_iff in Hk. destruct Hk as [Hk _].
      apply negb_true_iff in Hk. exact Hk. }
    rewrite Hin.
    rewrite map_app in Hd. cbn [map fst] in Hd.
    destruct (distinct_app _ _ _ Hd) as (Hpre & _ & _).
    apply mem_false_lookup in Hpre.
    rewrite mergeEntry_fresh; [| |exact Hp|exact Hv].
    + cbn [set bind]. rewrite (upsert_absent _ _ _ Hpre).
      rewrite IH.
      * rewrite <- List.app_assoc. reflexivity.
      * rewrite <- List.app_assoc. rewrite map_app. exact Hd.
    + cbn [get]. rewrite Hpre. reflexivity.
Qed.

Lemma baseMerge_copy (v : jsval) : plain v = true -> copies c v.
Proof.
  induction v as [| |b|n|s|l IH|o IH] using jsval_ind; intros Hp; cbn [copies]; auto.
  - cbn [baseMerge].
    apply (arrayEach_copies_elements l) with (pre := []).
    cbn [plain] in Hp. rewrite forallb_forall in Hp. rewrite Forall_forall in *.
    intros x Hin. split; auto.
  - cbn [baseMerge].
    apply (arrayEach_copies_props o) with (pre := []).
    + pose proof (plain_props_Forall o Hp) as Ho. rewrite Forall_forall in *.
      intros kv Hin. destruct (Ho kv Hin) as [H1 H2]. auto.
    + cbn [plain] in Hp. apply andb_true_iff in Hp. destruct Hp as [Hd _]. exact Hd.
Qed.
End Copy.

(* ------------------------------------------------------------------ *)
(** ** An array of primitives merged into an array *)

Lemma skipn_tl (n : nat) (l : list jsval) : skipn (S n) l = skipn n (tl l).
Proof. destruct l; simpl; [destruct n; reflexivity | reflexivity]. Qed.

Lemma arrayEach_overlays (mergeFunc : jsval -> jsval -> res jsval) (incoming : list jsval) :
  forallb primitive incoming = true ->
  forall pre accumulated,
    arrayEach
      (fun srcValue index object =>
         mergeEntry None (mergeFunc srcValue) true (string_of_nat index) srcValue object)
      incoming (List.length pre) (VArr (pre ++ accumulated))
    = Ret (VArr (pre ++ overlay accumulated incoming)).
Proof.
  unfold overlay.
  induction incoming as [|b r IH]; intros Hp pre accumulated; cbn [arrayEach].
  - reflexivity.
  - cbn [forallb] in Hp. apply andb_true_iff in Hp. destruct Hp as [Hb Hr].
    assert (E : mergeEntry None (mergeFunc b) true (string_of_nat (List.length pre)) b
                  (VArr (pre ++ accumulated))
                = Ret (VArr (pre ++ b :: tl accumulated))).
    { unfold mergeEntry. rewrite get_index. cbn [bind apply_customizer].
      destruct b; try discriminate; cbn [isObjectLike];
        rewrite set_index, set_nth_app; reflexivity. }
    rewrite E. cbn [bind].
    replace (S (List.length pre)) with (List.length (pre ++ [b]))
      by (rewrite length_app; simpl; lia).
    replace (pre ++ b :: tl accumulated) with ((pre ++ [b]) ++ tl accumulated)
      by (rewrite <- List.app_assoc; reflexivity).
    rewrite (IH Hr). rewrite <- List.app_assoc. cbn [app List.length].
    rewrite skipn_tl. reflexivity.
Qed.

Lemma baseMerge_overlays (accumulated incoming : list jsval) :
  forallb primitive incoming = true ->
  baseMerge None (VArr incoming) (VArr accumulated)
  = Ret (VArr (overlay accumulated incoming)).
Proof.
  intros Hp. cbn [baseMerge].
  apply (arrayEach_overlays (baseMerge None) incoming Hp [] accumulated).
Qed.

(* ------------------------------------------------------------------ *)
(** ** What a merge leaves alone *)

Lemma mergeEntry_other (c : option customizer) (mergeFunc : jsval -> res jsval)
    (isSrcArr : bool) (key : string) (srcValue : jsval) (p : props_t) (r : jsval) :
  mergeEntry c mergeFunc isSrcArr key srcValue (VObj p) = Ret r ->
  exists p', r = VObj p' /\ forall k, k <> key -> lookup k p' = lookup k p.
Proof.
  assert (S : forall v r, set (VObj p) key v = Ret r ->
              exists p', r = VObj p' /\ forall k, k <> key -> lookup k p' = lookup k p).
  { intros v r0 [= <-]. eexists. split; [reflexivity|].
    intros k Hk. apply lookup_upsert_ne. congruence. }
  assert (I : forall r, Ret (VObj p) = Ret r ->
              exists p', r = VObj p' /\ forall k, k <> key -> lookup k p' = lookup k p).
  { intros r0 [= <-]. eauto. }
  unfold mergeEntry. cbn [get bind].
  destruct (isObjectLike srcValue);
    destruct (apply_customizer c (opt_value (lookup key p)) srcValue);
    try (apply S); intros H.
  - inv_bind H. inv_bind H. eapply S; eauto.
  - destruct srcValue; try (eapply S; eassumption).
    destruct (isSrcArr && negb (has_key (VObj p) key)); [eapply S|apply I]; eassumption.
Qed.

Lemma arrayEach_props_other (c : option customizer) (x : string) (o : props_t) :
  ~ In x (map fst o) ->
  forall index p r,
    arrayEach
      (fun (prop : string * jsval) (_ : nat) object =>
         let (key, srcValue) := prop in
         if mem key inherited_names then Unmodelled
         else mergeEntry c (baseMerge c srcValue) false key srcValue object)
      o index (VObj p) = Ret r ->
    exists p', r = VObj p' /\ lookup x p' = lookup x p.
Proof.
  induction o as [|[key v] rest IH]; intros Hx index p r H; cbn [arrayEach] in H.
  - injection H as <-. eauto.
  - cbn [map fst In] in Hx.
    destruct (mem key inherited_names); [discriminate|].
    inv_bind H. apply mergeEntry_other in Ha. destruct Ha as (p1 & -> & Hp1).
    destruct (IH (fun Hin => Hx (or_intror Hin)) _ _ _ H) as (p' & -> & Hp').
    exists p'. split; [reflexivity|]. rewrite Hp'. apply Hp1.
    intros ->. apply Hx. left. reflexivity.
Qed.

Lemma arrayEach_app {A} (body : A -> nat -> jsval -> res jsval) (l1 l2 : list A)
    (index : nat) (object : jsval) :
  arrayEach body (l1 ++ l2) index object
  = (object' <- arrayEach body l1 index object ;;
     arrayEach body l2 (index + List.length l1) object').
Proof.
  revert index object. induction l1 as [|x r IH]; intros index object; cbn [arrayEach app].
  - cbn [bind List.length]. rewrite Nat.add_0_r. reflexivity.
  - destruct (body x index object); cbn [bind]; [|reflexivity|reflexivity].
    rewrite IH. cbn [List.length]. rewrite Nat.add_succ_r. reflexivity.
Qed.

Lemma lookup_split (x : string) (o : props_t) (v : jsval) :
  lookup x o = Some v ->
  exists o1 o2, o = o1 ++ (x, v) :: o2 /\ ~ In x (map fst o1).
Proof.
  induction o as [|[k w] r IH]; simpl; [discriminate|].
  destruct (String.eqb x k) eqn:E.
  - apply String.eqb_eq in E. subst k. intros [= <-].
    exists [], r. split; [reflexivity|]. simpl. tauto.
  - intros H. destruct (IH H) as (o1 & o2 & -> & Hn).
    exists ((k, w) :: o1), o2. split; [reflexivity|].
    simpl. intros [->|Hin]; [|auto]. rewrite String.eqb_refl in E. discriminate.
Qed.

Lemma lookup_None_not_In (x : string) (o : props_t) :
  lookup x o = None -> ~ In x (map fst o).
Proof.
  intros H Hin. apply lookup_None_mem in H.
  apply mem_false_not_In in H. auto.
Qed.

(* ------------------------------------------------------------------ *)
(** ** What a merge does to one key of the accumulator *)

Section MergeAt.
Variable c : option customizer.
Variable combine : list jsval -> list jsval -> list jsval.
Variable admits : list jsval -> bool.
Variable x : string.
Hypothesis c_ok : customizer_ok c.
Hypothesis c_absent : forall sourceValue, apply_customizer c VUndef sourceValue = VUndef.
Hypothesis entry_combines :
  forall accumulated incoming p,
    admits incoming = true -> lookup x p = Some (VArr accumulated) ->
    mergeEntry c (baseMerge c (VArr incoming)) false x (VArr incoming) (VObj p)
    = Ret (VObj (upsert x (VArr (combine accumulated incoming)) p)).

Lemma baseMerge_at (o p : props_t) (accumulated : option (list jsval)) :
  plain (VObj o) = true -> plain (VObj p) = true ->
  match lookup x o with
  | None => True
  | Some (VArr incoming) => admits incoming = true
  | Some _ => False
  end ->
  lookup x p = option_map VArr accumulated ->
  exists p',
    baseMerge c (VObj o) (VObj p) = Ret (VObj p')
    /\ plain (VObj p') = true
    /\ lookup x p' =
       option_map VArr
         match lookup x o with
         | Some (VArr incoming) =>
             Some (match accumulated with
                   | Some a => combine a incoming
                   | None => incoming
                   end)
         | _ => accumulated
         end.
Proof.
  intros Ho Hp Hx Hacc.
  destruct (baseMerge_plain c c_ok (VObj o) Ho (VObj p) Hp eq_refl eq_refl)
    as (r & Hr & Hpr & [Hk _]).
  destruct r; try discriminate. rename props into p'.
  exists p'. split; [exact Hr|]. split; [exact Hpr|].
  cbn [baseMerge] in Hr.
  destruct (lookup x o) as [v|] eqn:E.
  - destruct v; try contradiction. rename elems into incoming.
    destruct (lookup_split x o _ E) as (o1 & o2 & -> & Hn1).
    assert (Hn2 : ~ In x (map fst o2)).
    { cbn [plain] in Ho. apply andb_true_iff in Ho. destruct Ho as [Hd _].
      rewrite map_app in Hd. cbn [map fst] in Hd.
      destruct (distinct_app _ _ _ Hd) as (_ & H2 & _).
      apply mem_false_not_In. exact H2. }
    rewrite arrayEach_app in Hr. inv_bind Hr.
    destruct (arrayEach_props_other c x o1 Hn1 _ _ _ Ha) as (p1 & -> & Hp1).
    cbn [arrayEach] in Hr.
    destruct (mem x inherited_names); [discriminate|].
    inv_bind Hr.
    assert (Hp2 : exists w, a = VObj (upsert x w p1)
                   /\ w = VArr (match accumulated with
                                | Some a => combine a incoming
                                | None => incoming
                                end)).
    { destruct accumulated as [acc|]; cbn [option_map] in Hacc.
      - rewrite (entry_combines acc incoming p1 Hx) in Ha0 by congruence.
        injection Ha0 as <-. eauto.
      - rewrite mergeEntry_fresh in Ha0.
        + cbn [set] in Ha0. injection Ha0 as <-. eauto.
        + exact c_absent.
        + cbn [get]. rewrite Hp1, Hacc. reflexivity.
        + eapply plain_lookup; [exact Ho|exact E].
        + apply baseMerge_copy; [exact c_absent|].
          eapply plain_lookup; [exact Ho|exact E]. }
    destruct Hp2 as (w & -> & ->).
    destruct (arrayEach_props_other c x o2 Hn2 _ _ _ Hr) as (p2 & [= <-] & Hp2).
    rewrite Hp2, lookup_upsert_eq. reflexivity.
  - destruct (arrayEach_props_other c x o (lookup_None_not_In x o E) _ _ _ Hr)
      as (p2 & [= <-] & Hp2).
    rewrite Hp2. exact Hacc.
Qed.
End MergeAt.

Lemma concatArrays_absent (sourceValue : jsval) :
  apply_customizer (Some concatArrays) VUndef sourceValue = VUndef.
Proof. reflexivity. Qed.

Lemma concatArrays_entry (x : string) (accumulated incoming : list jsval) (p : props_t) :
  lookup x p = Some (VArr accumulated) ->
  mergeEntry (Some concatArrays) (baseMerge (Some concatArrays) (VArr incoming)) false x
    (VArr incoming) (VObj p)
  = Ret (VObj (upsert x (VArr (accumulated ++ incoming)) p)).
Proof.
  intros H. unfold mergeEntry. cbn [get]. rewrite H. reflexivity.
Qed.

Lemma overlay_entry (x : string) (accumulated incoming : list jsval) (p : props_t) :
  forallb primitive incoming = true ->
  lookup x p = Some (VArr accumulated) ->
  mergeEntry None (baseMerge None (VArr incoming)) false x (VArr incoming) (VObj p)
  = Ret (VObj (upsert x (VArr (overlay accumulated incoming)) p)).
Proof.
  intros Hp H. unfold mergeEntry. cbn [get]. rewrite H.
  cbn [opt_value bind apply_customizer isObjectLike].
  rewrite (baseMerge_overlays accumulated incoming Hp). reflexivity.
Qed.

(** [_.merge] with the rule's customizer, at the key [x]. *)
Lemma merge_rule_at (r : merge_rule) (x : string) (o p : props_t)
    (accumulated : option (list jsval)) :
  In r merge_rules ->
  plain (VObj o) = true -> plain (VObj p) = true ->
  match lookup x o with
  | None => True
  | Some (VArr incoming) => admitted r incoming = true
  | Some _ => False
  end ->
  lookup x p = option_map VArr accumulated ->
  exists p',
    lodash_merge (customizer_of r) (VObj p) (VObj o) = Ret (VObj p')
    /\ plain (VObj p') = true
    /\ lookup x p' =
       option_map VArr
         match lookup x o with
         | Some (VArr incoming) =>
             Some (match accumulated with
                   | Some a => combined r a incoming
                   | None => incoming
                   end)
         | _ => accumulated
         end.
Proof.
  intros Hr. cbv [merge_rules In] in Hr.
  destruct Hr as [<-|[<-|[<-|[]]]]; cbn [lodash_merge truthy];
    [ apply (baseMerge_at (Some concatArrays) (@app jsval) (fun _ => true) x
               concatArrays_ok concatArrays_absent);
      intros; apply concatArrays_entry; assumption
    | apply (baseMerge_at None overlay (forallb primitive) x
               no_customizer_ok (fun _ => eq_refl));
      intros; apply overlay_entry; assumption .. ].
Qed.

(* ------------------------------------------------------------------ *)
(** ** The merge rules of [mergeKey] *)

(** The branch [mergeKey] takes for the field of a merge rule. *)
Lemma mergeKey_merge_rule (r : merge_rule) (key : string) (value vso vsix : jsval) :
  In r merge_rules ->
  String.eqb (toLowerCase key) (declared_as r) = true ->
  mergeKey key value vso vsix
  = (vso' <- mergeInto (accumulated_in r) (customizer_of r) value vso ;; Ret (vso', vsix)).
Proof.
  intros Hr Hk. apply String.eqb_eq in Hk. unfold mergeKey. rewrite Hk.
  cbv [merge_rules In] in Hr.
  destruct Hr as [<-|[<-|[<-|[]]]]; reflexivity.
Qed.

Lemma merge_rules_untouched (r : merge_rule) (k : string) (array : bool) :
  In r merge_rules ->
  String.eqb k (declared_as r) = false ->
  untouched (writes_of k array) Service [accumulated_in r] = true.
Proof.
  intros Hr Hno. cbv [merge_rules In] in Hr.
  repeat (destruct Hr as [<-|Hr]; [
    cbn [declared_as accumulated_in contributions_rule contributionPoints_rule
         contributionTypes_rule] in *;
    unfold writes_of;
    repeat match goal with
           | |- context [String.eqb k ?s] =>
               let E := fresh "E" in
               destruct (String.eqb k s) eqn:E;
               [apply String.eqb_eq in E; subst k|]
           end;
    solve [ reflexivity | discriminate | destruct array; reflexivity ] | ]).
  contradiction.
Qed.

Lemma bind_Ret_r {A} (m : res A) : bind m (fun a => Ret a) = m.
Proof. destruct m; reflexivity. Qed.

Lemma mergeInto_holds (r : merge_rule) (x : string) (o : props_t) (vso : jsval)
    (accumulated : option (list jsval)) :
  In r merge_rules ->
  accumulator_holds r x vso accumulated ->
  plain (VObj o) = true ->
  match lookup x o with
  | None => True
  | Some (VArr incoming) => admitted r incoming = true
  | Some _ => False
  end ->
  exists vso',
    mergeInto (accumulated_in r) (customizer_of r) (VObj o) vso = Ret vso'
    /\ accumulator_holds r x vso'
         match lookup x o with
         | Some (VArr incoming) =>
             Some (match accumulated with
                   | Some a => combined r a incoming
                   | None => incoming
                   end)
         | _ => accumulated
         end.
Proof.
  intros Hr [Hobj Hacc] Ho Hx.
  destruct vso as [| | | | | |props]; try discriminate.
  unfold mergeInto.
  destruct Hacc as [[Hget ->]|(p & Hget & Hp & Hl)]; rewrite Hget; cbn [bind truthy set].
  - destruct (merge_rule_at r x o [] None Hr Ho eq_refl Hx eq_refl)
      as (p' & -> & Hp' & Hl').
    cbn [bind]. eexists. split; [reflexivity|].
    split; [reflexivity|]. right. exists p'.
    split; [|split; assumption].
    cbn [get]. rewrite lookup_upsert_eq. reflexivity.
  - destruct (merge_rule_at r x o p accumulated Hr Ho Hp Hx Hl)
      as (p' & -> & Hp' & Hl').
    cbn [bind]. eexists. split; [reflexivity|].
    split; [reflexivity|]. right. exists p'.
    split; [|split; assumption].
    cbn [get]. rewrite lookup_upsert_eq. reflexivity.
Qed.

(** One declaration: the accumulator holds afterwards what the rule
    combines. *)
Lemma mergeKey_holds (r : merge_rule) (x : string) (key : string)
    (value vso vsix vso' vsix' : jsval) (accumulated : option (list jsval)) :
  In r merge_rules ->
  regular r x (key, value) = true ->
  accumulator_holds r x vso accumulated ->
  mergeKey key value vso vsix = Ret (vso', vsix') ->
  accumulator_holds r x vso' (combine_with r x accumulated (key, value)).
Proof.
  intros Hr Hreg Hacc H.
  unfold regular, combine_with, declared_array in *. cbn [fst snd] in *.
  destruct (String.eqb (toLowerCase key) (declared_as r)) eqn:E.
  - destruct value as [| | | | | |o]; try discriminate.
    apply andb_true_iff in Hreg. destruct Hreg as [Ho Hx].
    rewrite (mergeKey_merge_rule r key _ vso vsix Hr E) in H.
    destruct (mergeInto_holds r x o vso accumulated Hr Hacc Ho) as (vso1 & Hm & Hh).
    { destruct (lookup x o) as [[]|]; try discriminate; auto. }
    rewrite Hm in H. cbn [bind] in H. injection H as <- <-.
    destruct (lookup x o) as [[]|]; exact Hh.
  - destruct Hacc as [Hobj Hacc]. split.
    + eapply mergeKey_object; eauto.
    + pose proof (mergeKey_effect key value vso vsix vso' vsix' Service
                    [accumulated_in r] H
                    (merge_rules_untouched r _ _ Hr E)) as F.
      cbn [pick get_path] in F. rewrite !bind_Ret_r in F.
      rewrite F; [exact Hacc|].
      cbv [merge_rules In] in Hr.
      destruct Hr as [<-|[<-|[<-|[]]]]; cbn; intros [D|[]]; discriminate.
Qed.

Lemma merged_array_snoc (r : merge_rule) (x : string) (decls : list (string * jsval))
    (d : string * jsval) :
  merged_array r x (decls ++ [d]) = combine_with r x (merged_array r x decls) d.
Proof. unfold merged_array. rewrite fold_left_app. reflexivity. Qed.

Lemma mergeKeys_hold (r : merge_rule) (x : string) (decls : list (string * jsval))
    (vso vsix vso' vsix' : jsval) :
  In r merge_rules ->
  forallb (regular r x) decls = true ->
  accumulator_holds r x vso None ->
  mergeKeys decls (vso, vsix) = Ret (vso', vsix') ->
  accumulator_holds r x vso' (merged_array r x decls).
Proof.
  intros Hr Hreg H0. revert vso' vsix'.
  induction decls as [|d ds IH] using rev_ind; intros vso' vsix' H.
  - unfold mergeKeys in H. simpl in H. injection H as <- <-. exact H0.
  - rewrite mergeKeys_snoc in H. inv_bind H. destruct a as [vso1 vsix1].
    rewrite forallb_app in Hreg. apply andb_true_iff in Hreg.
    destruct Hreg as [Hds Hd]. cbn [forallb] in Hd. rewrite andb_true_r in Hd.
    rewrite merged_array_snoc.
    destruct d as [key value].
    eapply mergeKey_holds; eauto.
Qed.

Section MergeRuleFacts.
Variable path_isAbsolute : string -> bool.
Variable path_dirname : string -> string.
Variable path_join : string -> string -> string.
Variable path_relative : string -> string -> string.
Variable root : string.

Let resolve := resolveAssets path_isAbsolute path_dirname path_join path_relative root.
Let merge1 := mergePartial path_isAbsolute path_dirname path_join path_relative root.

(** C1, as amended.  For every ordered list of partial manifests merged
    in order into a service manifest that has no [contributions],
    [contributionPoints] or [contributionTypes] yet: let the declarations
    of one of these fields (matched without regard to case) be objects as
    [JSON.parse] delivers them, in which the key [x], where present, holds
    an array (for [contributionPoints] and [contributionTypes]: an array
    of primitive values).  Then, if [x] is declared at all, the merged
    field holds for [x] one array.  For [contributions] it is the
    concatenation of all the declared arrays, those of earlier partial
    manifests first.  For [contributionPoints] and [contributionTypes] the
    arrays are merged position by position: an incoming array replaces
    the accumulated elements at its own positions and leaves the
    accumulated elements past its end in place; the array is replaced as
    a whole only by an array that is at least as long. *)
Theorem contributions_concatenate_arrays_merge_by_position
    (partials resolved : list jsval) (vso0 vsix0 vso vsix : jsval)
    (r : merge_rule) (x : string) (merged : list jsval) :
  is_object vso0 = true ->
  get vso0 (accumulated_in r) = Ret VUndef ->
  mapM resolve partials = Ret resolved ->
  forEach partials merge1 (vso0, vsix0) = Ret (vso, vsix) ->
  In r merge_rules ->
  forallb (regular r x) (flat_map declarations resolved) = true ->
  merged_array r x (flat_map declarations resolved) = Some merged ->
  get_path vso [accumulated_in r; x] = Ret (VArr merged).
Proof.
  intros Ho Hg Hm H Hr Hreg Hmerged.
  pose proof (mergePartials_declarations path_isAbsolute path_dirname path_join
                path_relative root partials resolved _ _ Hm H) as Hk.
  destruct (mergeKeys_hold r x _ vso0 vsix0 vso vsix Hr Hreg) as [_ Hh]; auto.
  { split; [exact Ho|]. left. auto. }
  rewrite Hmerged in Hh. destruct Hh as [[_ D]|(p & Hget & _ & Hl)]; [discriminate|].
  cbn [get_path]. rewrite Hget. cbn [bind get option_map] in *. rewrite Hl. reflexivity.
Qed.
End MergeRuleFacts.

Lemma contributions_concatenate_arrays_merge_by_position_witness :
  get_path (fst (merged_of contributions_partials)) ["contributions"; "x"]
  = Ret (VArr [VNum 1; VNum 2])
  /\ get_path (fst (merged_of contributionPoints_partials)) ["contributionPoints"; "x"]
     = Ret (VArr [VNum 2])
  /\ get_path (fst (merged_of longer_first_partials)) ["contributionPoints"; "x"]
     = Ret (VArr [VNum 3; VNum 2]).
Proof.
  pose proof (fun partials r merged =>
    contributions_concatenate_arrays_merge_by_position
      posix_isAbsolute posix_dirname posix_join posix_relative "/r"
      partials (resolved_of partials)
      (fst initial_accumulators) (snd initial_accumulators)
      (fst (merged_of partials)) (snd (merged_of partials)) r "x" merged
      (eq_refl : is_object (fst initial_accumulators) = true)) as W.
  split; [|split].
  - apply (W contributions_partials contributions_rule [VNum 1; VNum 2]);
      [reflexivity | reflexivity | reflexivity | cbv [merge_rules In]; tauto
      | reflexivity | reflexivity].
  - apply (W contributionPoints_partials contributionPoints_rule [VNum 2]);
      [reflexivity | reflexivity | reflexivity | cbv [merge_rules In]; tauto
      | reflexivity | reflexivity].
  - apply (W longer_first_partials contributionPoints_rule [VNum 3; VNum 2]);
      [reflexivity | reflexivity | reflexivity | cbv [merge_rules In]; tauto
      | reflexivity | reflexivity].
Defined.

(** C1 as stated fails for [contributionPoints]: the first partial
    manifest declares the key [x] with the array [[1, 2]], the second
    with [[3]]; the merge completes, and the merged field holds
    [[3, 2]] for [x], not the array of the last declaration. *)
Lemma contributionPoints_array_counterexample :
  forEach longer_first_partials sample_mergePartial initial_accumulators
  = Ret (merged_of longer_first_partials)
  /\ mapM sample_resolveAssets longer_first_partials
     = Ret (resolved_of longer_first_partials)
  /\ last_declaration_of "contributionpoints"
       (flat_map declarations (resolved_of longer_first_partials))
     = Some (VObj [("x", VArr [VNum 3])])
  /\ get_path (fst (merged_of longer_first_partials)) ["contributionPoints"; "x"]
     = Ret (VArr [VNum 3; VNum 2])
  /\ get_path (fst (merged_of longer_first_partials)) ["contributionPoints"; "x"]
     <> Ret (VArr [VNum 3]).
Proof.
  split; [vm_compute; reflexivity|]. split; [vm_compute; reflexivity|].
  split; [vm_compute; reflexivity|]. split; [vm_compute; reflexivity|].
  vm_compute. discriminate.
Qed.

(* ================================================================== *)
(** * Further properties of the code *)

(* ------------------------------------------------------------------ *)
(** ** [err]: inputs and bodies the translator is not written for *)

(** X1.  [err] translates objects only.  An input that is neither a
    string nor an object ([undefined], [null], a boolean, a number, an
    array) fails with a TypeError, raised by a property read; so does a
    text that [JSON.parse] decodes to anything but an object; and a text
    that decodes to an object is treated as that object. *)
Theorem err_translates_objects_only (JSON_parse : string -> option jsval) :
  (forall obj : jsval,
      (forall s, obj <> VStr s) -> (forall o, obj <> VObj o) ->
      err JSON_parse obj = Throw TypeError)
  /\ (forall (s : string) (v : jsval),
         JSON_parse s = Some v -> (forall o, v <> VObj o) ->
         err JSON_parse (VStr s) = Throw TypeError)
  /\ (forall (s : string) (o : props_t),
         JSON_parse s = Some (VObj o) ->
         err JSON_parse (VStr s) = err JSON_parse (VObj o)).
Proof.
  split; [|split].
  - intros obj Hs Ho.
    destruct obj as [| |b|n|s|l|o]; try reflexivity.
    + exfalso. exact (Hs s eq_refl).
    + exfalso. exact (Ho o eq_refl).
  - intros s v Hp Ho. unfold err. rewrite Hp. cbn [bind].
    destruct v as [| |b|n|s'|l|o]; try reflexivity.
    exfalso. exact (Ho o eq_refl).
  - intros s o Hp. unfold err. rewrite Hp. reflexivity.
Qed.

Lemma err_translates_objects_only_witness :
  err parse_json (VArr [VNum 401]) = Throw TypeError
  /\ err parse_json (VStr "null") = Throw TypeError
  /\ err parse_json (VStr message_X_text)
     = err parse_json (VObj [("message", VStr "X")]).
Proof.
  destruct (err_translates_objects_only parse_json) as (H1 & H2 & H3).
  split; [|split].
  - apply H1; discriminate.
  - apply (H2 "null" VNull); [reflexivity | discriminate].
  - apply H3. reflexivity.
Defined.

(** X2.  A response, not a 401, whose body is a non-empty string that
    is not JSON: the raw body text is thrown. *)
Theorem err_unparsable_body (JSON_parse : string -> option jsval)
    (o : props_t) (text : string) :
  lookup "statusCode" o <> Some (VNum 401) ->
  lookup "body" o = Some (VStr text) ->
  text <> "" ->
  JSON_parse text = None ->
  err JSON_parse (VObj o) = Throw (Thrown (VStr text)).
Proof.
  intros Hs Hb Hne Hp. rewrite (err_other_status JSON_parse o Hs).
  cbn [get bind]. rewrite Hb. cbn [opt_value truthy].
  destruct (String.eqb text "") eqn:E.
  - apply String.eqb_eq in E. contradiction.
  - cbn [negb]. rewrite Hp. reflexivity.
Qed.

Lemma err_unparsable_body_witness :
  err parse_json (VObj [("statusCode", VNum 502); ("body", VStr "Bad Gateway")])
  = Throw (Thrown (VStr "Bad Gateway")).
Proof.
  apply (err_unparsable_body parse_json _ "Bad Gateway");
    [discriminate | reflexivity | discriminate | reflexivity].
Defined.

(** X3.  A response, not a 401, whose body is an object: [err] throws
    the body's [message] when that is truthy, whatever its type, and the
    body object itself when [message] is missing or falsy (the empty
    string, [0], [null], [false]). *)
Theorem err_message_or_body (JSON_parse : string -> option jsval) (o b : props_t) :
  lookup "statusCode" o <> Some (VNum 401) ->
  lookup "body" o = Some (VObj b) ->
  err JSON_parse (VObj o) =
    Throw (Thrown (if truthy (opt_value (lookup "message" b))
                   then opt_value (lookup "message" b)
                   else VObj b)).
Proof.
  intros Hs Hb. rewrite (err_other_status JSON_parse o Hs).
  cbn [get bind]. rewrite Hb. cbn [opt_value truthy bind get].
  destruct (truthy (opt_value (lookup "message" b))); reflexivity.
Qed.

Lemma err_message_or_body_witness :
  err parse_json (VObj [("body", VObj [("message", VStr ""); ("code", VNum 7)])])
  = Throw (Thrown (VObj [("message", VStr ""); ("code", VNum 7)])).
Proof.
  apply (err_message_or_body parse_json
           [("body", VObj [("message", VStr ""); ("code", VNum 7)])]
           [("message", VStr ""); ("code", VNum 7)]);
    [discriminate | reflexivity].
Defined.

(* ------------------------------------------------------------------ *)
(** ** [Merger]: loading, resolving and the settlement of [merge] *)

Lemma lookup_unrecognized (o : props_t) (k : string) :
  forallb unrecognized (map fst o) = true ->
  unrecognized k = false ->
  lookup k o = None.
Proof.
  intros Hall Hk. destruct (lookup k o) as [v|] eqn:E; [|reflexivity].
  apply lookup_In_keys in E. rewrite forallb_forall in Hall.
  rewrite (Hall k E) in Hk. discriminate.
Qed.

Lemma writes_leave_root_annotation (key : string) (array : bool) (d : document) :
  untouched (writes_of key array) d ["__meta_root"] = true.
Proof.
  unfold writes_of.
  repeat match goal with
         | |- context [String.eqb key ?s] => destruct (String.eqb key s)
         end;
    destruct array, d; reflexivity.
Qed.

Section MergeOutcomes.
Variable JSON_parse : string -> option jsval.
Variable readFile : string -> option string.
Variable path_isAbsolute : string -> bool.
Variable path_dirname : string -> string.
Variable path_join : string -> string -> string.
Variable path_relative : string -> string -> string.
Variable root : string.
Variable default_vsixmanifest : jsval.

Let load := loadManifest JSON_parse readFile.
Let resolve1 := resolveAsset path_isAbsolute path_dirname path_join path_relative root.
Let resolve := resolveAssets path_isAbsolute path_dirname path_join path_relative root.
Let merge1 := mergePartial path_isAbsolute path_dirname path_join path_relative root.
Let run := merge JSON_parse readFile path_isAbsolute path_dirname path_join
             path_relative root default_vsixmanifest.

Lemma load_logs_no_error (file : string) (e : exn) : ~ In (Error e) (fst (load file)).
Proof.
  unfold load, loadManifest.
  destruct (readFile file) as [data|]; [|simpl; tauto].
  destruct (JSON_parse data) as [result|];
    [destruct (set result "__origin" (VStr file))|];
    simpl; intros H; repeat destruct H as [H|H]; try discriminate; exact H.
Qed.

Lemma loads_log_no_error (files : list string) (e : exn) :
  ~ In (Error e) (flat_map fst (map load files)).
Proof.
  intros H. apply in_flat_map in H. destruct H as (ld & Hin & He).
  apply in_map_iff in Hin. destruct Hin as (file & <- & _).
  exact (load_logs_no_error file e He).
Qed.

(** An invariant of the accumulators that every step of [mergeKey]
    keeps is kept by the loop over the partial manifests. *)
Lemma mergePartials_keep (I : jsval -> jsval -> Prop) :
  (forall key value vso vsix vso' vsix',
      I vso vsix -> mergeKey key value vso vsix = Ret (vso', vsix') -> I vso' vsix') ->
  forall partials vso vsix vso' vsix',
    forEach partials merge1 (vso, vsix) = Ret (vso', vsix') ->
    I vso vsix -> I vso' vsix'.
Proof.
  intros Hstep.
  assert (Hkeys : forall partial keys vso vsix vso' vsix',
             forEach keys
               (fun key '(vsoManifest, vsixManifest) =>
                  value <- get partial key ;;
                  mergeKey key value vsoManifest vsixManifest) (vso, vsix)
             = Ret (vso', vsix') ->
             I vso vsix -> I vso' vsix').
  { intros partial keys. induction keys as [|key r IH]; intros vso vsix vso' vsix' H HI.
    - simpl in H. injection H as <- <-. exact HI.
    - simpl in H. inv_bind H. destruct a as [vso1 vsix1]. inv_bind Ha.
      apply (IH _ _ _ _ H). eapply Hstep; eauto. }
  induction partials as [|p ps IH]; intros vso vsix vso' vsix' H HI.
  - simpl in H. injection H as <- <-. exact HI.
  - simpl in H. inv_bind H. destruct a as [vso1 vsix1].
    apply (IH _ _ _ _ H).
    unfold merge1, mergePartial in Ha. inv_bind Ha. inv_bind Ha.
    eapply Hkeys; eauto.
Qed.

(** X4.  The promise returned by [merge] is never rejected.  It is
    fulfilled either with the pair of merged manifests, and then no
    error line is written to the console, or with [undefined], and then
    one error is reported with [console.error]: the console holds an
    error line, and no line for another error.  The latter is what
    happens, in particular, whenever one of the files cannot be read. *)
Theorem merge_never_rejects (files : list string) :
  (forall e, snd (run files) <> Throw e)
  /\ (forall v, snd (run files) = Ret v ->
        (v = VUndef
         /\ exists e, In (Error e) (fst (run files))
                      /\ forall e', In (Error e') (fst (run files)) -> e' = e)
        \/ (exists vso vsix,
              v = SplitManifest vso vsix
              /\ forall e, ~ In (Error e) (fst (run files))))
  /\ (forall file, In file files -> readFile file = None ->
        forall vso vsix, snd (run files) <> Ret (SplitManifest vso vsix)).
Proof.
  pose proof (merge_cases JSON_parse readFile path_isAbsolute path_dirname path_join
                path_relative root default_vsixmanifest files) as Hc.
  cbv zeta in Hc. fold load in Hc. fold run in Hc. fold merge1 in Hc.
  split; [|split].
  - intros e. destruct Hc as [[e' ->]|[->|(v0 & ps & vso & vsix & _ & _ & _ & ->)]];
      discriminate.
  - intros v Hv.
    destruct Hc as [[e' He]|[Hu|(v0 & ps & vso & vsix & _ & _ & _ & Hr)]].
    + left. rewrite He in *. cbn [fst snd] in *. injection Hv as <-.
      split; [reflexivity|]. exists e'. split.
      * apply in_or_app. right. left. reflexivity.
      * intros e2 H2. apply in_app_or in H2. destruct H2 as [H2|[H2|[]]].
        -- exfalso. exact (loads_log_no_error files e2 H2).
        -- congruence.
    + rewrite Hu in Hv. discriminate.
    + right. rewrite Hr in *. cbn [fst snd] in *. injection Hv as <-.
      exists vso, vsix. split; [reflexivity|]. intros e. apply loads_log_no_error.
  - intros file Hin Hread vso vsix Hv.
    destruct Hc as [[e' He]|[Hu|(v0 & ps & vso1 & vsix1 & _ & Hq & _ & _)]].
    + rewrite He in Hv. discriminate.
    + rewrite Hu in Hv. discriminate.
    + apply (Q_all_not_Ret (map snd (map load files)) (snd (load file))) with (l := ps).
      * apply in_map. apply in_map. exact Hin.
      * unfold load, loadManifest. rewrite Hread. discriminate.
      * exact Hq.
Qed.

(** X5.  What the loader makes of a file it could read.  A document that
    is an object becomes the partial manifest, with [__origin] set to
    the path of the file, also when the document declares an [__origin]
    of its own, and with its other properties as they are; nothing is
    written to the console.  The document [null] is valid JSON, but
    tagging it fails inside the [try]: the file is reported like one that
    does not parse, and the promise is rejected with a TypeError. *)
Theorem loadManifest_tags_origin (file data : string) :
  readFile file = Some data ->
  (forall o, JSON_parse data = Some (VObj o) ->
     exists o',
       load file = ([], Ret (VObj o'))
       /\ lookup "__origin" o' = Some (VStr file)
       /\ forall k, k <> "__origin" -> lookup k o' = lookup k o)
  /\ (JSON_parse data = Some VNull ->
      load file =
        ([Log ("Error parsing the JSON in " ++ file ++ ": "); Log data],
         Throw TypeError)).
Proof.
  intros Hread. unfold load, loadManifest. rewrite Hread. split.
  - intros o ->. cbn [set]. eexists. split; [reflexivity|].
    split; [apply lookup_upsert_eq|].
    intros k Hk. apply lookup_upsert_ne. congruence.
  - intros ->. reflexivity.
Qed.

(** X6.  Keys outside the dispatch table are dropped without a trace:
    partial manifests (objects) all of whose keys are unrecognized,
    whatever the case of their letters, leave both accumulators exactly
    as they were, and the merge goes on. *)
Theorem unrecognized_keys_are_dropped (partials : list jsval) (acc : jsval * jsval) :
  Forall (fun partial => is_object partial = true
                         /\ forallb unrecognized (keys_of partial) = true) partials ->
  forEach partials merge1 acc = Ret acc.
Proof.
  destruct acc as [vso vsix].
  induction 1 as [|p ps [Hobj Hkeys] _ IH]; [reflexivity|].
  destruct (is_object_inv _ Hobj) as [o ->]. cbn [keys_of] in Hkeys.
  cbn [forEach].
  assert (Hp : merge1 (VObj o) (vso, vsix) = Ret (vso, vsix)).
  { unfold merge1, mergePartial, resolveAssets. cbn [get bind].
    rewrite (lookup_unrecognized o "assets" Hkeys eq_refl).
    cbn [opt_value bind Object_keys].
    revert Hkeys. generalize (map fst o) as keys.
    induction keys as [|key r IHk]; intros Hkeys; [reflexivity|].
    cbn [forallb] in Hkeys. apply andb_true_iff in Hkeys. destruct Hkeys as [Hk Hr].
    cbn [forEach get bind].
    rewrite mergeKey_unrecognized
      by (unfold unrecognized in Hk; apply negb_true_iff in Hk; exact Hk).
    cbn [bind]. apply IHk. exact Hr. }
  rewrite Hp. cbn [bind]. exact IH.
Qed.

Lemma resolveAsset_accepted (partial : props_t) (origin : string) (asset : jsval) :
  lookup "__origin" partial = Some (VStr origin) ->
  accepted_asset path_isAbsolute asset = true ->
  resolve1 (VObj partial) asset
  = Ret (rebased path_dirname path_join path_relative root origin asset).
Proof.
  intros Ho Ha. unfold accepted_asset in Ha.
  destruct asset as [| | | | | |a]; try discriminate.
  apply andb_true_iff in Ha. destruct Ha as [Hk Hp].
  unfold declares_type_and_path in Hk.
  apply andb_true_iff in Hk. destruct Hk as [Hk Hpath].
  apply andb_true_iff in Hk. destruct Hk as [Hlen Htype].
  unfold resolve1, resolveAsset, rebased. cbn [Object_keys bind].
  rewrite Hlen, Htype, Hpath. cbn [negb orb get].
  destruct (lookup "path" a) as [[| | | |p| |]|]; try discriminate.
  cbn [opt_value bind]. apply negb_true_iff in Hp. rewrite Hp.
  rewrite Ho. reflexivity.
Qed.

(** X7.  Path resolution on a partial manifest whose asset declarations
    are all in order (exactly the keys [type] and [path], the path a
    relative one): every declaration keeps its type and gets the path
    [relative(root, join(dirname(origin), path))], where [origin] is the
    file the partial manifest was loaded from; the order of the
    declarations and the other keys of the partial manifest stay. *)
Theorem resolveAssets_rebases_paths (partial : props_t) (origin : string)
    (assets : list jsval) :
  lookup "assets" partial = Some (VArr assets) ->
  lookup "__origin" partial = Some (VStr origin) ->
  forallb (accepted_asset path_isAbsolute) assets = true ->
  resolve (VObj partial)
  = Ret (VObj (upsert "assets"
                 (VArr (map (rebased path_dirname path_join path_relative root origin)
                          assets))
                 partial)).
Proof.
  intros Ha Ho Hall. unfold resolve, resolveAssets. cbn [get]. rewrite Ha.
  cbn [opt_value bind]. fold resolve1.
  assert (Hm : mapM (resolve1 (VObj partial)) assets
               = Ret (map (rebased path_dirname path_join path_relative root origin)
                        assets)).
  { clear Ha. induction assets as [|a r IH]; [reflexivity|].
    cbn [forallb] in Hall. apply andb_true_iff in Hall. destruct Hall as [H1 H2].
    cbn [mapM map]. rewrite (resolveAsset_accepted partial origin a Ho H1).
    cbn [bind]. rewrite (IH H2). reflexivity. }
  rewrite Hm. reflexivity.
Qed.

(** The loop over the partial manifests leaves the root annotation of
    either accumulator alone. *)
Lemma mergePartials_keep_root (partials : list jsval) (vso vsix vso' vsix' : jsval) :
  forEach partials merge1 (vso, vsix) = Ret (vso', vsix') ->
  get vso' "__meta_root" = get vso "__meta_root"
  /\ get vsix' "__meta_root" = get vsix "__meta_root".
Proof.
  intros Hf.
  apply (mergePartials_keep
           (fun a b => get a "__meta_root" = get vso "__meta_root"
                       /\ get b "__meta_root" = get vsix "__meta_root"))
    with (partials := partials) (vso := vso) (vsix := vsix); [|exact Hf|auto].
  intros key value a b a' b' [Ha Hb] H.
  pose proof (mergeKey_effect key value a b a' b' Service ["__meta_root"] H
                (writes_leave_root_annotation _ _ _)) as F1.
  pose proof (mergeKey_effect key value a b a' b' Package ["__meta_root"] H
                (writes_leave_root_annotation _ _ _)) as F2.
  cbn [pick get_path] in F1, F2. rewrite !bind_Ret_r in F1, F2.
  rewrite F1, F2; try (cbn; intros [D|[]]; discriminate). auto.
Qed.

(** X8.  The root annotation cannot be overridden: whatever the partial
    manifests declare, a key named [__meta_root] included, both
    documents that [merge] resolves to carry the merger's root as
    [__meta_root]. *)
Theorem merge_keeps_root_annotation (files : list string) (log : list console_line)
    (vso vsix : jsval) :
  is_object default_vsixmanifest = true ->
  run files = (log, Ret (SplitManifest vso vsix)) ->
  get vso "__meta_root" = Ret (VStr root)
  /\ get vsix "__meta_root" = Ret (VStr root).
Proof.
  intros Ht Hrun.
  destruct (is_object_inv _ Ht) as [t Et].
  destruct (merge_cases JSON_parse readFile path_isAbsolute path_dirname path_join
              path_relative root default_vsixmanifest files)
    as [[e He]|[Hu|(vsix0 & partials & vso1 & vsix1 & H0 & _ & Hf & Hr)]];
    unfold run in Hrun;
    [ rewrite Hrun in He; unfold SplitManifest in He; discriminate
    | rewrite Hrun in Hu; discriminate | ].
  rewrite Hrun in Hr. unfold SplitManifest in Hr. injection Hr as -> -> ->.
  rewrite Et in H0. cbn [set] in H0. injection H0 as <-.
  fold merge1 in Hf.
  destruct (mergePartials_keep_root _ _ _ _ _ Hf) as [-> ->].
  split; [reflexivity|]. cbn [get]. rewrite lookup_upsert_eq. reflexivity.
Qed.

(** X9.  The merge keeps the part of the package-manifest schema it
    writes through: if in the template [Metadata[0].Identity[0].$] is an
    object, [Metadata[0].DisplayName] an array and
    [Metadata[0].Description[0]] an object, the same holds of the package
    manifest that [merge] resolves to, whatever values the partial
    manifests declared; and the service manifest is an object. *)
Theorem merge_keeps_package_schema (files : list string) (log : list console_line)
    (vso vsix : jsval) :
  package_shape default_vsixmanifest = true ->
  run files = (log, Ret (SplitManifest vso vsix)) ->
  package_shape vsix = true /\ is_object vso = true.
Proof.
  intros Hs Hrun.
  destruct (merge_cases JSON_parse readFile path_isAbsolute path_dirname path_join
              path_relative root default_vsixmanifest files)
    as [[e He]|[Hu|(vsix0 & partials & vso1 & vsix1 & H0 & _ & Hf & Hr)]];
    unfold run in Hrun;
    [ rewrite Hrun in He; unfold SplitManifest in He; discriminate
    | rewrite Hrun in Hu; discriminate | ].
  rewrite Hrun in Hr. unfold SplitManifest in Hr. injection Hr as -> -> ->.
  fold merge1 in Hf.
  apply (mergePartials_keep
           (fun vso vsix => package_shape vsix = true /\ is_object vso = true))
    with (partials := partials) (vso := VObj [("__meta_root", VStr root)])
         (vsix := vsix0).
  - intros key value a b a' b' [Ha Hb] H. split.
    + eapply mergeKey_shape; eauto.
    + eapply mergeKey_object; eauto.
  - exact Hf.
  - split; [|reflexivity].
    rewrite set_as_set_path in H0.
    unfold package_shape in *.
    rewrite !(reaches_other _ ["__meta_root"] _ _ _ _ H0); try reflexivity; trivial;
      cbn; intuition discriminate.
Qed.
End MergeOutcomes.

Lemma merge_never_rejects_witness :
  (forall e, snd (sample_merge template_vsixmanifest sample_files
                    ["/r/manifests/a.json"; "/r/manifests/missing.json"]) <> Throw e)
  /\ (forall vso vsix,
        snd (sample_merge template_vsixmanifest sample_files
               ["/r/manifests/a.json"; "/r/manifests/missing.json"])
        <> Ret (SplitManifest vso vsix)).
Proof.
  destruct (merge_never_rejects parse_json sample_files posix_isAbsolute posix_dirname
              posix_join posix_relative "/r" template_vsixmanifest
              ["/r/manifests/a.json"; "/r/manifests/missing.json"])
    as (H1 & _ & H3).
  split; [exact H1|].
  apply (H3 "/r/manifests/missing.json"); [right; left; reflexivity | reflexivity].
Defined.

Lemma loadManifest_tags_origin_witness :
  loadManifest parse_json files_with_null "/r/manifests/null.json"
  = ([Log "Error parsing the JSON in /r/manifests/null.json: "; Log "null"],
     Throw TypeError).
Proof.
  apply (proj2 (loadManifest_tags_origin parse_json files_with_null
                  "/r/manifests/null.json" "null" eq_refl)).
  reflexivity.
Defined.

Lemma unrecognized_keys_are_dropped_witness :
  forEach [misspelt_partial] sample_mergePartial initial_accumulators
  = Ret initial_accumulators.
Proof.
  apply (unrecognized_keys_are_dropped posix_isAbsolute posix_dirname posix_join
           posix_relative "/r" [misspelt_partial] initial_accumulators).
  constructor; [|constructor]. split; reflexivity.
Defined.

Lemma resolveAssets_rebases_paths_witness :
  sample_resolveAssets (VObj partial_with_two_assets)
  = Ret (VObj (upsert "assets"
                 (VArr (map (rebased posix_dirname posix_join posix_relative "/r"
                               "/r/manifests/a.json") two_assets))
                 partial_with_two_assets)).
Proof.
  apply (resolveAssets_rebases_paths posix_isAbsolute posix_dirname posix_join
           posix_relative "/r" partial_with_two_assets "/r/manifests/a.json" two_assets);
    reflexivity.
Defined.

Lemma merge_keeps_root_annotation_witness :
  exists log vso vsix,
    sample_merge template_vsixmanifest files_with_root_key ["/r/manifests/a.json"]
    = (log, Ret (SplitManifest vso vsix))
    /\ get vso "__meta_root" = Ret (VStr "/r")
    /\ get vsix "__meta_root" = Ret (VStr "/r").
Proof.
  eexists _, _, _. split; [vm_compute; reflexivity|].
  eapply (merge_keeps_root_annotation parse_json files_with_root_key posix_isAbsolute
            posix_dirname posix_join posix_relative "/r" template_vsixmanifest
            ["/r/manifests/a.json"]);
    [reflexivity | vm_compute; reflexivity].
Defined.

Lemma merge_keeps_package_schema_witness :
  exists log vso vsix,
    sample_merge template_vsixmanifest sample_files ["/r/manifests/a.json"]
    = (log, Ret (SplitManifest vso vsix))
    /\ package_shape vsix = true /\ is_object vso = true.
Proof.
  eexists _, _, _. split; [vm_compute; reflexivity|].
  eapply (merge_keeps_package_schema parse_json sample_files posix_isAbsolute
            posix_dirname posix_join posix_relative "/r" template_vsixmanifest
            ["/r/manifests/a.json"]);
    [reflexivity | vm_compute; reflexivity].
Defined.

(* ------------------------------------------------------------------ *)
(** ** [mergeKey]: the two documents *)

(** X10.  Each key writes to its own document.  The branches for
    [publisher], [releaseNotes], [tags], [vsoFlags], [categories] and
    [assets] never change the service manifest, and the branches for
    [baseUri], [contributions], [contributionPoints] and
    [contributionTypes] never change the package manifest. *)
Theorem mergeKey_keeps_documents_apart (key : string)
    (value vso vsix vso' vsix' : jsval) :
  mergeKey key value vso vsix = Ret (vso', vsix') ->
  (mem (toLowerCase key) package_only_keys = true -> vso' = vso)
  /\ (mem (toLowerCase key) service_only_keys = true -> vsix' = vsix).
Proof.
  intros H. unfold mergeKey in H. cbv zeta in H. mergeKey_branch H;
    repeat match goal with
           | E : String.eqb (toLowerCase key) _ = true |- _ =>
               apply String.eqb_eq in E; rewrite E in *; clear E
           end;
    try (destruct value);
    (split; intros M;
     first [ solve [unbind H; reflexivity]
           | vm_compute in M; discriminate M
           | idtac ]).
  all: unfold mem, package_only_keys, service_only_keys in M; cbn [existsb] in M;
    repeat match goal with
           | E : String.eqb (toLowerCase _) _ = false |- _ =>
               rewrite E in M; clear E
           end; discriminate M.
Qed.

Lemma mergeKey_keeps_documents_apart_witness :
  fst merged_publisher = named_service.
Proof.
  apply (proj1 (mergeKey_keeps_documents_apart "Publisher" (VStr "me")
                  named_service template_vsixmanifest
                  (fst merged_publisher) (snd merged_publisher) eq_refl)).
  reflexivity.
Defined.

Lemma join_commas_strings (l : list string) :
  join_commas (map VStr l) = Ret (String.concat "," l).
Proof.
  unfold join_commas. cbn [toString].
  induction l as [|x r IH]; [reflexivity|].
  cbn [map toString bind]. destruct r as [|y r']; [reflexivity|].
  cbn [map] in *. rewrite IH. reflexivity.
Qed.

(** X11.  [tags], [vsoFlags] and [categories] declared as an array of
    strings: the package manifest gets, under [Metadata[0]], a
    one-element list that holds the strings separated by commas, in the
    order of the array (the empty string for an empty array); the
    service manifest is not changed. *)
Theorem list_fields_are_comma_separated (key field_name : string) (l : list string)
    (vso vsix : jsval) :
  list_field (toLowerCase key) = Some field_name ->
  package_shape vsix = true ->
  exists vsix',
    mergeKey key (VArr (map VStr l)) vso vsix = Ret (vso, vsix')
    /\ get_path vsix' (Metadata_0 ++ [field_name])
       = Ret (VArr [VStr (String.concat "," l)]).
Proof.
  intros Hk Hs.
  destruct (package_shape_inv vsix Hs) as (_ & _ & _ & (m & Hm) & _).
  unfold list_field in Hk. unfold mergeKey. cbv zeta.
  destruct (String.eqb (toLowerCase key) "tags") eqn:E1;
    [|destruct (String.eqb (toLowerCase key) "vsoflags") eqn:E2;
      [|destruct (String.eqb (toLowerCase key) "categories") eqn:E3; [|discriminate]]];
    injection Hk as <-;
    repeat match goal with
           | E : String.eqb (toLowerCase _) _ = true |- _ =>
               apply String.eqb_eq in E; rewrite E in *; clear E
           end;
    cbn [String.eqb Ascii.eqb Bool.eqb];
    unfold joinIfArray; rewrite join_commas_strings; cbn [bind];
    match goal with
    | |- context [set_path vsix (Metadata_0 ++ [?f]) ?x] =>
        destruct (set_path_snoc Metadata_0 vsix (VObj m) (VObj (upsert f x m)) f x
                    Hm eq_refl eq_refl) as (v' & Hset & _ & Hget);
        rewrite Hset; cbn [bind]; exists v'; split; [reflexivity | exact Hget]
    end.
Qed.

Lemma list_fields_are_comma_separated_witness :
  exists vsix',
    mergeKey "Tags" (VArr [VStr "build"; VStr "test"]) (VObj []) template_vsixmanifest
    = Ret (VObj [], vsix')
    /\ get_path vsix' (Metadata_0 ++ ["Tags"]) = Ret (VArr [VStr "build,test"]).
Proof.
  apply (list_fields_are_comma_separated "Tags" "Tags" ["build"; "test"]
           (VObj []) template_vsixmanifest); reflexivity.
Defined.

(** [ToString] completes or raises a TypeError. *)
Lemma toString_outcome (v : jsval) :
  (exists s, toString v = Ret s) \/ toString v = Throw TypeError.
Proof.
  induction v as [| |b|n|s|l IH|o IH] using jsval_ind; cbn [toString]; eauto.
  - destruct b; eauto.
  - induction IH as [|x r Hx _ IHr]; [eauto|].
    assert (Hx' : (exists s, match x with
                             | VUndef | VNull => Ret ""
                             | _ => toString x
                             end = Ret s)
                  \/ match x with
                     | VUndef | VNull => Ret ""
                     | _ => toString x
                     end = Throw TypeError).
    { destruct x; eauto. }
    destruct Hx' as [[a ->]| ->]; cbn [bind]; [|auto].
    destruct r as [|y r']; [eauto|].
    destruct IHr as [[b ->]| ->]; cbn [bind]; eauto.
  - destruct (lookup "toString" o); eauto.
Qed.

Lemma joinIfArray_outcome (value : jsval) :
  (exists v, joinIfArray value = Ret v) \/ joinIfArray value = Throw TypeError.
Proof.
  unfold joinIfArray, join_commas. destruct value; eauto.
  destruct (toString_outcome (VArr elems)) as [[s ->]| ->]; cbn [bind]; eauto.
Qed.

(** X12.  A package manifest without the [PackageManifest] node: every
    key whose branch writes below [PackageManifest.Metadata[0]]
    ([namespace], [version], [name], [description], [publisher],
    [releaseNotes], [tags], [vsoFlags], [categories]), and [assets] with
    an array, makes [mergeKey] fail with a TypeError, whatever the
    value. *)
Theorem mergeKey_needs_package_node (key : string) (value vso vsix : jsval) :
  is_object vso = true ->
  get vsix "PackageManifest" = Ret VUndef ->
  mem (toLowerCase key) metadata_keys = true
  \/ (toLowerCase key = "assets" /\ isArray value = true) ->
  mergeKey key value vso vsix = Throw TypeError.
Proof.
  intros Ho Hg Hk. destruct (is_object_inv _ Ho) as [o ->].
  assert (F : forall k r x,
             set_path vsix ("PackageManifest" :: k :: r) x = Throw TypeError).
  { intros k r x. rewrite set_path_cons, Hg. cbn [bind].
    destruct r; reflexivity. }
  destruct Hk as [Hk|[Hk Ha]].
  - unfold mem, metadata_keys in Hk. cbn [existsb] in Hk.
    unfold mergeKey. cbv zeta.
    repeat match goal with
           | |- context [if String.eqb (toLowerCase key) ?s then _ else _] =>
               destruct (String.eqb (toLowerCase key) s)
           end;
      try (cbn in Hk; discriminate Hk);
      try (destruct (joinIfArray_outcome value) as [[v ->]| ->];
           cbn [bind]; [|reflexivity]);
      cbn [set bind]; unfold Identity_attrs, Metadata_0; cbn [app];
      rewrite F; reflexivity.
  - destruct value; try discriminate.
    unfold mergeKey. rewrite Hk. cbv zeta. cbn [String.eqb Ascii.eqb Bool.eqb].
    rewrite F. reflexivity.
Qed.

Lemma mergeKey_needs_package_node_witness :
  mergeKey "publisher" (VStr "me") (VObj []) (VObj []) = Throw TypeError.
Proof.
  apply mergeKey_needs_package_node; [reflexivity | reflexivity | left; reflexivity].
Defined.

(* ------------------------------------------------------------------ *)
(** ** The merge rules: objects, new keys and primitive values *)

Lemma mergeInto_result (field_name : string) (c : option customizer)
    (value vso m : jsval) (p : props_t) :
  accumulated_field vso field_name p ->
  lodash_merge c (VObj p) value = Ret m ->
  exists vso',
    mergeInto field_name c value vso = Ret vso'
    /\ is_object vso' = true
    /\ get vso' field_name = Ret m.
Proof.
  intros [Hobj Hacc] Hm. destruct (is_object_inv _ Hobj) as [props ->].
  unfold mergeInto.
  destruct Hacc as [Hget|[Hget ->]]; rewrite Hget; cbn [bind truthy set];
    rewrite Hm; cbn [bind]; eexists; (split; [reflexivity|]);
    (split; [reflexivity|]); cbn [get]; rewrite lookup_upsert_eq; reflexivity.
Qed.

Lemma mergeKey_merges_into (r : merge_rule) (key : string)
    (value vso vsix m : jsval) (p : props_t) :
  In r merge_rules ->
  String.eqb (toLowerCase key) (declared_as r) = true ->
  accumulated_field vso (accumulated_in r) p ->
  lodash_merge (customizer_of r) (VObj p) value = Ret m ->
  exists vso',
    mergeKey key value vso vsix = Ret (vso', vsix)
    /\ is_object vso' = true
    /\ get vso' (accumulated_in r) = Ret m.
Proof.
  intros Hr Hk Hacc Hm.
  destruct (mergeInto_result _ _ _ _ _ _ Hacc Hm) as (vso' & Hi & Ho & Hg).
  exists vso'. rewrite (mergeKey_merge_rule r key value vso vsix Hr Hk), Hi.
  auto.
Qed.

Lemma customizer_of_ok (r : merge_rule) : customizer_ok (customizer_of r).
Proof.
  unfold customizer_of. destruct (String.eqb (declared_as r) "contributions");
    [apply concatArrays_ok | apply no_customizer_ok].
Qed.

Lemma customizer_of_absent (r : merge_rule) (sourceValue : jsval) :
  apply_customizer (customizer_of r) VUndef sourceValue = VUndef.
Proof.
  unfold customizer_of. destruct (String.eqb (declared_as r) "contributions"); reflexivity.
Qed.

(** The entry of the key [x] decides what the destination holds for [x]
    after the whole source object has been merged. *)
Lemma baseMerge_at_key (c : option customizer) (x : string) (o p : props_t)
    (v w : jsval) :
  customizer_ok c ->
  plain (VObj o) = true -> plain (VObj p) = true ->
  lookup x o = Some v ->
  (forall p1, lookup x p1 = lookup x p ->
              mergeEntry c (baseMerge c v) false x v (VObj p1)
              = Ret (VObj (upsert x w p1))) ->
  exists p',
    baseMerge c (VObj o) (VObj p) = Ret (VObj p')
    /\ plain (VObj p') = true
    /\ lookup x p' = Some w.
Proof.
  intros Hc Ho Hp E Hentry.
  destruct (baseMerge_plain c Hc (VObj o) Ho (VObj p) Hp eq_refl eq_refl)
    as (r & Hr & Hpr & [Hk _]).
  destruct r; try discriminate. rename props into p'.
  exists p'. split; [exact Hr|]. split; [exact Hpr|].
  cbn [baseMerge] in Hr.
  destruct (lookup_split x o _ E) as (o1 & o2 & -> & Hn1).
  assert (Hn2 : ~ In x (map fst o2)).
  { cbn [plain] in Ho. apply andb_true_iff in Ho. destruct Ho as [Hd _].
    rewrite map_app in Hd. cbn [map fst] in Hd.
    destruct (distinct_app _ _ _ Hd) as (_ & H2 & _).
    apply mem_false_not_In. exact H2. }
  rewrite arrayEach_app in Hr. inv_bind Hr.
  destruct (arrayEach_props_other c x o1 Hn1 _ _ _ Ha) as (p1 & -> & Hp1).
  cbn [arrayEach] in Hr.
  destruct (mem x inherited_names); [discriminate|].
  inv_bind Hr. rewrite (Hentry p1 Hp1) in Ha0. injection Ha0 as <-.
  destruct (arrayEach_props_other c x o2 Hn2 _ _ _ Hr) as (p2 & [= <-] & Hp2).
  rewrite Hp2. apply lookup_upsert_eq.
Qed.

Lemma lookup_app (x : string) (p o : props_t) :
  lookup x (p ++ o) = match lookup x p with
                      | Some v => Some v
                      | None => lookup x o
                      end.
Proof.
  induction p as [|[k v] r IH]; [reflexivity|]. cbn [app lookup].
  destruct (String.eqb x k); [reflexivity | exact IH].
Qed.

(** X13.  Keys declared for the first time.  When none of the keys of a
    declared [contributions], [contributionPoints] or [contributionTypes]
    object is in the accumulated field yet (in particular when the field
    does not exist yet), the field afterwards holds every accumulated
    key with the value it had and every declared key with the value as
    declared, and no other key. *)
Theorem new_keys_are_added (r : merge_rule) (key : string) (o p : props_t)
    (vso vsix : jsval) :
  In r merge_rules ->
  String.eqb (toLowerCase key) (declared_as r) = true ->
  accumulated_field vso (accumulated_in r) p ->
  plain (VObj (p ++ o)) = true ->
  exists vso' p',
    mergeKey key (VObj o) vso vsix = Ret (vso', vsix)
    /\ get vso' (accumulated_in r) = Ret (VObj p')
    /\ forall x, lookup x p' = match lookup x p with
                               | Some v => Some v
                               | None => lookup x o
                               end.
Proof.
  intros Hr Hk Hacc Hp.
  assert (Hm : lodash_merge (customizer_of r) (VObj p) (VObj o) = Ret (VObj (p ++ o))).
  { cbn [lodash_merge truthy baseMerge].
    apply arrayEach_copies_props.
    - apply customizer_of_absent.
    - pose proof (plain_props_Forall _ Hp) as F. apply Forall_app in F.
      destruct F as [_ F]. rewrite Forall_forall in *.
      intros kv Hin. destruct (F kv Hin) as [H1 H2]. split; [exact H1|].
      split; [exact H2|]. apply baseMerge_copy; [apply customizer_of_absent|exact H2].
    - cbn [plain] in Hp. apply andb_true_iff in Hp. destruct Hp as [Hd _]. exact Hd. }
  destruct (mergeKey_merges_into r key (VObj o) vso vsix _ p Hr Hk Hacc Hm)
    as (vso' & H1 & _ & H2).
  exists vso', (p ++ o). split; [exact H1|]. split; [exact H2|].
  intros x. apply lookup_app.
Qed.

Lemma new_keys_are_added_witness :
  exists vso' p',
    mergeKey "contributionTypes" (VObj [("b", VArr [VNum 2]); ("c", VNull)])
      (VObj [("contributionTypes", VObj [("a", VNum 1)])]) (VObj [])
    = Ret (vso', VObj [])
    /\ get vso' "contributionTypes" = Ret (VObj p')
    /\ lookup "a" p' = Some (VNum 1)
    /\ lookup "b" p' = Some (VArr [VNum 2])
    /\ lookup "c" p' = Some VNull
    /\ lookup "d" p' = None.
Proof.
  destruct (new_keys_are_added contributionTypes_rule "contributionTypes"
              [("b", VArr [VNum 2]); ("c", VNull)] [("a", VNum 1)]
              (VObj [("contributionTypes", VObj [("a", VNum 1)])]) (VObj []))
    as (vso' & p' & H1 & H2 & H3);
    [ cbv [merge_rules In]; tauto | reflexivity
    | split; [reflexivity | left; reflexivity] | reflexivity | ].
  exists vso', p'. split; [exact H1|]. split; [exact H2|].
  rewrite !H3. repeat split; reflexivity.
Defined.

(** X14.  A key that holds an object on both sides is merged
    recursively, under all three fields: the accumulated field holds
    afterwards, for that key, the result of merging the declared object
    into the accumulated one with the same customizer. *)
Theorem nested_objects_are_merged (r : merge_rule) (key x : string)
    (o p a b : props_t) (vso vsix : jsval) :
  In r merge_rules ->
  String.eqb (toLowerCase key) (declared_as r) = true ->
  accumulated_field vso (accumulated_in r) p ->
  plain (VObj o) = true -> plain (VObj p) = true ->
  lookup x p = Some (VObj a) ->
  lookup x o = Some (VObj b) ->
  exists vso' p' m,
    mergeKey key (VObj o) vso vsix = Ret (vso', vsix)
    /\ get vso' (accumulated_in r) = Ret (VObj p')
    /\ baseMerge (customizer_of r) (VObj b) (VObj a) = Ret m
    /\ lookup x p' = Some m.
Proof.
  intros Hr Hk Hacc Ho Hp Ha Hb.
  pose proof (customizer_of_ok r) as Hc.
  destruct (baseMerge_plain _ Hc (VObj b) (plain_lookup _ _ _ Ho Hb)
              (VObj a) (plain_lookup _ _ _ Hp Ha) eq_refl eq_refl)
    as (m & Hm & _ & _).
  destruct (baseMerge_at_key (customizer_of r) x o p (VObj b) m Hc Ho Hp Hb)
    as (p' & Hp' & _ & Hl).
  { intros p1 H1. unfold mergeEntry. cbn [get]. rewrite H1, Ha.
    cbn [opt_value bind isObjectLike].
    assert (E : apply_customizer (customizer_of r) (VObj a) (VObj b) = VUndef).
    { unfold customizer_of.
      destruct (String.eqb (declared_as r) "contributions"); reflexivity. }
    rewrite E. cbn [bind]. rewrite Hm. reflexivity. }
  destruct (mergeKey_merges_into r key (VObj o) vso vsix (VObj p') p Hr Hk Hacc)
    as (vso' & H1 & _ & H2).
  { cbn [lodash_merge truthy]. exact Hp'. }
  exists vso', p', m. auto.
Qed.

Lemma nested_objects_are_merged_witness :
  exists vso' p' m,
    mergeKey "contributions" (VObj [("hub", VObj [("order", VNum 2)])])
      (VObj [("contributions", VObj [("hub", VObj [("name", VStr "H")])])]) (VObj [])
    = Ret (vso', VObj [])
    /\ get vso' "contributions" = Ret (VObj p')
    /\ baseMerge (customizer_of contributions_rule)
         (VObj [("order", VNum 2)]) (VObj [("name", VStr "H")]) = Ret m
    /\ lookup "hub" p' = Some m.
Proof.
  apply (nested_objects_are_merged contributions_rule "contributions" "hub"
           [("hub", VObj [("order", VNum 2)])] [("hub", VObj [("name", VStr "H")])]
           [("name", VStr "H")] [("order", VNum 2)]);
    [ cbv [merge_rules In]; tauto | reflexivity
    | split; [reflexivity | left; reflexivity]
    | reflexivity | reflexivity | reflexivity | reflexivity ].
Defined.

(** X15.  A primitive value ([null], a boolean, a number, a string)
    declared for a key.  Under [contributions] it is appended, as one
    more element, to an array that the accumulator holds for the key;
    in every other case (the key is new, or holds something that is not
    an array, or the field is [contributionPoints] or
    [contributionTypes]) it takes the place of what was there. *)
Theorem primitive_values_replace_or_append (r : merge_rule) (key x : string)
    (o p : props_t) (v : jsval) (vso vsix : jsval) :
  In r merge_rules ->
  String.eqb (toLowerCase key) (declared_as r) = true ->
  accumulated_field vso (accumulated_in r) p ->
  plain (VObj o) = true -> plain (VObj p) = true ->
  lookup x o = Some v ->
  primitive v = true ->
  exists vso' p',
    mergeKey key (VObj o) vso vsix = Ret (vso', vsix)
    /\ get vso' (accumulated_in r) = Ret (VObj p')
    /\ lookup x p' = Some (primitive_merged r (lookup x p) v).
Proof.
  intros Hr Hk Hacc Ho Hp Hv Hprim.
  pose proof (customizer_of_ok r) as Hc.
  destruct (baseMerge_at_key (customizer_of r) x o p v
              (primitive_merged r (lookup x p) v) Hc Ho Hp Hv)
    as (p' & Hp' & _ & Hl).
  { intros p1 H1. unfold mergeEntry. cbn [get]. rewrite H1. cbn [bind].
    unfold primitive_merged, customizer_of.
    destruct (String.eqb (declared_as r) "contributions");
      cbn [apply_customizer];
      destruct (lookup x p) as [[| | | | |A|q]|]; cbn [opt_value concatArrays concat];
      destruct v; try discriminate; reflexivity. }
  destruct (mergeKey_merges_into r key (VObj o) vso vsix (VObj p') p Hr Hk Hacc)
    as (vso' & H1 & _ & H2).
  { cbn [lodash_merge truthy]. exact Hp'. }
  exists vso', p'. auto.
Qed.

Lemma primitive_values_replace_or_append_witness :
  exists vso' p',
    mergeKey "contributions" (VObj [("x", VNum 2)])
      (VObj [("contributions", VObj [("x", VArr [VNum 1])])]) (VObj [])
    = Ret (vso', VObj [])
    /\ get vso' "contributions" = Ret (VObj p')
    /\ lookup "x" p' = Some (VArr [VNum 1; VNum 2]).
Proof.
  apply (primitive_values_replace_or_append contributions_rule "contributions" "x"
           [("x", VNum 2)] [("x", VArr [VNum 1])] (VNum 2));
    [ cbv [merge_rules In]; tauto | reflexivity
    | split; [reflexivity | left; reflexivity]
    | reflexivity | reflexivity | reflexivity | reflexivity ].
Defined.

(* ------------------------------------------------------------------ *)
(** ** [prepManifests]: a missing asset list, an entry with a bad type *)

Lemma set_walk_cons (nested : jsval) (key next : string) (rest : list string)
    (x : jsval) :
  is_container nested = true ->
  set_walk nested (key :: next :: rest) x =
    (current <- get nested key ;;
     child' <- set_walk
                 match current with
                 | VUndef | VNull => if isIndex next then VArr [] else VObj []
                 | _ => current
                 end (next :: rest) x ;;
     set nested key child').
Proof. destruct nested; try discriminate; reflexivity. Qed.

(** A second run of [prepManifests] on a manifest whose asset list is
    an array of entries with string (or no) types. *)
Lemma prepManifests_typed (vsix : jsval) (l : list jsval) :
  asset_list vsix = VArr l ->
  forallb typed_entry l = true ->
  exists vsix',
    prepManifests vsix = Ret vsix'
    /\ asset_list vsix'
       = VArr (filter (fun a => negb (is_manifest_entry a)) l ++ [manifestAsset]).
Proof.
  intros Hl Ht.
  destruct (asset_list_place vsix l Hl) as [_ Hput].
  destruct (Hput (filter (fun a => negb (is_manifest_entry a)) l ++ [manifestAsset]))
    as (vsix' & Hs & Hl' & _).
  exists vsix'. split; [|exact Hl'].
  unfold prepManifests. fold (asset_list vsix). rewrite Hl. cbn [truthy].
  rewrite (lodash_remove_typed l Ht). cbn [bind]. exact Hs.
Qed.

(** X16.  A package manifest without an [Assets] node.  [prepManifests]
    creates the nodes down to [Assets[0].Asset], but it stores the fresh
    list, to which the entry for the service manifest is then added, at
    [Asset[0]]: the asset list becomes a list whose only element is the
    list with the entry.  A second run does not find the nested entry
    and adds another one next to the inner list. *)
Theorem prepManifests_without_assets (top : props_t) :
  lacks_assets top ->
  exists once twice,
    prepManifests (VObj top) = Ret once
    /\ asset_list once = VArr [VArr [manifestAsset]]
    /\ prepManifests once = Ret twice
    /\ asset_list twice = VArr [VArr [manifestAsset]; manifestAsset].
Proof.
  intros (Hcase & Hk1 & Hk2).
  assert (Hfirst : exists once,
             prepManifests (VObj top) = Ret once
             /\ asset_list once = VArr [VArr [manifestAsset]]).
  { assert (Hnone : lodash_get (VObj top) "PackageManifest.Assets[0].Asset"
                      Assets_0_Asset VUndef = VUndef).
    { unfold lodash_get, resolved_path. cbn [has_key]. rewrite Hk1.
      unfold Assets_0_Asset. cbn [baseGet get].
      destruct Hcase as [Hpm|(m & Hpm & Ha)]; rewrite Hpm; cbn [opt_value baseGet get];
        [reflexivity|]. rewrite Ha. reflexivity. }
    unfold prepManifests. rewrite Hnone. cbn [truthy].
    unfold lodash_set, resolved_path. cbn [has_key]. rewrite Hk2.
    unfold Assets_0_Asset. cbn [app].
    rewrite set_walk_cons by reflexivity. cbn [get].
    destruct Hcase as [Hpm|(m & Hpm & Ha)]; rewrite Hpm; cbn [opt_value bind].
    - change (isIndex "Assets") with false. cbv iota.
      replace (set_walk (VObj []) ["Assets"; "0"; "Asset"; "0"] (VArr [manifestAsset]))
        with (Ret (VObj [("Assets", VArr [VObj [("Asset", VArr [VArr [manifestAsset]])]])]))
        by reflexivity.
      cbn [bind set]. eexists. split; [reflexivity|].
      unfold asset_list, lodash_get, resolved_path. cbn [has_key].
      rewrite lookup_upsert_ne by discriminate. rewrite Hk1.
      unfold Assets_0_Asset. cbn [baseGet get]. rewrite lookup_upsert_eq. reflexivity.
    - rewrite set_walk_cons by reflexivity. cbn [get]. rewrite Ha. cbn [opt_value bind].
      change (isIndex "0") with true. cbv iota.
      replace (set_walk (VArr []) ["0"; "Asset"; "0"] (VArr [manifestAsset]))
        with (Ret (VArr [VObj [("Asset", VArr [VArr [manifestAsset]])]]))
        by reflexivity.
      cbn [bind set]. eexists. split; [reflexivity|].
      unfold asset_list, lodash_get, resolved_path. cbn [has_key].
      rewrite lookup_upsert_ne by discriminate. rewrite Hk1.
      unfold Assets_0_Asset. cbn [baseGet get]. rewrite lookup_upsert_eq.
      cbn [opt_value baseGet get]. rewrite lookup_upsert_eq. reflexivity. }
  destruct Hfirst as (once & H1 & L1).
  destruct (prepManifests_typed once [VArr [manifestAsset]] L1 eq_refl)
    as (twice & H2 & L2).
  exists once, twice. auto.
Qed.

Lemma prepManifests_without_assets_witness :
  exists once twice,
    prepManifests (VObj [("PackageManifest", VObj [("Metadata", VArr [])])]) = Ret once
    /\ asset_list once = VArr [VArr [manifestAsset]]
    /\ prepManifests once = Ret twice
    /\ asset_list twice = VArr [VArr [manifestAsset]; manifestAsset].
Proof.
  apply prepManifests_without_assets.
  split; [|split; reflexivity].
  right. exists [("Metadata", VArr [])]. split; reflexivity.
Defined.

(** X17.  The asset list is searched for entries of the reserved type
    by reading [$.Type] and lowering its case.  An entry whose [$.Type]
    is there but is not a string (a number, [null], an object, ...),
    behind entries that are in order, makes [prepManifests], and so the
    constructor of [VsixWriter], fail with a TypeError. *)
Theorem prepManifests_rejects_untyped_entry (vsix : jsval)
    (before after : list jsval) (bad : jsval) :
  asset_list vsix = VArr (before ++ bad :: after) ->
  forallb typed_entry before = true ->
  typed_entry bad = false ->
  prepManifests vsix = Throw TypeError.
Proof.
  intros Hl Hb Hbad.
  unfold prepManifests. fold (asset_list vsix). rewrite Hl. cbn [truthy].
  assert (Hr : lodash_remove isVsoManifestAsset (before ++ bad :: after)
               = Throw TypeError).
  { clear Hl. induction before as [|a r IH]; cbn [app lodash_remove].
    - unfold typed_entry in Hbad. unfold isVsoManifestAsset in *.
      destruct (lodash_get bad "$.Type" ["$"; "Type"] (VStr "x"));
        try discriminate; reflexivity.
    - cbn [forallb] in Hb. apply andb_true_iff in Hb. destruct Hb as [Ha Hr].
      unfold typed_entry in Ha.
      destruct (isVsoManifestAsset a) as [b| |]; try discriminate.
      cbn [bind]. rewrite (IH Hr). reflexivity. }
  rewrite Hr. reflexivity.
Qed.

Lemma prepManifests_rejects_untyped_entry_witness :
  prepManifests
    (VObj [("PackageManifest",
            VObj [("Assets", VArr [VObj [("Asset", VArr [numbered_entry])]])])])
  = Throw TypeError.
Proof.
  apply (prepManifests_rejects_untyped_entry _ [] [] numbered_entry); reflexivity.
Defined.

(* ------------------------------------------------------------------ *)
(** ** [gatherManifests] *)

Lemma In_fold_concat (f : string) (lists : list (list string)) (a : list string) :
  In f (fold_left (fun a b => a ++ b) lists a) <->
  In f a \/ exists b, In b lists /\ In f b.
Proof.
  revert a. induction lists as [|b r IH]; intros a; cbn [fold_left].
  - split; [auto|]. intros [H|(b & [] & _)]. exact H.
  - rewrite IH, in_app_iff. split.
    + intros [[H|H]|(b' & Hb & Hf)]; [auto| |]; right.
      * exists b. split; [left; reflexivity|exact H].
      * exists b'. split; [right; exact Hb|exact Hf].
    + intros [H|(b' & [<-|Hb] & Hf)]; [auto|auto|].
      right. exists b'. auto.
Qed.

Section GatherFacts.
Variable glob : string -> option (list string).
Variable path_join : string -> string -> string.
Variable root : string.

Let gather := gatherManifests glob path_join root.

Lemma globs_Ret (patterns : list string) (fileLists : list (list string)) :
  Q_all (map (gatherManifestsFromGlob glob)
           (map (fun pattern => path_join root pattern) patterns)) = Ret fileLists ->
  forall matches,
    In matches fileLists <->
    exists pattern, In pattern patterns
                    /\ glob (path_join root pattern) = Some matches.
Proof.
  revert fileLists. induction patterns as [|p ps IH]; intros fileLists H matches.
  - simpl in H. injection H as <-. split; [intros []|intros (p & [] & _)].
  - cbn [map Q_all] in H. inv_bind H. inv_bind H. injection H as <-.
    unfold gatherManifestsFromGlob in Ha.
    destruct (glob (path_join root p)) as [m|] eqn:E; [|discriminate].
    injection Ha as <-. cbn [In]. rewrite (IH _ Ha0). split.
    + intros [<-|(q & Hq & Hg)]; [exists p; auto|exists q; auto].
    + intros (q & [<-|Hq] & Hg); [left; congruence|right; eauto].
Qed.

(** X18.  The files that are merged.  When every glob search succeeds,
    [gatherManifests] delivers each file that some pattern (joined to the
    root) matches, and each only once, however often and by however many
    patterns it is matched.  A glob search that fails leaves no list of
    files; and without any pattern the reduction of the empty list of
    results raises a TypeError. *)
Theorem gatherManifests_lists_each_match_once (patterns : list string) :
  (forall files,
      gather patterns = Ret files ->
      NoDup files
      /\ forall f, In f files <->
                   exists pattern matches,
                     In pattern patterns
                     /\ glob (path_join root pattern) = Some matches
                     /\ In f matches)
  /\ (forall pattern,
         In pattern patterns -> glob (path_join root pattern) = None ->
         forall files, gather patterns <> Ret files)
  /\ gather [] = Throw TypeError.
Proof.
  split; [|split].
  - intros files H. unfold gather, gatherManifests in H. cbv zeta in H.
    inv_bind H. inv_bind H. injection H as <-.
    destruct (unique_spec a0) as [Hnd Hin]. split; [exact Hnd|].
    intros f. rewrite Hin.
    pose proof (globs_Ret patterns a Ha) as Hg.
    unfold reduce_concat in Ha0. destruct a as [|l0 ls]; [discriminate|].
    injection Ha0 as <-. rewrite In_fold_concat. split.
    + intros [H|(b & Hb & Hf)].
      * destruct (proj1 (Hg l0) (or_introl eq_refl)) as (p & Hp & Hm). eauto.
      * destruct (proj1 (Hg b) (or_intror Hb)) as (p & Hp & Hm). eauto.
    + intros (p & m & Hp & Hm & Hf).
      destruct (proj2 (Hg m) (ex_intro _ p (conj Hp Hm))) as [<-|Hb]; [auto|].
      right. eauto.
  - intros pattern Hin Hnone files H. unfold gather, gatherManifests in H.
    cbv zeta in H. inv_bind H.
    apply (Q_all_not_Ret _ (gatherManifestsFromGlob glob (path_join root pattern)))
      with (l := a) in Ha; [exact Ha| |].
    + apply in_map. apply in_map_iff. eauto.
    + unfold gatherManifestsFromGlob. rewrite Hnone. discriminate.
  - reflexivity.
Qed.
End GatherFacts.

Lemma gatherManifests_lists_each_match_once_witness :
  NoDup ["/r/manifests/a.json"; "/r/manifests/b.json"]
  /\ gatherManifests sample_glob posix_join "/r" ["src/*.json"; "manifests/**/*.json"]
     <> Ret ["/r/manifests/a.json"; "/r/manifests/b.json"].
Proof.
  destruct (gatherManifests_lists_each_match_once sample_glob posix_join "/r"
              ["manifests/**/*.json"]) as (H1 & _ & _).
  destruct (gatherManifests_lists_each_match_once sample_glob posix_join "/r"
              ["src/*.json"; "manifests/**/*.json"]) as (_ & H2 & _).
  split.
  - apply (H1 ["/r/manifests/a.json"; "/r/manifests/b.json"]). reflexivity.
  - apply (H2 "src/*.json"); [left; reflexivity | reflexivity].
Defined.

(* ------------------------------------------------------------------ *)
(** ** The check of the version of node *)

Lemma split_dot_nonempty (s : string) : split_dot s <> [].
Proof.
  induction s as [|c r IH]; cbn [split_dot]; [discriminate|].
  destruct (Ascii.eqb c "."%char); [discriminate|].
  destruct (split_dot r); discriminate.
Qed.

(** Splitting at the first dot. *)
Lemma split_dot_app (a b : string) :
  (forall i c, String.get i a = Some c -> c <> "."%char) ->
  split_dot (a ++ String "."%char b) = a :: split_dot b.
Proof.
  induction a as [|c r IH]; intros Hdot; cbn [append split_dot].
  - reflexivity.
  - destruct (Ascii.eqb c "."%char) eqn:E.
    + apply Ascii.eqb_eq in E. exfalso. exact (Hdot 0%nat c eq_refl E).
    + rewrite IH; [reflexivity|].
      intros i c' H. exact (Hdot (S i) c' H).
Qed.

Lemma split_dot_plain (a : string) :
  (forall i c, String.get i a = Some c -> c <> "."%char) ->
  split_dot a = [a].
Proof.
  induction a as [|c r IH]; intros Hdot; cbn [split_dot]; [reflexivity|].
  destruct (Ascii.eqb c "."%char) eqn:E.
  - apply Ascii.eqb_eq in E. exfalso. exact (Hdot 0%nat c eq_refl E).
  - rewrite IH; [reflexivity|]. intros i c' H. exact (Hdot (S i) c' H).
Qed.

(** The decimal numeral of a number: digits only, read back by
    [parse_digits] as the number. *)
Lemma numeral_digits (d : Decimal.uint) :
  forall i c, String.get i (NilEmpty.string_of_uint d) = Some c -> is_digit c = true.
Proof.
  induction d; intros i c; cbn [NilEmpty.string_of_uint]; try discriminate;
    (destruct i as [|i]; cbn [String.get]; [intros [= <-]; reflexivity | apply IHd]).
Qed.

Lemma numeral_value (d : Decimal.uint) (acc : nat) :
  parse_digits (list_ascii_of_string (NilEmpty.string_of_uint d)) (Z.of_nat acc)
  = (Z.of_nat (Nat.of_uint_acc d acc), []).
Proof.
  revert acc. induction d; intros acc;
    cbn [NilEmpty.string_of_uint list_ascii_of_string parse_digits Nat.of_uint_acc];
    try reflexivity;
    match goal with
    | |- context [is_digit ?c] => change (is_digit c) with true
    end; cbv iota;
    match goal with
    | |- parse_digits _ ?z = (Z.of_nat (Nat.of_uint_acc _ ?n), _) =>
        replace z with (Z.of_nat n);
        [apply IHd | rewrite ?Nat2Z.inj_succ, Nat.tail_mul_spec, Nat2Z.inj_mul;
                     unfold digit_val; cbn; lia]
    end.
Qed.

Lemma string_of_nat_numeral (n : nat) :
  string_of_nat n = NilEmpty.string_of_uint (Nat.to_uint n).
Proof.
  unfold string_of_nat, NilZero.string_of_uint.
  pose proof (to_uint_nonnil n) as H. destruct (Nat.to_uint n); congruence.
Qed.

Lemma string_of_nat_no_dot (n : nat) :
  forall i c, String.get i (string_of_nat n) = Some c -> c <> "."%char.
Proof.
  intros i c H. rewrite string_of_nat_numeral in H.
  apply numeral_digits in H. intros ->. discriminate.
Qed.

Lemma parseInt10_numeral (n : nat) : parseInt10 (string_of_nat n) = Some (Z.of_nat n).
Proof.
  rewrite string_of_nat_numeral.
  pose proof (numeral_value (Nat.to_uint n) 0) as V. cbn [Z.of_nat] in V.
  pose proof (numeral_digits (Nat.to_uint n) 0) as D.
  pose proof (to_uint_nonnil n) as N.
  fold (Nat.of_uint (Nat.to_uint n)) in V. rewrite DecimalNat.Unsigned.of_to in V.
  unfold parseInt10.
  destruct (NilEmpty.string_of_uint (Nat.to_uint n)) as [|c r] eqn:E.
  - destruct (Nat.to_uint n); try congruence; discriminate.
  - specialize (D c eq_refl).
    assert (T : trimLeft (String c r) = String c r).
    { cbn [trimLeft]. destruct (isSpace c) eqn:S; [|reflexivity].
      exfalso. revert D S. unfold is_digit, isSpace.
      destruct (nat_of_ascii c <=? 57)%nat eqn:L1, (48 <=? nat_of_ascii c)%nat eqn:L2;
        try discriminate.
      apply Nat.leb_le in L1, L2. intros _.
      repeat match goal with
             | |- context [(?a <=? ?b)%nat] => destruct (Nat.leb_spec a b)
             | |- context [(?a =? ?b)%nat] => destruct (Nat.eqb_spec a b)
             end; cbn; try discriminate; lia. }
    rewrite T. cbn [list_ascii_of_string] in *.
    assert (Hc : c <> "-"%char /\ c <> "+"%char).
    { split; intros ->; discriminate. }
    destruct Hc as [H1 H2].
    destruct (ascii_dec c "-"%char) as [->|_]; [congruence|].
    destruct (ascii_dec c "+"%char) as [->|_]; [congruence|].
    assert (M : match c with
                | "+"%char => (false, list_ascii_of_string r)
                | "-"%char => (true, list_ascii_of_string r)
                | _ => (false, c :: list_ascii_of_string r)
                end = (false, c :: list_ascii_of_string r)).
    { destruct c as [[] [] [] [] [] [] [] []]; try reflexivity; congruence. }
    rewrite M, D, V. reflexivity.
Qed.

(** X19.  The check of the version of node looks at the second
    component of [process.version] only.  For a release
    [major.minor.patch] the program reports that node must be upgraded
    and exits exactly when [minor] is below 12, whatever [major] is: it
    starts under v0.12.0 and stops under v4.2.1. *)
Theorem node_check_ignores_major (major minor patch : nat) :
  node_refused (node_version major minor patch) = (minor <? 12)%nat.
Proof.
  unfold node_refused, node_version.
  change ("v" ++ string_of_nat major ++ "." ++ string_of_nat minor ++ "."
              ++ string_of_nat patch)%string
    with (("v" ++ string_of_nat major)
            ++ String "."%char
                 (string_of_nat minor ++ String "."%char (string_of_nat patch)))%string.
  rewrite split_dot_app.
  - rewrite split_dot_app by apply string_of_nat_no_dot.
    cbn [nth_error]. rewrite parseInt10_numeral.
    destruct (Nat.ltb_spec minor 12); [apply Z.ltb_lt|apply Z.ltb_ge]; lia.
  - intros [|i] c; cbn [append String.get].
    + intros [= <-]. discriminate.
    + apply string_of_nat_no_dot.
Qed.

(* ------------------------------------------------------------------ *)
(** ** [writeVsix] *)

Lemma file_content_zip_eq (name data : string) (vsix : archive) :
  file_content name (zip_file name data vsix) = Some data.
Proof.
  induction vsix as [|[n d] r IH]; cbn [zip_file file_content].
  - rewrite String.eqb_refl. reflexivity.
  - destruct (String.eqb name n) eqn:E; cbn [file_content]; rewrite E; auto.
Qed.

Lemma file_content_zip_ne (name name' data : string) (vsix : archive) :
  name <> name' ->
  file_content name' (zip_file name data vsix) = file_content name' vsix.
Proof.
  intros Hne. induction vsix as [|[n d] r IH]; cbn [zip_file file_content].
  - apply String.eqb_neq in Hne. rewrite String.eqb_sym, Hne. reflexivity.
  - destruct (String.eqb name n) eqn:E; cbn [file_content].
    + apply String.eqb_eq in E. subst n.
      apply String.eqb_neq in Hne. rewrite String.eqb_sym, Hne. reflexivity.
    + rewrite IH. reflexivity.
Qed.

(** An outcome that is not a value thrown by the program itself. *)
Lemma bind_not_thrown {A B} (m : res A) (k : A -> res B) (v : jsval) :
  m <> Throw (Thrown v) -> (forall a, k a <> Throw (Thrown v)) ->
  bind m k <> Throw (Thrown v).
Proof.
  intros Hm Hk. destruct m as [a|e|]; cbn [bind]; [apply Hk| |discriminate].
  intros [= ->]. apply Hm. reflexivity.
Qed.

Lemma get_not_thrown (x : jsval) (k : string) (v : jsval) : get x k <> Throw (Thrown v).
Proof.
  destruct x; cbn [get]; try discriminate;
    destruct (String.eqb k "length"); try discriminate;
    destruct (index_of_string k); discriminate.
Qed.

Lemma forEach_not_thrown {A S} (body : A -> S -> res S) (v : jsval) (l : list A) :
  (forall x s, body x s <> Throw (Thrown v)) ->
  forall s, forEach l body s <> Throw (Thrown v).
Proof.
  intros Hb. induction l as [|x r IH]; intros s; cbn [forEach]; [discriminate|].
  apply bind_not_thrown; auto.
Qed.

Lemma mapM_not_thrown {A B} (f : A -> res B) (v : jsval) (l : list A) :
  (forall x, f x <> Throw (Thrown v)) -> mapM f l <> Throw (Thrown v).
Proof.
  intros Hf. induction l as [|x r IH]; cbn [mapM]; [discriminate|].
  apply bind_not_thrown; [auto|]. intros y.
  apply bind_not_thrown; [auto|]. discriminate.
Qed.

Lemma removeMetaKeys_not_thrown (obj v : jsval) : removeMetaKeys obj <> Throw (Thrown v).
Proof.
  unfold removeMetaKeys, omit_keys.
  destruct obj; try discriminate;
    match goal with
    | |- context [mem "__proto__" ?l] => destruct (mem "__proto__" l); discriminate
    end.
Qed.

Section WriterFacts.
Variable JSON_parse : string -> option jsval.
Variable readFile : string -> option string.
Variable path_isAbsolute : string -> bool.
Variable path_dirname : string -> string.
Variable path_join : string -> string -> string.
Variable path_relative : string -> string -> string.
Variable root : string.
Variable default_vsixmanifest : jsval.
Variable readFileSync : string -> option string.
Variable path_extname : string -> string.
Variable JSON_stringify : jsval -> string.
Variable buildObject : jsval -> string.
Variable tmp_dir : option string.

Let run := merge JSON_parse readFile path_isAbsolute path_dirname path_join
             path_relative root default_vsixmanifest.
Let addFile := addAssetFile readFileSync path_join.
Let assets_of := writeVsix_assets readFileSync path_join.
Let write := writeVsix readFileSync path_join path_extname JSON_stringify buildObject
               tmp_dir.

Lemma addAssetFile_not_thrown (r asset : jsval) (vsix : archive) (v : jsval) :
  addFile r asset vsix <> Throw (Thrown v).
Proof.
  unfold addFile, addAssetFile.
  apply bind_not_thrown; [apply get_not_thrown|]. intros attrs.
  destruct (truthy attrs); [|discriminate].
  apply bind_not_thrown; [apply get_not_thrown|]. intros type.
  match goal with |- (if ?b then _ else _) <> _ => destruct b end; [discriminate|].
  apply bind_not_thrown; [apply get_not_thrown|]. intros p.
  destruct p; try discriminate. destruct r; try discriminate.
  destruct (readFileSync _); discriminate.
Qed.

(** X20.  The root check of [writeVsix] and the root of the merger.
    For the manifests that [merge] resolves to, handed to a
    [VsixWriter]: [writeVsix] throws the message about the unknown root
    exactly when the merger's root is the empty string. *)
Theorem writeVsix_root_check (files : list string) (log : list console_line)
    (vso vsix : jsval) (writer : jsval * jsval) :
  is_object default_vsixmanifest = true ->
  run files = (log, Ret (SplitManifest vso vsix)) ->
  VsixWriter_new vso vsix = Ret writer ->
  (root = "" ->
   write (fst writer) (snd writer) = Throw (Thrown (VStr msg_root_unknown)))
  /\ (root <> "" ->
      write (fst writer) (snd writer) <> Throw (Thrown (VStr msg_root_unknown))).
Proof.
  intros Ht Hrun Hnew.
  assert (Hroot : get vso "__meta_root" = Ret (VStr root)).
  { destruct (merge_cases JSON_parse readFile path_isAbsolute path_dirname path_join
                path_relative root default_vsixmanifest files)
      as [[e He]|[Hu|(vsix0 & partials & vso1 & vsix1 & _ & _ & Hf & Hr)]];
      unfold run in Hrun;
      [ rewrite Hrun in He; unfold SplitManifest in He; discriminate
      | rewrite Hrun in Hu; discriminate | ].
    rewrite Hrun in Hr. unfold SplitManifest in Hr. injection Hr as -> -> ->.
    destruct (mergePartials_keep_root path_isAbsolute path_dirname path_join
                path_relative root _ _ _ _ _ Hf) as [-> _].
    reflexivity. }
  unfold VsixWriter_new in Hnew. inv_bind Hnew. injection Hnew as <-.
  cbn [fst snd]. unfold write, writeVsix. rewrite Hroot. cbn [bind truthy].
  split.
  - intros ->. reflexivity.
  - intros Hne. apply String.eqb_neq in Hne. rewrite Hne. cbn [negb].
    apply bind_not_thrown.
    + unfold writeVsix_assets. destruct (lodash_get _ _ _ _); try discriminate.
      apply forEach_not_thrown. intros x s.
      apply (addAssetFile_not_thrown (VStr root) x s).
    + intros a0. destruct tmp_dir; [|discriminate].
      apply bind_not_thrown.
      * unfold ManifestWriter_new.
        apply bind_not_thrown; [apply removeMetaKeys_not_thrown|]. intros d1.
        apply bind_not_thrown; [apply removeMetaKeys_not_thrown|]. discriminate.
      * intros [d1 d2]. cbv zeta.
        apply bind_not_thrown; [|discriminate].
        unfold genContentTypesXml.
        apply bind_not_thrown; [|discriminate].
        unfold contentTypeDefaults. apply mapM_not_thrown. intros ext.
        apply bind_not_thrown; [|discriminate].
        unfold contentType. destruct (mem ext inherited_names); [discriminate|].
        destruct (assoc ext CONTENT_TYPE_MAP); discriminate.
Qed.

(** X21.  The three files of the package itself.  When [writeVsix]
    completes, the archive holds the service manifest and the package
    manifest, both without their [__meta_] keys and serialized, under
    [extension.vsomanifest] and [extension.vsixmanifest], and the
    content-type index under [[Content_Types].xml], also when an asset
    was added under one of these names: the asset's content is replaced.
    The index is built from the names of the files added before it. *)
Theorem writeVsix_manifest_files (vso vsix : jsval) (a : archive) :
  write vso vsix = Ret a ->
  exists vsoDoc vsixDoc types before,
    ManifestWriter_new vso vsix = Ret (vsoDoc, vsixDoc)
    /\ genContentTypesXml path_extname (map fst before) = Ret types
    /\ a = zip_file CONTENT_TYPES_FILENAME (buildObject types) before
    /\ file_content VSO_MANIFEST_FILENAME a = Some (JSON_stringify vsoDoc)
    /\ file_content VSIX_MANIFEST_FILENAME a = Some (buildObject vsixDoc)
    /\ file_content CONTENT_TYPES_FILENAME a = Some (buildObject types).
Proof.
  intros H. unfold write, writeVsix in H. inv_bind H.
  destruct (truthy a0); [|discriminate]. inv_bind H.
  destruct tmp_dir; [|discriminate]. inv_bind H. destruct a2 as [vsoDoc vsixDoc].
  cbv zeta in H. inv_bind H. injection H as <-.
  exists vsoDoc, vsixDoc, a2. eexists. split; [exact Ha1|]. split; [exact Ha2|].
  split; [reflexivity|]. split; [|split].
  - rewrite file_content_zip_ne by discriminate.
    rewrite file_content_zip_ne by discriminate.
    apply file_content_zip_eq.
  - rewrite file_content_zip_ne by discriminate. apply file_content_zip_eq.
  - apply file_content_zip_eq.
Qed.

Lemma packable_typed (entry : jsval) :
  packable readFileSync path_join root entry = true -> typed_entry entry = true.
Proof.
  unfold packable, typed_entry, isVsoManifestAsset, lodash_get, resolved_path.
  destruct entry as [| | | | | |e]; try discriminate. cbn [has_key].
  destruct (lookup "$.Type" e) eqn:E1; [discriminate|].
  destruct (lookup "$" e) as [[| | | | | |attrs]|] eqn:E2; try discriminate.
  destruct (lookup "Type" attrs) as [[| | | |t| |]|] eqn:E3; try discriminate.
  intros _. cbn [baseGet get]. rewrite E2. cbn [opt_value baseGet get]. rewrite E3.
  reflexivity.
Qed.

Lemma addAssetFile_packable (entry : jsval) (vsix : archive) :
  packable readFileSync path_join root entry = true ->
  is_manifest_entry entry = false ->
  addFile (VStr root) entry vsix = Ret (packed readFileSync path_join root vsix entry).
Proof.
  unfold packable, is_manifest_entry, isVsoManifestAsset, lodash_get, resolved_path.
  destruct entry as [| | | | | |e]; try discriminate. cbn [has_key].
  destruct (lookup "$.Type" e) eqn:E1; [discriminate|].
  destruct (lookup "$" e) as [[| | | | | |attrs]|] eqn:E2; try discriminate.
  destruct (lookup "Type" attrs) as [[| | | |t| |]|] eqn:E3; try discriminate.
  destruct (lookup "Path" attrs) as [[| | | |p| |]|] eqn:E4; try discriminate.
  destruct (readFileSync (path_join root p)) as [data|] eqn:E5; [|discriminate].
  intros _. cbn [baseGet get]. rewrite E2. cbn [opt_value baseGet get]. rewrite E3.
  cbn [opt_value]. intros Hm.
  unfold addFile, addAssetFile, packed, prop. cbn [get]. rewrite E2.
  cbn [opt_value bind truthy get]. rewrite E3, E4. cbn [opt_value].
  assert (Ht : String.eqb t "Microsoft.VSO.Manifest" = false).
  { destruct (String.eqb t "Microsoft.VSO.Manifest") eqn:E; [|reflexivity].
    apply String.eqb_eq in E. subst t. discriminate. }
  rewrite Ht, E5. reflexivity.
Qed.

Lemma forEach_packable (l : list jsval) (vsix : archive) :
  Forall (fun entry => packable readFileSync path_join root entry = true
                       /\ is_manifest_entry entry = false) l ->
  forEach l (addFile (VStr root)) vsix
  = Ret (fold_left (packed readFileSync path_join root) l vsix).
Proof.
  intros H. revert vsix. induction H as [|e r [Hp Hm] _ IH]; intros vsix; [reflexivity|].
  cbn [forEach fold_left]. rewrite (addAssetFile_packable e vsix Hp Hm). cbn [bind].
  apply IH.
Qed.

Lemma file_content_packed (name : string) (entry : jsval) (vsix : archive) :
  file_content name (packed readFileSync path_join root vsix entry)
  = packaged_step readFileSync path_join root name (file_content name vsix) entry.
Proof.
  unfold packed, packaged_step.
  destruct (prop (prop entry "$") "Path"); try reflexivity.
  destruct (readFileSync (path_join root s)) as [data|]; [|reflexivity].
  rewrite <- slashes_forward.
  destruct (String.eqb name (slashes s)) eqn:E.
  - apply String.eqb_eq in E. subst name. apply file_content_zip_eq.
  - apply String.eqb_neq in E. apply file_content_zip_ne. congruence.
Qed.

Lemma file_content_packed_all (name : string) (l : list jsval) (vsix : archive) :
  file_content name (fold_left (packed readFileSync path_join root) l vsix)
  = fold_left (packaged_step readFileSync path_join root name) l
      (file_content name vsix).
Proof.
  revert vsix. induction l as [|e r IH]; intros vsix; [reflexivity|].
  cbn [fold_left]. rewrite IH, file_content_packed. reflexivity.
Qed.

(** X22.  The assets that are packaged.  For a package manifest whose
    asset list holds entries [{$: {Type, Path}}] with readable files, a
    [VsixWriter] puts into the archive the file of every entry whose type
    is not the reserved type [Microsoft.VSO.Manifest] in whatever case of
    letters: each is read at [join(root, Path)] and stored under its path
    with every backslash normalized to a forward slash, a later entry
    replacing the file of an earlier one with the same name.  The
    archive holds nothing else, and an asset that was declared with the
    reserved type is never read and never packaged. *)
Theorem VsixWriter_packages_assets (vso vsix : jsval) (l : list jsval) :
  asset_list vsix = VArr l ->
  forallb (packable readFileSync path_join root) l = true ->
  exists vsix1 files,
    VsixWriter_new vso vsix = Ret (vso, vsix1)
    /\ assets_of (VStr root) vsix1 = Ret files
    /\ forall name,
         file_content name files
         = packaged readFileSync path_join root
             (filter (fun a => negb (is_manifest_entry a)) l) name.
Proof.
  intros Hl Hp.
  assert (Ht : forallb typed_entry l = true).
  { rewrite forallb_forall in *. intros e He. apply packable_typed. auto. }
  destruct (prepManifests_typed vsix l Hl Ht) as (vsix1 & H1 & L1).
  exists vsix1. eexists. split; [|split].
  - unfold VsixWriter_new. rewrite H1. reflexivity.
  - unfold assets_of, writeVsix_assets. fold (asset_list vsix1). rewrite L1.
    rewrite forEach_app. fold addFile. rewrite forEach_packable.
    + cbn [bind forEach]. reflexivity.
    + apply Forall_forall. intros e He. apply filter_In in He. destruct He as [He Hm].
      rewrite forallb_forall in Hp. split; [auto|].
      apply negb_true_iff in Hm. exact Hm.
  - intros name. apply file_content_packed_all.
Qed.
End WriterFacts.

Lemma writeVsix_root_check_witness :
  writeVsix echo_files posix_join posix_extname stub_stringify stub_buildObject
    (Some "/tmp/vsix") (fst rootless_writer) (snd rootless_writer)
  = Throw (Thrown (VStr msg_root_unknown)).
Proof.
  refine (proj1 (writeVsix_root_check parse_json sample_files posix_isAbsolute
                   posix_dirname posix_join posix_relative "" template_vsixmanifest
                   echo_files posix_extname stub_stringify stub_buildObject
                   (Some "/tmp/vsix") [] []
                   (fst rootless_manifests) (snd rootless_manifests) rootless_writer
                   _ _ _) eq_refl);
    vm_compute; reflexivity.
Defined.

Lemma writeVsix_manifest_files_witness :
  exists a,
    writeVsix echo_files posix_join posix_extname stub_stringify stub_buildObject
      (Some "/tmp/vsix") (VObj [("__meta_root", VStr "/r")]) vsix_with_clashing_asset
    = Ret a
    /\ file_content VSO_MANIFEST_FILENAME a = Some "service manifest".
Proof.
  eexists. split; [vm_compute; reflexivity|].
  edestruct (writeVsix_manifest_files posix_join echo_files posix_extname
               stub_stringify stub_buildObject (Some "/tmp/vsix")
               (VObj [("__meta_root", VStr "/r")]) vsix_with_clashing_asset)
    as (d1 & d2 & t & b & _ & _ & _ & H1 & _); [vm_compute; reflexivity|].
  exact H1.
Defined.

Lemma VsixWriter_packages_assets_witness :
  VsixWriter_new (VObj [("__meta_root", VStr "/r")]) vsix_with_reserved_asset
  = Ret (VObj [("__meta_root", VStr "/r")],
         prepared (VObj [("__meta_root", VStr "/r")]) vsix_with_reserved_asset)
  /\ writeVsix_assets echo_files posix_join (VStr "/r")
       (prepared (VObj [("__meta_root", VStr "/r")]) vsix_with_reserved_asset)
     = Ret [("img/logo.png", "</r/img\logo.png>")]
  /\ forall name,
       file_content name [("img/logo.png", "</r/img\logo.png>")]
       = packaged echo_files posix_join "/r"
           [VObj [("$", VObj [("Type", VStr "Microsoft.VSO.LargeIcon");
                              ("d:Source", VStr "File");
                              ("Path", VStr "img\logo.png")])]]
           name.
Proof.
  destruct (VsixWriter_packages_assets posix_join "/r" echo_files
              (VObj [("__meta_root", VStr "/r")]) vsix_with_reserved_asset
              [VObj [("$", VObj [("Type", VStr "Microsoft.VSO.LargeIcon");
                                 ("d:Source", VStr "File");
                                 ("Path", VStr "img\logo.png")])];
               VObj [("$", VObj [("Type", VStr "microsoft.vso.manifest");
                                 ("d:Source", VStr "File");
                                 ("Path", VStr "mine.json")])]]
              eq_refl eq_refl) as (vsix1 & files & H1 & H2 & H3).
  assert (E1 : VsixWriter_new (VObj [("__meta_root", VStr "/r")]) vsix_with_reserved_asset
               = Ret (VObj [("__meta_root", VStr "/r")],
                      prepared (VObj [("__meta_root", VStr "/r")])
                        vsix_with_reserved_asset))
    by (vm_compute; reflexivity).
  rewrite E1 in H1.
  match type of H1 with
  | Ret (_, ?p) = Ret (_, _) => assert (Ev : vsix1 = p) by congruence
  end.
  subst vsix1.
  assert (E2 : writeVsix_assets echo_files posix_join (VStr "/r")
                 (prepared (VObj [("__meta_root", VStr "/r")]) vsix_with_reserved_asset)
               = Ret [("img/logo.png", "</r/img\logo.png>")])
    by (vm_compute; reflexivity).
  rewrite E2 in H2.
  match type of H2 with
  | Ret ?f = Ret _ => assert (Ef : files = f) by congruence
  end.
  subst files.
  split; [exact E1|]. split; [exact E2 | exact H3].
Defined.

(* ------------------------------------------------------------------ *)
(** ** The content-type index, for every list of files *)

(** X23.  For every list of file names the content-type index has one
    [Default] entry for each distinct value of [path.extname] among the
    files, the empty string for a file without extension included.  The
    extension is listed as [path.extname] returns it, with its leading
    dot, so that no entry is found in the table of known types: every
    entry carries the type [application/octet-stream]. *)
Theorem content_type_index_for_all_files (path_extname : string -> string)
    (fileNames : list string) :
  (forall f, path_extname f = "" \/ exists r, path_extname f = String "."%char r) ->
  exists defaults,
    contentTypeDefaults path_extname fileNames = Ret defaults
    /\ NoDup (map fst defaults)
    /\ (forall ext type,
          In (ext, type) defaults ->
          type = "application/octet-stream"
          /\ exists f, In f fileNames /\ ext = path_extname f)
    /\ (forall f, In f fileNames ->
                  In (path_extname f, "application/octet-stream") defaults).
Proof.
  intros Hdot.
  exists (map (fun ext => (ext, "application/octet-stream"))
            (unique (map path_extname fileNames))).
  destruct (unique_spec (map path_extname fileNames)) as [Hnd Hin].
  split; [apply contentTypeDefaults_all_octet_stream; exact Hdot|].
  split; [|split].
  - rewrite map_map. cbn [fst]. rewrite map_id. exact Hnd.
  - intros ext type H. apply in_map_iff in H. destruct H as (e & [= <- <-] & He).
    split; [reflexivity|]. apply Hin in He. apply in_map_iff in He.
    destruct He as (f & <- & Hf). eauto.
  - intros f Hf. apply in_map_iff. exists (path_extname f). split; [reflexivity|].
    apply Hin. apply in_map. exact Hf.
Qed.

Lemma content_type_index_for_all_files_witness :
  exists defaults,
    contentTypeDefaults posix_extname ["img/logo.png"; "README"; "a.b/icon.png"]
    = Ret defaults
    /\ In (".png", "application/octet-stream") defaults
    /\ In ("", "application/octet-stream") defaults.
Proof.
  destruct (content_type_index_for_all_files posix_extname
              ["img/logo.png"; "README"; "a.b/icon.png"] posix_extname_dotted)
    as (defaults & H & _ & _ & Hall).
  exists defaults. split; [exact H|]. split.
  - apply (Hall "img/logo.png"). left. reflexivity.
  - apply (Hall "README"). right. left. reflexivity.
Defined.

(* ------------------------------------------------------------------ *)
(** ** [removeMetaKeys] *)

Lemma filter_filter {A} (f : A -> bool) (l : list A) : filter f (filter f l) = filter f l.
Proof.
  induction l as [|a r IH]; [reflexivity|]. cbn [filter].
  destruct (f a) eqn:E; cbn [filter]; [rewrite E, IH|]; auto.
Qed.

(** X24.  [removeMetaKeys] is idempotent and shallow: the document it
    returns holds, with their values as they are, exactly the properties
    of the given object whose name does not begin with [__meta_] (a
    [__meta_] key inside a value is not removed), and running it again
    on the result changes nothing. *)
Theorem removeMetaKeys_idempotent (o : props_t) (doc : jsval) :
  removeMetaKeys (VObj o) = Ret doc ->
  removeMetaKeys doc = Ret doc
  /\ exists o',
       doc = VObj o'
       /\ forall k v, In (k, v) o' <->
                      In (k, v) o /\ String.prefix "__meta_" k = false.
Proof.
  intros H. pose proof (removeMetaKeys_object o doc H) as E. subst doc. split.
  - unfold removeMetaKeys, omit_keys in *.
    destruct (mem "__proto__" (map fst o)) eqn:M; [discriminate|].
    assert (M' : mem "__proto__"
                   (map fst (filter (fun kv => negb (String.prefix "__meta_" (fst kv))) o))
                 = false).
    { apply mem_false_not_In. apply mem_false_not_In in M. intros Hin. apply M.
      apply in_map_iff in Hin. destruct Hin as (kv & <- & Hkv).
      apply filter_In in Hkv. apply in_map. tauto. }
    rewrite M'. rewrite filter_filter. reflexivity.
  - eexists. split; [reflexivity|]. intros k v. rewrite filter_In. cbn [fst].
    rewrite negb_true_iff. tauto.
Qed.

Lemma removeMetaKeys_idempotent_witness :
  removeMetaKeys (VObj [("name", VObj [("__meta_x", VNum 1)])])
  = Ret (VObj [("name", VObj [("__meta_x", VNum 1)])]).
Proof.
  apply (removeMetaKeys_idempotent
           [("__meta_root", VStr "/r"); ("name", VObj [("__meta_x", VNum 1)])]).
  reflexivity.
Defined.

(* ------------------------------------------------------------------ *)
(** ** The merge rules: values of different kinds *)

(** X25.  An array or an object declared for a key for which the
    accumulator holds a value of another kind.  A declared array takes
    the place of an accumulated object, number, boolean or [null]; a
    declared object takes the place of an accumulated primitive, and of
    an accumulated array under [contributionPoints] and
    [contributionTypes], while under [contributions] it is appended to
    the accumulated array as one element.  Nothing of the accumulated
    value is merged into the declared one. *)
Theorem other_kinds_are_replaced (r : merge_rule) (key x : string)
    (o p : props_t) (v w : jsval) (vso vsix : jsval) :
  In r merge_rules ->
  String.eqb (toLowerCase key) (declared_as r) = true ->
  accumulated_field vso (accumulated_in r) p ->
  plain (VObj o) = true -> plain (VObj p) = true ->
  lookup x o = Some v ->
  other_kind_merged r (lookup x p) v = Some w ->
  exists vso' p',
    mergeKey key (VObj o) vso vsix = Ret (vso', vsix)
    /\ get vso' (accumulated_in r) = Ret (VObj p')
    /\ lookup x p' = Some w.
Proof.
  intros Hr Hk Hacc Ho Hp Hv Hw.
  pose proof (customizer_of_ok r) as Hc.
  pose proof (plain_lookup _ _ _ Ho Hv) as Hpv.
  pose proof (baseMerge_copy (customizer_of r) (customizer_of_absent r) v Hpv) as Hcopy.
  destruct (baseMerge_at_key (customizer_of r) x o p v w Hc Ho Hp Hv)
    as (p' & Hp' & _ & Hl).
  { intros p1 H1. unfold mergeEntry. cbn [get]. rewrite H1. cbn [bind].
    unfold other_kind_merged in Hw.
    destruct (lookup x p) as [acc|] eqn:E; [|destruct v; discriminate].
    pose proof (plain_lookup _ _ _ Hp E) as Hpa.
    cbn [opt_value].
    unfold customizer_of in *.
    destruct (String.eqb (declared_as r) "contributions");
      cbn [apply_customizer];
      destruct v as [| | | | |B|b]; try discriminate;
      destruct acc as [| |ab|an|s|A|q]; try discriminate;
      injection Hw as <-;
      cbn [concatArrays concat isObjectLike bind copies] in *;
      try rewrite (plain_not_array_like _ Hpa);
      cbn [bind]; try rewrite Hcopy; reflexivity. }
  destruct (mergeKey_merges_into r key (VObj o) vso vsix (VObj p') p Hr Hk Hacc)
    as (vso' & H1 & _ & H2).
  { cbn [lodash_merge truthy]. exact Hp'. }
  exists vso', p'. auto.
Qed.

Lemma other_kinds_are_replaced_witness :
  exists vso' p',
    mergeKey "contributionPoints" (VObj [("x", VArr [VNum 1])])
      (VObj [("contributionPoints", VObj [("x", VObj [("a", VNum 0)])])]) (VObj [])
    = Ret (vso', VObj [])
    /\ get vso' "contributionPoints" = Ret (VObj p')
    /\ lookup "x" p' = Some (VArr [VNum 1]).
Proof.
  apply (other_kinds_are_replaced contributionPoints_rule "contributionPoints" "x"
           [("x", VArr [VNum 1])] [("x", VObj [("a", VNum 0)])] (VArr [VNum 1]));
    [ cbv [merge_rules In]; tauto | reflexivity
    | split; [reflexivity | left; reflexivity]
    | reflexivity | reflexivity | reflexivity | reflexivity ].
Defined.

(* ------------------------------------------------------------------ *)
(** ** The content types of a package *)

Lemma zip_file_names (name data : string) (vsix : archive) (n : string) :
  In n (map fst (zip_file name data vsix)) <-> n = name \/ In n (map fst vsix).
Proof.
  induction vsix as [|[n0 d0] r IH]; cbn [zip_file map fst In].
  - intuition congruence.
  - destruct (String.eqb name n0) eqn:E; cbn [map fst In].
    + apply String.eqb_eq in E. subst n0. intuition congruence.
    + rewrite IH. intuition congruence.
Qed.

Section PackageIndex.
Variable readFileSync : string -> option string.
Variable path_join : string -> string -> string.
Variable path_extname : string -> string.
Variable JSON_stringify : jsval -> string.
Variable buildObject : jsval -> string.
Variable tmp_dir : option string.
Hypothesis extname_dotted :
  forall f, path_extname f = "" \/ exists r, path_extname f = String "."%char r.

Let write := writeVsix readFileSync path_join path_extname JSON_stringify buildObject
               tmp_dir.

(** X26.  The content types in a package.  When [writeVsix] completes,
    the index stored under [[Content_Types].xml] is the rendering of a
    document whose [Default] entries all carry
    [application/octet-stream]; among them are the entries for the
    extensions of [extension.vsomanifest] and [extension.vsixmanifest],
    which the table of known types lists as [application/json] and
    [text/xml]. *)
Theorem package_index_is_all_octet_stream (vso vsix : jsval) (a : archive) :
  write vso vsix = Ret a ->
  exists exts,
    file_content CONTENT_TYPES_FILENAME a
    = Some (buildObject
              (VObj
                 [("Types", VObj
                    [("$", VObj [("xmlns", VStr "http://schemas.openxmlformats.org/package/2006/content-types")]);
                     ("Default", VArr
                        (map (fun ext =>
                                VObj [("$", VObj [("Extension", VStr ext);
                                                  ("ContentType",
                                                   VStr "application/octet-stream")])])
                           exts))])]))
    /\ In (path_extname VSO_MANIFEST_FILENAME) exts
    /\ In (path_extname VSIX_MANIFEST_FILENAME) exts.
Proof.
  intros H. unfold write, writeVsix in H. inv_bind H.
  destruct (truthy a0); [|discriminate]. inv_bind H.
  destruct tmp_dir; [|discriminate]. inv_bind H. destruct a2 as [vsoDoc vsixDoc].
  cbv zeta in H. inv_bind H. injection H as <-.
  unfold genContentTypesXml in Ha2.
  rewrite (contentTypeDefaults_all_octet_stream path_extname extname_dotted) in Ha2.
  cbn [bind] in Ha2. injection Ha2 as <-. rewrite map_map.
  eexists. split; [apply file_content_zip_eq|].
  destruct (unique_spec
              (map path_extname
                 (map fst
                    (zip_file VSIX_MANIFEST_FILENAME (buildObject vsixDoc)
                       (zip_file VSO_MANIFEST_FILENAME (JSON_stringify vsoDoc) a1)))))
    as [_ Hin].
  split; apply Hin; apply in_map; apply zip_file_names.
  - right. apply zip_file_names. left. reflexivity.
  - left. reflexivity.
Qed.
End PackageIndex.

Lemma package_index_is_all_octet_stream_witness :
  exists a exts,
    writeVsix echo_files posix_join posix_extname stub_stringify stub_buildObject
      (Some "/tmp/vsix") (VObj [("__meta_root", VStr "/r")]) vsix_with_clashing_asset
    = Ret a
    /\ file_content CONTENT_TYPES_FILENAME a = Some "content types"
    /\ In ".vsomanifest" exts /\ In ".vsixmanifest" exts.
Proof.
  eexists.
  edestruct (package_index_is_all_octet_stream echo_files posix_join posix_extname
               stub_stringify stub_buildObject (Some "/tmp/vsix") posix_extname_dotted
               (VObj [("__meta_root", VStr "/r")]) vsix_with_clashing_asset)
    as (exts & H1 & H2 & H3); [vm_compute; reflexivity|].
  exists exts. split; [reflexivity|]. split; [exact H1|]. split; [exact H2|exact H3].
Defined.

(* ------------------------------------------------------------------ *)
(** ** From the declarations to the package *)

Lemma assetEntry_Ret (asset entry : jsval) :
  assetEntry asset = Ret entry -> entry = entry_of asset.
Proof.
  unfold assetEntry, normalizedPath, entry_of, prop. intros H.
  inv_bind H. inv_bind H. inv_bind Ha0. rewrite Ha, Ha1.
  destruct a1; try discriminate. injection Ha0 as <-. injection H as <-.
  rewrite slashes_forward. reflexivity.
Qed.

Lemma mapM_assetEntry (assets entries : list jsval) :
  mapM assetEntry assets = Ret entries -> entries = map entry_of assets.
Proof.
  revert entries. induction assets as [|a r IH]; intros entries H.
  - simpl in H. injection H as <-. reflexivity.
  - cbn [mapM] in H. inv_bind H. inv_bind H. injection H as <-.
    apply assetEntry_Ret in Ha. apply IH in Ha0. subst. reflexivity.
Qed.

Section DeclaredAssets.
Variable path_isAbsolute : string -> bool.
Variable path_dirname : string -> string.
Variable path_join : string -> string -> string.
Variable path_relative : string -> string -> string.
Variable root : string.
Variable readFileSync : string -> option string.

Let resolve := resolveAssets path_isAbsolute path_dirname path_join path_relative root.
Let merge1 := mergePartial path_isAbsolute path_dirname path_join path_relative root.
Let addFile := addAssetFile readFileSync path_join.
Let assets_of := writeVsix_assets readFileSync path_join.

(** X27.  Which files are packaged.  After the partial manifests have
    been merged into accumulators of the fixed schema and the package
    manifest has gone through the constructor of [VsixWriter], the files
    that [writeVsix] adds for the assets are those of the last
    declaration of [assets] whose value is an array, as the path resolver
    left it: for each declared asset whose type is not the reserved one,
    the file read below the root at the resolved path with forward
    slashes, stored under that path (a later asset replacing the file of
    an earlier one with the same path), and nothing else.  The assets
    that earlier partial manifests declared are not packaged. *)
Theorem last_declared_assets_are_packaged
    (partials resolved : list jsval) (vso0 vso vsix : jsval) (top0 : props_t)
    (assets : list jsval) :
  package_shape (VObj top0) = true ->
  lookup "PackageManifest.Assets[0].Asset" top0 = None ->
  is_object vso0 = true ->
  mapM resolve partials = Ret resolved ->
  forEach partials merge1 (vso0, VObj top0) = Ret (vso, vsix) ->
  last_declared assets_rule (flat_map declarations resolved) = Some (VArr assets) ->
  forallb (packable readFileSync path_join root) (map entry_of assets) = true ->
  exists vsix1 files,
    VsixWriter_new vso vsix = Ret (vso, vsix1)
    /\ assets_of (VStr root) vsix1 = Ret files
    /\ forall name,
         file_content name files
         = packaged readFileSync path_join root
             (filter (fun a => negb (is_manifest_entry a)) (map entry_of assets))
             name.
Proof.
  intros Hs Hkey Ho Hm Hf Hlast Hp.
  pose proof (mergePartials_declarations path_isAbsolute path_dirname path_join
                path_relative root partials resolved _ _ Hm Hf) as Hk.
  destruct (mergeKeys_last_wins assets_rule (flat_map declarations resolved)
              vso0 (VObj top0) vso vsix (VArr assets))
    as (s & Hst & Hg); auto.
  { cbv [overwrite_rules In assets_rule]. tauto. }
  cbn [stored assets_rule asset_entries target place pick] in Hst, Hg.
  inv_bind Hst. injection Hst as <-. apply mapM_assetEntry in Ha. subst a.
  destruct (mergePartials_grow path_isAbsolute path_dirname path_join path_relative
              root partials _ _ Hf) as [_ G].
  cbn [fst snd] in G. destruct (G eq_refl) as [Hobj Hkeys].
  destruct (is_object_inv _ Hobj) as [top ->].
  assert (Hl : asset_list (VObj top) = VArr (map entry_of assets)).
  { unfold asset_list, lodash_get, resolved_path. cbn [has_key].
    destruct (lookup "PackageManifest.Assets[0].Asset" top) as [found|] eqn:E.
    - apply lookup_In_keys in E. destruct (Hkeys _ E) as [H|[H|[]]].
      + exfalso. exact (lookup_None_not_In _ _ Hkey H).
      + discriminate.
    - pose proof (get_path_baseGet _ _ _ Hg) as Hb.
      unfold Assets_0_Asset in *. rewrite Hb. reflexivity. }
  assert (Ht : forallb typed_entry (map entry_of assets) = true).
  { rewrite forallb_forall in *. intros e He.
    apply (packable_typed path_join root readFileSync). auto. }
  destruct (prepManifests_typed (VObj top) _ Hl Ht) as (vsix1 & H1 & L1).
  exists vsix1. eexists. split; [|split].
  - unfold VsixWriter_new. rewrite H1. reflexivity.
  - unfold assets_of, writeVsix_assets. fold (asset_list vsix1). rewrite L1.
    rewrite forEach_app.
    rewrite (forEach_packable path_join root readFileSync).
    + cbn [bind forEach]. reflexivity.
    + apply Forall_forall. intros e He. apply filter_In in He. destruct He as [He Hme].
      rewrite forallb_forall in Hp. split; [auto|].
      apply negb_true_iff in Hme. exact Hme.
  - intros name. apply (file_content_packed_all path_join root readFileSync).
Qed.
End DeclaredAssets.

Lemma last_declared_assets_are_packaged_witness :
  VsixWriter_new (fst (merged_of partials_with_assets))
    (snd (merged_of partials_with_assets))
  = Ret (fst (merged_of partials_with_assets),
         prepared (fst (merged_of partials_with_assets))
           (snd (merged_of partials_with_assets)))
  /\ writeVsix_assets echo_files posix_join (VStr "/r")
       (prepared (fst (merged_of partials_with_assets))
          (snd (merged_of partials_with_assets)))
     = Ret [("art/icon.png", "</r/art/icon.png>")]
  /\ forall name,
       file_content name [("art/icon.png", "</r/art/icon.png>")]
       = packaged echo_files posix_join "/r"
           [VObj [("$", VObj [("Type", VStr "Microsoft.VSO.LargeIcon");
                              ("d:Source", VStr "File");
                              ("Path", VStr "art/icon.png")])]]
           name.
Proof.
  pose proof (last_declared_assets_are_packaged posix_isAbsolute posix_dirname
                posix_join posix_relative "/r" echo_files
                partials_with_assets (resolved_of partials_with_assets)
                (fst initial_accumulators)
                (fst (merged_of partials_with_assets))
                (snd (merged_of partials_with_assets))
                initial_top
                [VObj [("type", VStr "Microsoft.VSO.LargeIcon");
                       ("path", VStr "art\icon.png")]]) as W.
  assert (A1 : package_shape (VObj initial_top) = true)
    by (vm_compute; reflexivity).
  assert (A2 : lookup "PackageManifest.Assets[0].Asset" initial_top = None)
    by (vm_compute; reflexivity).
  assert (A4 : mapM (resolveAssets posix_isAbsolute posix_dirname posix_join
                       posix_relative "/r") partials_with_assets
               = Ret (resolved_of partials_with_assets))
    by (vm_compute; reflexivity).
  assert (A5 : forEach partials_with_assets
                 (mergePartial posix_isAbsolute posix_dirname posix_join
                    posix_relative "/r")
                 (fst initial_accumulators, VObj initial_top)
               = Ret (fst (merged_of partials_with_assets),
                      snd (merged_of partials_with_assets)))
    by (vm_compute; reflexivity).
  assert (A6 : last_declared assets_rule
                 (flat_map declarations (resolved_of partials_with_assets))
               = Some (VArr [VObj [("type", VStr "Microsoft.VSO.LargeIcon");
                                   ("path", VStr "art\icon.png")]]))
    by (vm_compute; reflexivity).
  assert (A7 : forallb (packable echo_files posix_join "/r")
                 (map entry_of [VObj [("type", VStr "Microsoft.VSO.LargeIcon");
                                      ("path", VStr "art\icon.png")]]) = true)
    by (vm_compute; reflexivity).
  destruct (W A1 A2 eq_refl A4 A5 A6 A7) as (vsix1 & files & H1 & H2 & H3).
  assert (E1 : VsixWriter_new (fst (merged_of partials_with_assets))
                 (snd (merged_of partials_with_assets))
               = Ret (fst (merged_of partials_with_assets),
                      prepared (fst (merged_of partials_with_assets))
                        (snd (merged_of partials_with_assets))))
    by (vm_compute; reflexivity).
  rewrite E1 in H1.
  match type of H1 with
  | Ret (_, ?p) = Ret (_, _) => assert (Ev : vsix1 = p) by congruence
  end.
  subst vsix1.
  assert (E2 : writeVsix_assets echo_files posix_join (VStr "/r")
                 (prepared (fst (merged_of partials_with_assets))
                    (snd (merged_of partials_with_assets)))
               = Ret [("art/icon.png", "</r/art/icon.png>")])
    by (vm_compute; reflexivity).
  rewrite E2 in H2.
  match type of H2 with
  | Ret ?f = Ret _ => assert (Ef : files = f) by congruence
  end.
  subst files.
  split; [exact E1|]. split; [exact E2 | exact H3].
Defined.
